(** * shalseti-backend: tenant router and inventory ledger

    A shallow embedding of the request handlers of [src/server.js]
    (company middleware, product creation, duplication, cross-company
    transfer, stock add/remove, metadata update, delete, the category
    routes, the dashboard and category statistics, the URI of the master
    database), of the product schema, the connection cache, its shutdown
    and status, and the base URI of [src/db-manager.js], and the
    properties of the ledger and the router that follow from them.

    Modelling conventions.
    - JavaScript numbers that hold stock quantities are doubles with an
      integer value, represented by that integer ([Z]); sums and
      differences are rounded to the nearest double ([Js.double]).
      The quantity of a request is what [parseInt] returned, a double
      itself, and [None] for [NaN]; [Infinity] (an integer of [2^1024]
      or more) is outside the model, and so is the exponent notation in
      which numbers of [10^21] and more are printed.  Prices are only
      copied and compared with zero; they are rationals ([Q]).
    - A body field that may be [undefined] is an [option].
    - A Mongo collection is the list of its documents in insertion order;
      the position of a document stands for its [_id].
    - Every write ([save], [deleteOne], [findByIdAndDelete]) can throw;
      whether it does is read from an environment record ([Env]), and a
      handler's [try/catch] is the match on the error.  Reads ([findOne],
      [findById]) are answered.
    - [mongoose.createConnection] hands the connection over while the
      driver is still connecting; the driver opening it is an event of
      the environment ([driverOpens]).
    - Requests are served one after the other ([run]); only the calls of
      [getCompanyConnection] are also modelled overlapping ([runLoop]).
      A database whose name differs from an existing one in case only is
      a database of its own.
    - Timestamps ([createdAt], [updatedAt]) and the JSON payload other
      than status, message and the returned barcode are not modelled.
    - A category is its [_id] and its name; description and colour are
      not modelled.  The [_id] of a new category is an input.  What a
      string is cast to when a product request names a category is read
      from the environment ([castId]); the [:id] of the category routes
      is an ObjectId as it is stored.
    - Strings are sequences of one-byte characters: white space and line
      terminators beyond them are not recognised, and only the letters A
      to Z have a lower case. *)

From Stdlib Require Import ZArith QArith Lia Ascii String.
From stdpp Require Import gmap strings list fin_maps pretty.

Open Scope string_scope.
Open Scope list_scope.
Open Scope Z_scope.

(** ** JavaScript string helpers *)

Module Js.

(** White space removed by [String.prototype.trim], restricted to the
    one-byte code points (tab, line feed, vertical tab, form feed,
    carriage return, space). *)
Definition isWhiteSpace (c : ascii) : bool :=
  let n := nat_of_ascii c in
  Nat.eqb n 32 || (Nat.leb 9 n && Nat.leb n 13).

Fixpoint dropWs (l : list ascii) : list ascii :=
  match l with
  | [] => []
  | c :: l' => if isWhiteSpace c then dropWs l' else l
  end.

Definition trimChars (l : list ascii) : list ascii :=
  rev (dropWs (rev (dropWs l))).

Definition trim (s : string) : string :=
  string_of_list_ascii (trimChars (list_ascii_of_string s)).

(** [String.prototype.toLowerCase], on the letters A to Z; other
    characters are left as they are. *)
Definition lowerChar (c : ascii) : ascii :=
  let n := nat_of_ascii c in
  if Nat.leb 65 n && Nat.leb n 90 then ascii_of_nat (n + 32) else c.

Definition toLowerCase (s : string) : string :=
  string_of_list_ascii (lowerChar <$> list_ascii_of_string s).

(** The strings of ASCII characters, on which [trim] and [toLowerCase]
    see every white space and every letter. *)
Definition isAscii (s : string) : bool :=
  forallb (fun c => Nat.ltb (nat_of_ascii c) 128) (list_ascii_of_string s).

(** [o || d] on a possibly undefined string: the empty string is falsy. *)
Definition orStr (o : option string) (d : string) : string :=
  match o with
  | Some s => if decide (s = "") then d else s
  | None => d
  end.

(** [o?.trim() || d]. *)
Definition trimOr (o : option string) (d : string) : string :=
  orStr (trim <$> o) d.

(** [parseInt(x) || 0] and [parseFloat(x) || 0]: [NaN] and [0] are falsy. *)
Definition intOr0 (x : option Z) : Z := default 0 x.
Definition floatOr0 (x : option Q) : Q := default 0%Q x.

(** [!n || n <= 0] for [n = parseInt(x)]. *)
Definition notPositive (n : option Z) : bool :=
  match n with
  | None => true
  | Some z => (z =? 0) || (z <=? 0)
  end.

(** Numbers are IEEE-754 doubles.  A double that holds an integer is
    represented by that integer: every integer up to [2^53] in absolute
    value is one, and beyond that the integers with at most 53
    significant bits are.  [double z] is the double nearest to [z], the
    one with the even significand in a tie: [e] low bits are dropped from
    the magnitude and the 53 bits that stay are rounded up or not. *)
Definition double (z : Z) : Z :=
  let a := Z.abs z in
  let e := Z.log2 a - 52 in
  if e <=? 0 then z
  else
    let m := Z.shiftr a e in
    let r := a - Z.shiftl m e in
    let half := Z.shiftl 1 (e - 1) in
    let m' := if (half <? r) || ((half =? r) && Z.odd m) then m + 1 else m in
    Z.sgn z * Z.shiftl m' e.

(** [x + y] and [x - y] on numbers: the exact result, rounded. *)
Definition add (x y : Z) : Z := double (x + y).
Definition sub (x y : Z) : Z := double (x - y).

(** The largest [n] such that every integer up to [n] is a double
    ([Number.MAX_SAFE_INTEGER + 1]). *)
Definition exactUpTo : Z := 2 ^ 53.

End Js.

(** ** Documents (db-manager.js, registerModels) *)

Inductive MovementType := add | remove.

(** stockHistorySchema *)
Record StockMovement := {
  quantity : Z;
  type : MovementType;
  h_note : string;
  supplier : string;
  location : string;
  addedBy : option nat;
  addedByName : string
}.

(** productSchema *)
Record Product := {
  barcode : string;
  name : string;
  currentStock : Z;
  note : string;
  buyingPrice : Q;
  sellingPrice : Q;
  boughtFrom : string;
  sellLocation : string;
  imageUrl : string;
  unit : string;
  category : option string;
  categoryName : string;
  stockHistory : list StockMovement;
  createdBy : option nat;
  createdByName : option string
}.

(** categorySchema: the identifier and the name are all the ledger reads. *)
Record Category := {
  cat_id : string;
  cat_name : string
}.

(** companyAccessSchema and the user document of the master database. *)
Record CompanyAccess := {
  companySlug : string;
  ca_role : string
}.

Record User := {
  user_id : nat;
  username : string;
  fullName : string;
  isSuperAdmin : bool;
  companyAccess : option (list CompanyAccess)
}.

Record Company := {
  slug : string;
  isActive : bool
}.

(** ** The product schema: setters, validators, pre-save hook *)

(** [trim: true] on barcode, name, boughtFrom, sellLocation and unit:
    the setter runs whenever a document is built or a path is assigned. *)
Definition castProduct (p : Product) : Product :=
  {| barcode := Js.trim (barcode p);
     name := Js.trim (name p);
     currentStock := currentStock p;
     note := note p;
     buyingPrice := buyingPrice p;
     sellingPrice := sellingPrice p;
     boughtFrom := Js.trim (boughtFrom p);
     sellLocation := Js.trim (sellLocation p);
     imageUrl := imageUrl p;
     unit := Js.trim (unit p);
     category := category p;
     categoryName := categoryName p;
     stockHistory := stockHistory p;
     createdBy := createdBy p;
     createdByName := createdByName p |}.

(** [required: true] on barcode and name, [min: 0] on currentStock,
    buyingPrice and sellingPrice. *)
Definition validate (p : Product) : bool :=
  negb (String.eqb (barcode p) "") && negb (String.eqb (name p) "")
  && (0 <=? currentStock p)
  && Qle_bool 0 (buyingPrice p) && Qle_bool 0 (sellingPrice p).

(** productSchema.pre('save'): [if (!this.unit) this.unit = 'pcs']. *)
Definition preSave (p : Product) : Product :=
  if decide (unit p = "") then
    {| barcode := barcode p; name := name p; currentStock := currentStock p;
       note := note p; buyingPrice := buyingPrice p;
       sellingPrice := sellingPrice p; boughtFrom := boughtFrom p;
       sellLocation := sellLocation p; imageUrl := imageUrl p;
       unit := "pcs";
       category := category p; categoryName := categoryName p;
       stockHistory := stockHistory p; createdBy := createdBy p;
       createdByName := createdByName p |}
  else p.

(** ** Collections *)

Inductive DbError :=
  ValidationError | DuplicateKeyError | NetworkError | CastError.

(** What the storage does while one request is served: whether the
    driver reaches the database of a company and opens the connection to
    it, and whether the calls that can throw do. *)
Record Env := {
  connectOk : string -> bool;  (* the driver opens the connection: 'open' *)
  saveOk : bool;               (* the write of doc.save() reaches the store *)
  deleteOk : bool;             (* the write of deleteOne / findByIdAndDelete *)
  castId : string -> option string
    (* the ObjectId a string is cast to, in the notation of the stored
       [_id]s; [None] when the cast throws *)
}.

(** [Model.findOne({ barcode: b })]: the filter is cast by the schema
    (trimmed), the first matching document and its position are returned. *)
Definition findOne (db : list Product) (b : string) : option (nat * Product) :=
  list_find (fun p => barcode p = Js.trim b) db.

(** [doc.save()] of a document built with [new Model(...)]: validation,
    pre-save hook, insertion under the unique index on barcode. *)
Definition saveNew (env : Env) (db : list Product) (raw : Product)
  : DbError + list Product :=
  let p := castProduct raw in
  if negb (validate p) then inl ValidationError
  else if negb (saveOk env) then inl NetworkError
  else match list_find (fun x => barcode x = barcode p) db with
       | Some _ => inl DuplicateKeyError
       | None => inr (db ++ [preSave p])
       end.

(** [doc.save()] of a document loaded by [findOne] at position [i]. *)
Definition saveAt (env : Env) (db : list Product) (i : nat) (p : Product)
  : DbError + list Product :=
  if negb (validate p) then inl ValidationError
  else if negb (saveOk env) then inl NetworkError
  else match list_find (fun x => barcode x = barcode p) (delete i db) with
       | Some _ => inl DuplicateKeyError
       | None => inr (<[i := preSave p]> db)
       end.

(** [Model.deleteOne({ barcode: b })]. *)
Definition deleteOne (env : Env) (db : list Product) (b : string)
  : DbError + list Product :=
  if negb (deleteOk env) then inl NetworkError
  else match findOne db b with
       | Some (i, _) => inr (delete i db)
       | None => inr db
       end.

(** [Model.findByIdAndDelete(doc._id)] for the document at position [i]. *)
Definition findByIdAndDelete (env : Env) (db : list Product) (i : nat)
  : DbError + list Product :=
  if negb (deleteOk env) then inl NetworkError else inr (delete i db).

(** ** The connection cache (db-manager.js) *)

Record Connection := {
  conn_id : nat;       (* which call of createConnection made it *)
  conn_db : string;    (* the database the URI names *)
  readyState : nat     (* 0 disconnected, 1 connected, 2 connecting, 3 disconnecting *)
}.

(** [connectionCache], with the number of [mongoose.createConnection]
    calls made so far. *)
Record Registry := {
  connectionCache : gmap string Connection;
  created : nat
}.

(** [getCompanyConnection] up to its [await]: the cache is read, a stale
    entry is removed, and [createConnection] is called.  The result is the
    cached connection, or the ticket of the creation now in flight. *)
Definition acquireStart (reg : Registry) (companySlug : string)
  : Registry * (Connection + nat) :=
  match connectionCache reg !! companySlug with
  | Some cachedConn =>
      if Nat.eqb (readyState cachedConn) 1 then (reg, inl cachedConn)
      else ({| connectionCache := delete companySlug (connectionCache reg);
               created := S (created reg) |}, inr (created reg))
  | None =>
      ({| connectionCache := connectionCache reg;
          created := S (created reg) |}, inr (created reg))
  end.

(** [getCompanyConnection] after its [await].  [mongoose.createConnection]
    returns the connection at once and lets the driver connect in the
    background: the connection is not a promise, so the [await] neither
    waits for the handshake nor throws when the storage cannot be reached.
    The connection is registered in the cache and returned while it is
    still connecting ([readyState] 2).  The result is an [option] for the
    callers' [catch]: [None] would be a throw. *)
Definition acquireResume (reg : Registry) (companySlug : string)
  (ticket : nat) : Registry * option Connection :=
  let connection :=
    {| conn_id := ticket; conn_db := companySlug; readyState := 2 |} in
  ({| connectionCache := <[companySlug := connection]> (connectionCache reg);
      created := created reg |}, Some connection).

(** One call of [getCompanyConnection] that nothing interleaves with. *)
Definition getCompanyConnection (reg : Registry) (companySlug : string)
  : Registry * option Connection :=
  match acquireStart reg companySlug with
  | (reg1, inl c) => (reg1, Some c)
  | (reg1, inr ticket) => acquireResume reg1 companySlug ticket
  end.

(** What the driver's 'open' event leaves: the connection, connected. *)
Definition opened (c : Connection) : Connection :=
  {| conn_id := conn_id c; conn_db := conn_db c; readyState := 1 |}.

(** The driver, in the background: when it reaches the database of the
    company, the connection cached for it that is connecting becomes
    connected.  Queries sent over a connection wait for this event. *)
Definition driverOpens (env : Env) (reg : Registry) (companySlug : string)
  : Registry :=
  match connectionCache reg !! companySlug with
  | Some c =>
      if Nat.eqb (readyState c) 2 && connectOk env companySlug then
        {| connectionCache := <[companySlug := opened c]> (connectionCache reg);
           created := created reg |}
      else reg
  | None => reg
  end.

(** Calls that overlap.  JavaScript runs a call without interruption up
    to its [await]; the continuation runs later, after any number of other
    calls have started.  An event starts a call, resumes the [k]-th call
    that is waiting, or is the driver opening the connection cached for a
    company. *)
Inductive Event :=
  | Call (companySlug : string)
  | Resume (k : nat)
  | Opened (companySlug : string).

Record Loop := {
  loop_reg : Registry;
  waiting : list (string * nat);           (* calls suspended at the await *)
  returned : list (option Connection)      (* results, as they were returned *)
}.

Definition stepLoop (env : Env) (st : Loop) (e : Event) : Loop :=
  match e with
  | Call companySlug =>
      match acquireStart (loop_reg st) companySlug with
      | (reg1, inl c) =>
          {| loop_reg := reg1; waiting := waiting st;
             returned := returned st ++ [Some c] |}
      | (reg1, inr ticket) =>
          {| loop_reg := reg1;
             waiting := waiting st ++ [(companySlug, ticket)];
             returned := returned st |}
      end
  | Resume k =>
      match waiting st !! k with
      | Some (companySlug, ticket) =>
          let '(reg1, r) := acquireResume (loop_reg st) companySlug ticket in
          {| loop_reg := reg1; waiting := delete k (waiting st);
             returned := returned st ++ [r] |}
      | None => st
      end
  | Opened companySlug =>
      {| loop_reg := driverOpens env (loop_reg st) companySlug;
         waiting := waiting st; returned := returned st |}
  end.

Definition runLoop (env : Env) (reg : Registry) (es : list Event) : Loop :=
  foldl (stepLoop env)
        {| loop_reg := reg; waiting := []; returned := [] |} es.

(** [n] calls for the same company started before any of them resumes,
    then resumed in order. *)
Definition concurrentCalls (n : nat) (companySlug : string) : list Event :=
  replicate n (Call companySlug) ++ replicate n (Resume 0).

(** [n] calls for the same company, each finished before the next starts. *)
Definition sequentialCalls (n : nat) (companySlug : string) : list Event :=
  mjoin (replicate n [Call companySlug; Resume 0]).

(** One call for a company, finished, after which the driver opens the
    connection. *)
Definition firstCall (companySlug : string) : list Event :=
  [Call companySlug; Resume 0; Opened companySlug].

Definition emptyRegistry : Registry :=
  {| connectionCache := ∅; created := 0 |}.

(** ** The world: cache, master directory, one database per company *)

Record TenantDb := {
  products : list Product;
  categories : list Category
}.

Definition emptyDb : TenantDb := {| products := []; categories := [] |}.

Record World := {
  registry : Registry;
  companies : list Company;
  dbs : gmap string TenantDb
}.

(** The database a connection for [s] reads: Mongo creates it on first use. *)
Definition tenant (w : World) (s : string) : TenantDb :=
  default emptyDb (dbs w !! s).

Definition setRegistry (w : World) (reg : Registry) : World :=
  {| registry := reg; companies := companies w; dbs := dbs w |}.

Definition setProducts (w : World) (s : string) (ps : list Product) : World :=
  {| registry := registry w; companies := companies w;
     dbs := <[s := {| products := ps; categories := categories (tenant w s) |}]>
              (dbs w) |}.

(** config.js *)
Record Config := { DEFAULT_COMPANY_SLUG : string }.

(** ** Responses *)

Record Response := {
  status : nat;
  message : string;
  resBarcode : option string   (* product.barcode of the payload, if any *)
}.

Definition reply (st : nat) (msg : string) : Response :=
  {| status := st; message := msg; resBarcode := None |}.

Definition replyProduct (st : nat) (msg : string) (b : string) : Response :=
  {| status := st; message := msg; resBarcode := Some b |}.

(** The error kinds of the ledger, as the handlers send them. *)
Definition AccessDenied : Response := reply 403 "No access to this company".
Definition ConnectionError : Response :=
  reply 500 "Failed to connect to company database".
Definition DuplicateBarcode : Response :=
  reply 409 "Product with this barcode already exists".
Definition NotFound : Response := reply 404 "Product not found".
Definition InsufficientStock : Response := reply 400 "Insufficient stock".
Definition InvalidQuantity : Response := reply 400 "Valid quantity is required".
Definition TransferFailed : Response := reply 500 "Failed to transfer product".
Definition Moved (b : string) : Response :=
  replyProduct 200 "Product transferred to target company" b.
Definition Copied (b : string) : Response :=
  replyProduct 200 "Product copied to target company" b.

(** ** companyMiddleware (server.js) *)

(** [req.user.companyAccess?.some(ca => ca.companySlug === s)];
    [undefined] is falsy. *)
Definition hasAccessTo (u : User) (s : string) : bool :=
  match companyAccess u with
  | Some l => existsb (fun ca => bool_decide (companySlug ca = s)) l
  | None => false
  end.

(** [!req.user.companyAccess || req.user.companyAccess.length === 0] *)
Definition legacyAccess (u : User) : bool :=
  match companyAccess u with
  | Some l => Nat.eqb (length l) 0
  | None => true
  end.

(** [req.companySlug]: the header, or the default when it is missing. *)
Definition requestedSlug (cfg : Config) (header : option string) : string :=
  Js.orStr header (DEFAULT_COMPANY_SLUG cfg).

(** The access check of the middleware: [true] when the request goes on
    to [getCompanyConnection], [false] when it is answered with 403. *)
Definition admits (cfg : Config) (u : User) (header : option string) : bool :=
  if negb (isSuperAdmin u) then
    let hasAccess := hasAccessTo u (requestedSlug cfg header) in
    if negb hasAccess && negb (legacyAccess u) then false else true
  else true.

(** The middleware: 403 without access, 500 when getCompanyConnection
    throws, and otherwise the company whose connection and models the
    handler is given.  The environment is not consulted: the connection is
    handed on without waiting for the storage. *)
Definition companyMiddleware (cfg : Config) (env : Env) (reg : Registry)
  (u : User) (header : option string) : Registry * (Response + string) :=
  let s := requestedSlug cfg header in
  if negb (admits cfg u header) then (reg, inl AccessDenied)
  else match getCompanyConnection reg s with
       | (reg1, Some _) => (reg1, inr s)
       | (reg1, None) => (reg1, inl ConnectionError)
       end.

(** ** The ledger handlers (server.js) *)

(** [!s] for a possibly undefined string. *)
Definition falsy (o : option string) : bool :=
  match o with
  | Some s => bool_decide (s = "")
  | None => true
  end.

(** The category whose [_id] is [id]. *)
Definition findCategory (cats : list Category) (id : string) : option Category :=
  List.find (fun c => bool_decide (cat_id c = id)) cats.

(** [req.Category.findById(id)]: the string is cast to an ObjectId, which
    throws a CastError when it is not one, and the category with that
    [_id] is looked up. *)
Definition findById (env : Env) (cats : list Category) (id : string)
  : DbError + option Category :=
  match castId env id with
  | Some oid => inr (findCategory cats oid)
  | None => inl CastError
  end.

(** The template string [`${base}(${counter})`]. *)
Definition suffixed (base : string) (counter : nat) : string :=
  base +:+ "(" +:+ pretty counter +:+ ")".

(** The loop [while (await Model.findOne({ barcode: b })) { counter++; ... }]
    entered with [b = `${base}(${counter})`]; [fuel] bounds the number of
    probes, [None] is a loop still running when the fuel is spent. *)
Fixpoint suffixLoop (fuel : nat) (db : list Product) (base : string)
  (counter : nat) : option string :=
  match fuel with
  | O => None
  | S fuel' =>
      match findOne db (suffixed base counter) with
      | None => Some (suffixed base counter)
      | Some _ => suffixLoop fuel' db base (S counter)
      end
  end.

(** The barcode chosen by the transfer: the source's own barcode when it
    is free in the target company, otherwise the first free suffixed one. *)
Definition generateUniqueBarcode (db : list Product) (base : string)
  : option string :=
  match findOne db base with
  | None => Some base
  | Some _ => suffixLoop (S (length db)) db base 1
  end.

(** The answer that stands for "no answer": the probing loop ran out of
    fuel.  [suffixLoop_total] shows that it never does. *)
Definition stillLooping : Response := reply 0 "".

(** *** POST /api/products *)

Record CreateBody := {
  c_barcode : option string;
  c_name : option string;
  c_quantity : option Z;          (* parseInt(quantity) *)
  c_note : option string;
  c_buyingPrice : option Q;       (* parseFloat(buyingPrice) *)
  c_sellingPrice : option Q;      (* parseFloat(sellingPrice) *)
  c_boughtFrom : option string;
  c_sellLocation : option string;
  c_category : option string;
  c_unit : option string
}.

(** [if (category) { categoryDoc = await req.Category.findById(category) }],
    with [categoryDoc] null before. *)
Definition lookupCategory (env : Env) (cats : list Category)
  (category' : option string) : DbError + option Category :=
  if falsy category' then inr None
  else findById env cats (default "" category').

(** The document passed to [new req.Product(...)], for the category
    document that was found, if any. *)
Definition createDoc (u : User) (categoryDoc : option Category)
  (b : CreateBody) : Product :=
  let initialQuantity := Js.intOr0 (c_quantity b) in
  {| barcode := Js.trim (default "" (c_barcode b));
     name := Js.trim (default "" (c_name b));
     currentStock := initialQuantity;
     note := Js.orStr (c_note b) "";
     buyingPrice := Js.floatOr0 (c_buyingPrice b);
     sellingPrice := Js.floatOr0 (c_sellingPrice b);
     boughtFrom := Js.trimOr (c_boughtFrom b) "";
     sellLocation := Js.trimOr (c_sellLocation b) "";
     imageUrl := "";
     unit := Js.trimOr (c_unit b) "ədəd";
     category := cat_id <$> categoryDoc;
     categoryName := default "" (cat_name <$> categoryDoc);
     stockHistory :=
       if 0 <? initialQuantity then
         [ {| quantity := initialQuantity;
              type := add;
              h_note := Js.orStr (c_note b) "Initial stock";
              supplier := Js.trimOr (c_boughtFrom b) "";
              location := "";
              addedBy := Some (user_id u);
              addedByName := fullName u |} ]
       else [];
     createdBy := Some (user_id u);
     createdByName := Some (fullName u) |}.

Definition createProduct (env : Env) (u : User) (db : TenantDb)
  (b : CreateBody) : list Product * Response :=
  if falsy (c_barcode b) || falsy (c_name b) then
    (products db, reply 400 "Barcode and name are required")
  else match findOne (products db) (Js.trim (default "" (c_barcode b))) with
       | Some _ => (products db, DuplicateBarcode)
       | None =>
           match lookupCategory env (categories db) (c_category b) with
           | inl _ => (products db, reply 500 "Failed to create product")
           | inr categoryDoc =>
               match saveNew env (products db) (createDoc u categoryDoc b) with
               | inr db' =>
                   (db', replyProduct 201 "Product created successfully"
                           (barcode (castProduct (createDoc u categoryDoc b))))
               | inl _ => (products db, reply 500 "Failed to create product")
               end
           end
       end.

(** *** POST /api/products/:barcode/duplicate *)

Definition duplicateDoc (u : User) (param : string) (newBarcode : string)
  (originalProduct : Product) : Product :=
  {| barcode := newBarcode;
     name := name originalProduct;
     currentStock := currentStock originalProduct;
     note := note originalProduct;
     buyingPrice := buyingPrice originalProduct;
     sellingPrice := sellingPrice originalProduct;
     boughtFrom := boughtFrom originalProduct;
     sellLocation := sellLocation originalProduct;
     imageUrl := imageUrl originalProduct;
     unit := unit originalProduct;
     category := category originalProduct;
     categoryName := categoryName originalProduct;
     stockHistory :=
       if 0 <? currentStock originalProduct then
         [ {| quantity := currentStock originalProduct;
              type := add;
              h_note := "Duplicated from " +:+ param;
              supplier := "";
              location := "";
              addedBy := Some (user_id u);
              addedByName := fullName u |} ]
       else [];
     createdBy := Some (user_id u);
     createdByName := Some (fullName u) |}.

Definition duplicateProduct (env : Env) (u : User) (db : TenantDb)
  (param : string) : list Product * Response :=
  match findOne (products db) (Js.trim param) with
  | None => (products db, NotFound)
  | Some (_, originalProduct) =>
      match suffixLoop (S (length (products db))) (products db) param 1 with
      | None => (products db, stillLooping)
      | Some newBarcode =>
          match saveNew env (products db)
                  (duplicateDoc u param newBarcode originalProduct) with
          | inr db' =>
              (db', replyProduct 201 "Product duplicated successfully"
                      (Js.trim newBarcode))
          | inl _ => (products db, reply 500 "Failed to duplicate product")
          end
      end
  end.

(** *** POST /api/products/:barcode/add-stock and remove-stock *)

Definition withStock (p : Product) (stock : Z) (m : StockMovement) : Product :=
  {| barcode := barcode p; name := name p;
     currentStock := stock;
     note := note p; buyingPrice := buyingPrice p;
     sellingPrice := sellingPrice p; boughtFrom := boughtFrom p;
     sellLocation := sellLocation p; imageUrl := imageUrl p; unit := unit p;
     category := category p; categoryName := categoryName p;
     stockHistory := stockHistory p ++ [m];
     createdBy := createdBy p; createdByName := createdByName p |}.

Definition addMovement (u : User) (addQuantity : Z)
  (note' supplier' : option string) : StockMovement :=
  {| quantity := addQuantity; type := add;
     h_note := Js.orStr note' "";
     supplier := Js.trimOr supplier' "";
     location := "";
     addedBy := Some (user_id u); addedByName := fullName u |}.

Definition removeMovement (u : User) (removeQuantity : Z)
  (note' location' : option string) : StockMovement :=
  {| quantity := removeQuantity; type := remove;
     h_note := Js.orStr note' "";
     supplier := "";
     location := Js.trimOr location' "";
     addedBy := Some (user_id u); addedByName := fullName u |}.

Definition addStock (env : Env) (u : User) (db : list Product)
  (param : string) (q : option Z) (note' supplier' : option string)
  : list Product * Response :=
  if Js.notPositive q then (db, InvalidQuantity)
  else
    let addQuantity := Js.intOr0 q in
    match findOne db (Js.trim param) with
    | None => (db, NotFound)
    | Some (i, product) =>
        let product' :=
          withStock product (Js.add (currentStock product) addQuantity)
            (addMovement u addQuantity note' supplier') in
        match saveAt env db i product' with
        | inr db' =>
            (db', replyProduct 200
                    ("Added " +:+ pretty addQuantity +:+ " to stock")
                    (barcode product'))
        | inl _ => (db, reply 500 "Failed to add stock")
        end
    end.

Definition removeStock (env : Env) (u : User) (db : list Product)
  (param : string) (q : option Z) (note' location' : option string)
  : list Product * Response :=
  if Js.notPositive q then (db, InvalidQuantity)
  else
    let removeQuantity := Js.intOr0 q in
    match findOne db (Js.trim param) with
    | None => (db, NotFound)
    | Some (i, product) =>
        if currentStock product <? removeQuantity then (db, InsufficientStock)
        else
          let product' :=
            withStock product (Js.sub (currentStock product) removeQuantity)
              (removeMovement u removeQuantity note' location') in
          match saveAt env db i product' with
          | inr db' =>
              (db', replyProduct 200
                      ("Removed " +:+ pretty removeQuantity +:+ " from stock")
                      (barcode product'))
          | inl _ => (db, reply 500 "Failed to remove stock")
          end
    end.

(** *** POST /api/products/:barcode/transfer *)

(** [Company.findOne({ slug: s, isActive: true })] on the master database:
    the filter is cast by the schema of the slug ([trim], [lowercase]) and
    then compared with the stored slugs. *)
Definition findCompany (cs : list Company) (s : string) : option Company :=
  List.find (fun c => bool_decide (slug c = Js.toLowerCase (Js.trim s))
                      && isActive c) cs.

Definition transferDoc (u : User) (fromSlug : string) (targetBarcode : string)
  (sourceProduct : Product) : Product :=
  {| barcode := targetBarcode;
     name := name sourceProduct;
     currentStock := currentStock sourceProduct;
     note := note sourceProduct;
     buyingPrice := buyingPrice sourceProduct;
     sellingPrice := sellingPrice sourceProduct;
     boughtFrom := boughtFrom sourceProduct;
     sellLocation := sellLocation sourceProduct;
     imageUrl := imageUrl sourceProduct;
     unit := unit sourceProduct;
     category := None;   (* Categories are company-specific, don't transfer *)
     categoryName := "";
     stockHistory :=
       [ {| quantity := currentStock sourceProduct;
            type := add;
            h_note := "Transferred from " +:+ fromSlug;
            supplier := "";
            location := "";
            addedBy := Some (user_id u);
            addedByName := Js.orStr (Some (fullName u)) (username u) |} ];
     createdBy := None;
     createdByName := None |}.

Definition transferProduct (env : Env) (u : User) (w : World)
  (reqSlug : string) (param : string) (targetCompanySlug : option string)
  (keepOriginal : bool) : World * Response :=
  if falsy targetCompanySlug then
    (w, reply 400 "Target company slug is required")
  else
    let target := default "" targetCompanySlug in
    if bool_decide (target = reqSlug) then
      (w, reply 400 "Cannot transfer to the same company")
    else if negb (isSuperAdmin u) && negb (hasAccessTo u target) then
      (w, reply 403 "No access to target company")
    else match findCompany (companies w) target with
    | None => (w, reply 404 "Target company not found")
    | Some _ =>
    match findOne (products (tenant w reqSlug)) (Js.trim param) with
    | None => (w, NotFound)
    | Some (_, sourceProduct) =>
    match getCompanyConnection (registry w) target with
    | (reg1, None) => (setRegistry w reg1, TransferFailed)
    | (reg1, Some _) =>
        let w1 := setRegistry w (driverOpens env reg1 target) in
        let targetDb := products (tenant w1 target) in
        match generateUniqueBarcode targetDb (barcode sourceProduct) with
        | None => (w1, stillLooping)
        | Some targetBarcode =>
            match saveNew env targetDb
                    (transferDoc u reqSlug targetBarcode sourceProduct) with
            | inl _ => (w1, TransferFailed)
            | inr targetDb' =>
                let w2 := setProducts w1 target targetDb' in
                if negb keepOriginal then
                  match deleteOne env (products (tenant w2 reqSlug))
                          (Js.trim param) with
                  | inl _ => (w2, TransferFailed)
                  | inr sourceDb' =>
                      (setProducts w2 reqSlug sourceDb',
                       Moved (Js.trim targetBarcode))
                  end
                else (w2, Copied (Js.trim targetBarcode))
            end
        end
    end end end.

(** *** PUT /api/products/:barcode *)

Record UpdateBody := {
  u_name : option string;
  u_note : option string;
  u_buyingPrice : option (option Q);    (* defined?, then parseFloat *)
  u_sellingPrice : option (option Q);
  u_boughtFrom : option string;
  u_sellLocation : option string;
  u_imageUrl : option string;
  u_category : option (option string);  (* defined?, then null or an id *)
  u_newBarcode : option string;
  u_unit : option string
}.

(** The assignments [product.f = ...] of the handler, for the category
    document that was found, if one was looked for; each assigned string
    of a trimmed path passes the schema setter as well. *)
Definition updateDoc (categoryDoc : option Category) (param : string)
  (b : UpdateBody) (product : Product) : Product :=
  {| barcode :=
       match u_newBarcode b with
       | Some nb => if bool_decide (Js.trim nb = Js.trim param) then barcode product
                    else Js.trim (Js.trim nb)
       | None => barcode product
       end;
     name := match u_name b with
             | Some n => Js.trim (Js.trim n) | None => name product end;
     currentStock := currentStock product;
     note := match u_note b with
             | Some n => Js.trim n | None => note product end;
     buyingPrice := match u_buyingPrice b with
                    | Some x => Js.floatOr0 x | None => buyingPrice product end;
     sellingPrice := match u_sellingPrice b with
                     | Some x => Js.floatOr0 x | None => sellingPrice product end;
     boughtFrom := match u_boughtFrom b with
                   | Some s => Js.trim (Js.trim s) | None => boughtFrom product end;
     sellLocation := match u_sellLocation b with
                     | Some s => Js.trim (Js.trim s)
                     | None => sellLocation product end;
     imageUrl := match u_imageUrl b with
                 | Some s => s | None => imageUrl product end;
     unit := match u_unit b with
             | Some s => Js.trim (Js.trimOr (Some s) "ədəd")
             | None => unit product end;
     category :=
       match u_category b with
       | None => category product
       | Some None => None
       | Some (Some id) =>
           if bool_decide (id = "") then None
           else match categoryDoc with
                | Some c => Some (cat_id c)
                | None => category product
                end
       end;
     categoryName :=
       match u_category b with
       | None => categoryName product
       | Some None => ""
       | Some (Some id) =>
           if bool_decide (id = "") then ""
           else match categoryDoc with
                | Some c => cat_name c
                | None => categoryName product
                end
       end;
     stockHistory := stockHistory product;
     createdBy := createdBy product;
     createdByName := createdByName product |}.

Definition updateProduct (env : Env) (db : TenantDb) (param : string)
  (b : UpdateBody) : list Product * Response :=
  match findOne (products db) (Js.trim param) with
  | None => (products db, NotFound)
  | Some (i, product) =>
      let taken :=
        match u_newBarcode b with
        | Some nb =>
            negb (bool_decide (Js.trim nb = Js.trim param))
            && bool_decide (is_Some (findOne (products db) (Js.trim nb)))
        | None => false
        end in
      if taken then
        (products db, reply 400 "A product with this barcode already exists")
      else
        let found :=
          match u_category b with
          | Some (Some id) =>
              if bool_decide (id = "") then inr None
              else findById env (categories db) id
          | _ => inr None
          end in
        match found with
        | inl _ => (products db, reply 500 "Failed to update product")
        | inr categoryDoc =>
            match saveAt env (products db) i
                    (updateDoc categoryDoc param b product) with
            | inr db' =>
                (db', replyProduct 200 "Product updated successfully"
                        (barcode (updateDoc categoryDoc param b product)))
            | inl _ => (products db, reply 500 "Failed to update product")
            end
        end
  end.

(** *** DELETE /api/products/:barcode *)

Definition deleteProduct (env : Env) (db : list Product) (param : string)
  : list Product * Response :=
  match findOne db (Js.trim param) with
  | None => (db, NotFound)
  | Some (i, _) =>
      match findByIdAndDelete env db i with
      | inr db' => (db', reply 200 "Product deleted successfully")
      | inl _ => (db, reply 500 "Failed to delete product")
      end
  end.

(** ** Requests *)

Inductive Route :=
| PostProduct (b : CreateBody)
| PostDuplicate (param : string)
| PostTransfer (param : string) (targetCompanySlug : option string)
    (keepOriginal : bool)
| PostAddStock (param : string) (q : option Z) (note' supplier' : option string)
| PostRemoveStock (param : string) (q : option Z)
    (note' location' : option string)
| PutProduct (param : string) (b : UpdateBody)
| DeleteProduct (param : string).

(** A request that passed [authMiddleware]: the principal, the
    [x-company-slug] header, the route, and what the storage does while it
    is served. *)
Record Request := {
  req_user : User;
  req_header : option string;
  req_route : Route;
  req_env : Env
}.

(** [authMiddleware, companyMiddleware, handler].  The queries of the
    handler wait until the driver has opened the connection that the
    middleware handed on. *)
Definition handle (cfg : Config) (w : World) (r : Request) : World * Response :=
  let env := req_env r in
  let u := req_user r in
  match companyMiddleware cfg env (registry w) u (req_header r) with
  | (reg1, inl resp) => (setRegistry w reg1, resp)
  | (reg1, inr s) =>
      let w1 := setRegistry w (driverOpens env reg1 s) in
      let local (out : list Product * Response) :=
        (setProducts w1 s (fst out), snd out) in
      match req_route r with
      | PostProduct b => local (createProduct env u (tenant w1 s) b)
      | PostDuplicate param => local (duplicateProduct env u (tenant w1 s) param)
      | PostTransfer param target keepOriginal =>
          transferProduct env u w1 s param target keepOriginal
      | PostAddStock param q n' s' =>
          local (addStock env u (products (tenant w1 s)) param q n' s')
      | PostRemoveStock param q n' l' =>
          local (removeStock env u (products (tenant w1 s)) param q n' l')
      | PutProduct param b => local (updateProduct env (tenant w1 s) param b)
      | DeleteProduct param =>
          local (deleteProduct env (products (tenant w1 s)) param)
      end
  end.

(** The world after a sequence of requests served one after the other. *)
Definition run (cfg : Config) (w : World) (rs : list Request) : World :=
  foldl (fun w r => fst (handle cfg w r)) w rs.

(** The answers to these requests, in order. *)
Fixpoint responses (cfg : Config) (w : World) (rs : list Request)
  : list Response :=
  match rs with
  | [] => []
  | r :: rs' =>
      snd (handle cfg w r) :: responses cfg (fst (handle cfg w r)) rs'
  end.

Definition emptyWorld (cs : list Company) : World :=
  {| registry := emptyRegistry; companies := cs; dbs := ∅ |}.

(** ** The ledger's vocabulary *)

(** The signed quantity of a movement: adds count positive, removes
    negative. *)
Definition signed (m : StockMovement) : Z :=
  match type m with
  | add => quantity m
  | remove => - quantity m
  end.

Definition signedSum (h : list StockMovement) : Z :=
  foldr (fun m acc => signed m + acc) 0 h.

(** Invariant I1 for one product, and for every product of every company. *)
Definition ledgerOk (p : Product) : Prop :=
  currentStock p = signedSum (stockHistory p).

(** A property of collections that holds for every company's products. *)
Definition everywhere (Inv : list Product -> Prop) (w : World) : Prop :=
  forall s, Inv (products (tenant w s)).

Definition worldLedgerOk (w : World) : Prop :=
  everywhere (Forall ledgerOk) w.

(** The quantities of a history added up without their signs: a bound on
    every value the counter took while the history was written. *)
Definition grossSum (h : list StockMovement) : Z :=
  foldr (fun m acc => Z.abs (quantity m) + acc) 0 h.

(** Invariant I1 for the products whose movements add up to a number
    below which every integer is a double. *)
Definition ledgerExact (p : Product) : Prop :=
  grossSum (stockHistory p) <= Js.exactUpTo -> ledgerOk p.

(** ** Auxiliary notions used in the statements *)

(** A list of characters that does not start with white space. *)
Definition clean (l : list ascii) : Prop :=
  forall c, head l = Some c -> Js.isWhiteSpace c = false.

(** The candidates tried for a base barcode: [base], [base(1)], [base(2)], ... *)
Definition candidate (base : string) (k : nat) : string :=
  match k with
  | O => base
  | S _ => suffixed base k
  end.

(** A barcode is in use in a collection when [findOne] finds a product. *)
Definition inUse (db : list Product) (b : string) : Prop :=
  is_Some (findOne db b).

(** What the schema guarantees of a stored product: it passed validation,
    its trimmed paths are trimmed, and the pre-save hook gave it a unit. *)
Definition storedOk (p : Product) : Prop :=
  validate p = true /\ castProduct p = p /\ unit p <> "".

(** A collection under the unique index on barcode. *)
Definition dbOk (db : list Product) : Prop :=
  Forall storedOk db /\ NoDup (barcode <$> db).

Definition worldOk (w : World) : Prop := everywhere dbOk w.

(** ** Sample data for the worked examples *)

Definition sampleMovement (q : Z) : StockMovement :=
  {| quantity := q; type := add; h_note := "Initial stock"; supplier := "";
     location := ""; addedBy := Some 1%nat; addedByName := "Elchin" |}.

Definition sampleProduct (b : string) (stock : Z) : Product :=
  {| barcode := b; name := "Tea";
     currentStock := stock;
     note := ""; buyingPrice := 0%Q; sellingPrice := 0%Q;
     boughtFrom := ""; sellLocation := ""; imageUrl := ""; unit := "pcs";
     category := Some "aaaaaaaaaaaaaaaaaaaaaac1"; categoryName := "Drinks";
     stockHistory := if 0 <? stock then [sampleMovement stock] else [];
     createdBy := Some 1%nat; createdByName := Some "Elchin" |}.

Definition cfg0 : Config := {| DEFAULT_COMPANY_SLUG := "barcode" |}.

(** The cast of a string to an ObjectId: 24 hexadecimal digits, of which
    the stored [_id] shows the letters in lower case. *)
Definition isHexDigit (c : ascii) : bool :=
  let n := nat_of_ascii c in
  (Nat.leb 48 n && Nat.leb n 57) || (Nat.leb 65 n && Nat.leb n 70)
  || (Nat.leb 97 n && Nat.leb n 102).

Definition objectId (s : string) : option string :=
  if Nat.eqb (String.length s) 24
     && forallb isHexDigit (list_ascii_of_string s)
  then Some (Js.toLowerCase s) else None.

(** A storage that answers every call. *)
Definition envOk : Env :=
  {| connectOk := fun _ => true; saveOk := true; deleteOk := true;
     castId := objectId |}.

(** A principal granted two companies, and a legacy principal whose grant
    list is empty. *)
Definition elchin : User :=
  {| user_id := 1; username := "elchin"; fullName := "Elchin";
     isSuperAdmin := false;
     companyAccess := Some [ {| companySlug := "acme"; ca_role := "admin" |};
                             {| companySlug := "globex"; ca_role := "user" |} ] |}.

Definition legacyUser : User :=
  {| user_id := 2; username := "old"; fullName := "Old Account";
     isSuperAdmin := false; companyAccess := Some [] |}.

Definition directory : list Company :=
  [ {| slug := "acme"; isActive := true |};
    {| slug := "globex"; isActive := true |};
    {| slug := "barcode"; isActive := true |} ].

Definition createBody (b : string) (q : option Z) : CreateBody :=
  {| c_barcode := Some b; c_name := Some "Tea"; c_quantity := q;
     c_note := None; c_buyingPrice := None; c_sellingPrice := None;
     c_boughtFrom := None; c_sellLocation := None; c_category := None;
     c_unit := None |}.

Definition request (u : User) (s : string) (env : Env) (rt : Route) : Request :=
  {| req_user := u; req_header := Some s; req_route := rt; req_env := env |}.

(** Create B123 with 10 pieces in acme, add 5, remove 3. *)
Definition ledgerDay : list Request :=
  [ request elchin "acme" envOk (PostProduct (createBody "B123" (Some 10)));
    request elchin "acme" envOk (PostAddStock "B123" (Some 5) None None);
    request elchin "acme" envOk (PostRemoveStock "B123" (Some 3) None None) ].

(** Create B123 with 2^53 pieces in acme, then add one piece. *)
Definition driftDay : list Request :=
  [ request elchin "acme" envOk
      (PostProduct (createBody "B123" (Some 9007199254740992)));
    request elchin "acme" envOk (PostAddStock "B123" (Some 1) None None) ].


(** A storage whose deletes throw, and one whose saves throw. *)
Definition envDeleteFails : Env :=
  {| connectOk := fun _ => true; saveOk := true; deleteOk := false;
     castId := objectId |}.

Definition envSaveFails : Env :=
  {| connectOk := fun _ => true; saveOk := false; deleteOk := true;
     castId := objectId |}.

(** acme holds B123 with 10 pieces; globex is empty. *)
Definition acmeWithB123 : World :=
  run cfg0 (emptyWorld directory)
    [ request elchin "acme" envOk (PostProduct (createBody "B123" (Some 10))) ].

(** acme holds B0 with no stock. *)
Definition acmeWithEmptyB0 : World :=
  run cfg0 (emptyWorld directory)
    [ request elchin "acme" envOk (PostProduct (createBody "B0" (Some 0))) ].

(** The product written into the target company by a transfer. *)
Definition transferred (u : User) (from tb : string) (src : Product) : Product :=
  preSave (castProduct (transferDoc u from tb src)).

(** A create request that names a category. *)
Definition categoryBody (b : string) (categoryId : string) : CreateBody :=
  {| c_barcode := Some b; c_name := Some "Tea"; c_quantity := Some 1;
     c_note := None; c_buyingPrice := None; c_sellingPrice := None;
     c_boughtFrom := None; c_sellLocation := None;
     c_category := Some categoryId; c_unit := None |}.

(** A create request for a barcode, without a name. *)
Definition namelessBody (b : string) : CreateBody :=
  {| c_barcode := Some b; c_name := None; c_quantity := Some 1;
     c_note := None; c_buyingPrice := None; c_sellingPrice := None;
     c_boughtFrom := None; c_sellLocation := None; c_category := None;
     c_unit := None |}.

(** An update request that only renames the barcode. *)
Definition renameBody (nb : string) : UpdateBody :=
  {| u_name := None; u_note := None; u_buyingPrice := None;
     u_sellingPrice := None; u_boughtFrom := None; u_sellLocation := None;
     u_imageUrl := None; u_category := None; u_newBarcode := Some nb;
     u_unit := None |}.

Definition twoProducts : TenantDb :=
  {| products := [sampleProduct "A" 1; sampleProduct "B" 2];
     categories := [] |}.

(** ** Shutdown and health (db-manager.js) *)





(** The names indexed by [readyState] in getConnectionStatus. *)
Definition stateNames : list string :=
  ["disconnected"; "connected"; "connecting"; "disconnecting"].

(** getConnectionStatus: for every cached company its [readyState] and
    the name of that state ([None] for [undefined]). *)
Definition getConnectionStatus (reg : Registry)
  : gmap string (nat * option string) :=
  (fun connection =>
     (readyState connection, stateNames !! readyState connection))
    <$> connectionCache reg.

(** A storage that the driver does not reach. *)
Definition envDown : Env :=
  {| connectOk := fun _ => false; saveOk := true; deleteOk := true;
     castId := objectId |}.

(** A cache that holds a connection to acme that has dropped. *)
Definition staleRegistry : Registry :=
  {| connectionCache :=
       {[ "acme" := {| conn_id := 0; conn_db := "acme"; readyState := 0 |} ]};
     created := 1 |}.

(** ** Category routes and statistics (server.js) *)

(** What the storage does at the writes of one category request. *)
Record CategoryEnv := {
  updateManyOk : bool;       (* Product.updateMany resolves *)
  categorySaveOk : bool;     (* the write of category.save() reaches the store *)
  categoryDeleteOk : bool    (* Category.findByIdAndDelete resolves *)
}.

(** [req.Category.findById(id)] for an [id] that is an ObjectId, with the
    position of the document. *)
Definition findCategoryAt (cats : list Category) (id : string)
  : option (nat * Category) :=
  list_find (fun c => cat_id c = id) cats.

Definition setCategory (p : Product) (c : option string) (n : string) : Product :=
  {| barcode := barcode p; name := name p; currentStock := currentStock p;
     note := note p; buyingPrice := buyingPrice p;
     sellingPrice := sellingPrice p; boughtFrom := boughtFrom p;
     sellLocation := sellLocation p; imageUrl := imageUrl p; unit := unit p;
     category := c; categoryName := n;
     stockHistory := stockHistory p; createdBy := createdBy p;
     createdByName := createdByName p |}.

(** [Product.updateMany({ category: id }, { categoryName: n })] *)
Definition renameInProducts (id n : string) (ps : list Product) : list Product :=
  (fun p => if bool_decide (category p = Some id)
            then setCategory p (category p) n else p) <$> ps.

(** [Product.updateMany({ category: id }, { category: null, categoryName: '' })] *)
Definition clearInProducts (id : string) (ps : list Product) : list Product :=
  (fun p => if bool_decide (category p = Some id)
            then setCategory p None "" else p) <$> ps.

(** PUT /api/categories/:id, for the name (the description and the colour
    of a category are not part of [Category]).  The products are renamed
    before the category is saved; the save refuses a blank name. *)
Definition updateCategory (cenv : CategoryEnv) (db : TenantDb) (id : string)
  (name' : option string) : TenantDb * Response :=
  match findCategoryAt (categories db) id with
  | None => (db, reply 404 "Category not found")
  | Some (i, _) =>
      match name' with
      | Some n =>
          if existsb (fun c => bool_decide (cat_name c = Js.trim (Js.trim n))
                               && negb (bool_decide (cat_id c = id)))
               (categories db)
          then (db, reply 400 "Category name already exists")
          else if negb (updateManyOk cenv)
          then (db, reply 500 "Failed to update category")
          else
            let ps := renameInProducts id (Js.trim n) (products db) in
            if negb (categorySaveOk cenv)
               || bool_decide (Js.trim (Js.trim n) = "")
            then ({| products := ps; categories := categories db |},
                  reply 500 "Failed to update category")
            else ({| products := ps;
                     categories :=
                       <[i := {| cat_id := id;
                                 cat_name := Js.trim (Js.trim n) |}]>
                         (categories db) |},
                  reply 200 "Category updated successfully")
      | None =>
          if negb (categorySaveOk cenv)
          then (db, reply 500 "Failed to update category")
          else (db, reply 200 "Category updated successfully")
      end
  end.

(** DELETE /api/categories/:id *)
Definition deleteCategory (cenv : CategoryEnv) (db : TenantDb) (id : string)
  : TenantDb * Response :=
  match findCategoryAt (categories db) id with
  | None => (db, reply 404 "Category not found")
  | Some (i, _) =>
      if negb (updateManyOk cenv)
      then (db, reply 500 "Failed to delete category")
      else
        let ps := clearInProducts id (products db) in
        if negb (categoryDeleteOk cenv)
        then ({| products := ps; categories := categories db |},
              reply 500 "Failed to delete category")
        else ({| products := ps; categories := delete i (categories db) |},
              reply 200 "Category deleted successfully")
  end.

(** GET /api/stats/dashboard: the number of products and the total of
    [product.currentStock || 0] (the two totals of buy and sell value,
    which are rounded floating-point sums, are not modelled). *)
Definition dashboardTotals (ps : list Product) : nat * Z :=
  (length ps,
   foldl (fun totalStock p => Js.add totalStock (currentStock p)) 0 ps).

(** The counters of a collection added up as integers. *)
Definition stockSum (ps : list Product) : Z :=
  foldr (fun p acc => currentStock p + acc) 0 ps.

(** The storage answering every category write. *)
Definition cenvOk : CategoryEnv :=
  {| updateManyOk := true; categorySaveOk := true; categoryDeleteOk := true |}.

(** Tea (category c1) and coffee (category c2), with both categories. *)
Definition drinksDb : TenantDb :=
  {| products :=
       [ sampleProduct "T1" 4;
         setCategory (sampleProduct "C1" 2) (Some "aaaaaaaaaaaaaaaaaaaaaac2") "Coffee" ];
     categories := [ {| cat_id := "aaaaaaaaaaaaaaaaaaaaaac1"; cat_name := "Drinks" |};
                     {| cat_id := "aaaaaaaaaaaaaaaaaaaaaac2"; cat_name := "Coffee" |} ] |}.

(** ** Categories and the products that refer to them *)

(** The category of a product, when it has one, is a category of the same
    company. *)
Definition refOk (cats : list Category) (p : Product) : Prop :=
  forall id, category p = Some id -> id ∈ cat_id <$> cats.

Definition refsOk (cats : list Category) (ps : list Product) : Prop :=
  Forall (refOk cats) ps.

(** A property of a company's categories and products that holds for every
    company. *)
Definition tenantwise (Inv : list Category -> list Product -> Prop)
  (w : World) : Prop :=
  forall s, Inv (categories (tenant w s)) (products (tenant w s)).

(** [req.Product.countDocuments({ category: c })]; [None] is the filter
    [{ category: null }].  This is also the count that
    GET /api/categories/:id/products-count returns for [Some id]. *)
Definition countDocuments (c : option string) (ps : list Product) : nat :=
  length (filter (fun p => category p = c) ps).

(** GET /api/stats/category-distribution: the name and the count of every
    category with at least one product, in the order of the categories, then
    the products without a category (the colours are not modelled). *)
Definition categoryDistribution (db : TenantDb) : list (string * nat) :=
  let distribution :=
    foldl (fun distribution c =>
             let count := countDocuments (Some (cat_id c)) (products db) in
             if (0 <? count)%nat then distribution ++ [(cat_name c, count)]
             else distribution)
          [] (categories db) in
  let uncategorizedCount := countDocuments None (products db) in
  if (0 <? uncategorizedCount)%nat
  then distribution ++ [("Uncategorized", uncategorizedCount)]
  else distribution.

(** acme holds the drinks, the other companies are empty. *)
Definition drinksWorld : World :=
  {| registry := emptyRegistry; companies := directory;
     dbs := {[ "acme" := drinksDb ]} |}.

(** Create a coffee in category c2, then add stock to the tea. *)
Definition drinksDay : list Request :=
  [ request elchin "acme" envOk
      (PostProduct
         {| c_barcode := Some "C2"; c_name := Some "Mocha";
            c_quantity := Some 3; c_note := None; c_buyingPrice := None;
            c_sellingPrice := None; c_boughtFrom := None;
            c_sellLocation := None; c_category := Some "aaaaaaaaaaaaaaaaaaaaaac2";
            c_unit := None |});
    request elchin "acme" envOk (PostAddStock "T1" (Some 5) None None) ].

(** ** Creating and copying categories (server.js) *)

(** POST /api/categories, for the name.  [newId] is the _id the driver
    gives the new document.  The save validates [required] on the name
    after the trim of the schema. *)
Definition createCategory (cenv : CategoryEnv) (db : TenantDb)
  (newId : string) (name' : option string) : TenantDb * Response :=
  if falsy name' || bool_decide (Js.trim (default "" name') = "") then
    (db, reply 400 "Category name is required")
  else
    let n := Js.trim (default "" name') in
    if existsb (fun c => bool_decide (cat_name c = Js.trim n)) (categories db)
    then (db, reply 400 "Category already exists")
    else if bool_decide (Js.trim n = "") || negb (categorySaveOk cenv)
    then (db, reply 500 "Failed to create category")
    else ({| products := products db;
             categories := categories db
                           ++ [ {| cat_id := newId; cat_name := Js.trim n |} ] |},
          reply 201 "Category created successfully").

(** What happens at the [k]-th [TargetCategory.create] of one copy request:
    whether the write reaches the store, and the _id of the new document. *)
Record CopyEnv := {
  createOk : nat -> bool;
  newId : nat -> string
}.

(** The loop [for (const sourceCat of sourceCategories)] of
    copy-to-company over the categories of the target.  [None] is a
    [create] that threw, which ends the request; what was created before
    stays. *)
Fixpoint copyLoop (cenv : CopyEnv) (sourceCategories target : list Category)
  (copiedCount skippedCount : nat) : list Category * option (nat * nat) :=
  match sourceCategories with
  | [] => (target, Some (copiedCount, skippedCount))
  | sourceCat :: rest =>
      if existsb (fun c => bool_decide
                             (cat_name c = Js.trim (cat_name sourceCat)))
           target
      then copyLoop cenv rest target copiedCount (S skippedCount)
      else if bool_decide (Js.trim (cat_name sourceCat) = "")
              || negb (createOk cenv copiedCount)
      then (target, None)
      else copyLoop cenv rest
             (target ++ [ {| cat_id := newId cenv copiedCount;
                             cat_name := Js.trim (cat_name sourceCat) |} ])
             (S copiedCount) skippedCount
  end.

Definition setCategories (w : World) (s : string) (cats : list Category)
  : World :=
  {| registry := registry w; companies := companies w;
     dbs := <[s := {| products := products (tenant w s); categories := cats |}]>
              (dbs w) |}.

(** POST /api/categories/copy-to-company.  The route runs after
    [authMiddleware] only: the two slugs come from the body and are not
    checked against the grants of the principal. *)
Definition copyCategories (env : Env) (cenv : CopyEnv) (w : World)
  (sourceCompanySlug targetCompanySlug : option string) : World * Response :=
  if falsy sourceCompanySlug || falsy targetCompanySlug then
    (w, reply 400 "Source and target company slugs are required")
  else
    let source := default "" sourceCompanySlug in
    let target := default "" targetCompanySlug in
    if bool_decide (source = target) then
      (w, reply 400 "Source and target companies must be different")
    else
    match getCompanyConnection (registry w) source with
    | (reg1, None) => (setRegistry w reg1, reply 500 "Failed to copy categories")
    | (reg1, Some _) =>
    match getCompanyConnection reg1 target with
    | (reg2, None) => (setRegistry w reg2, reply 500 "Failed to copy categories")
    | (reg2, Some _) =>
        let w1 := setRegistry w (driverOpens env reg2 source) in
        let sourceCategories := categories (tenant w1 source) in
        if Nat.eqb (length sourceCategories) 0 then
          (w1, reply 404 "No categories found in source company")
        else
          let w2 := setRegistry w1 (driverOpens env (registry w1) target) in
          match copyLoop cenv sourceCategories (categories (tenant w2 target))
                  0 0 with
          | (target', Some (copiedCount, skippedCount)) =>
              (setCategories w2 target target',
               reply 200 ("Copied " +:+ pretty copiedCount
                          +:+ " categories, skipped " +:+ pretty skippedCount
                          +:+ " (already exists)"))
          | (target', None) =>
              (setCategories w2 target target',
               reply 500 "Failed to copy categories")
          end
    end end.

(** What the category schema guarantees of a stored category, and of a
    collection of categories: names trimmed, not blank and distinct, ids
    distinct. *)
Definition categoryOk (c : Category) : Prop :=
  Js.trim (cat_name c) = cat_name c /\ cat_name c <> "".

Definition catsOk (cats : list Category) : Prop :=
  Forall categoryOk cats
  /\ NoDup (cat_name <$> cats) /\ NoDup (cat_id <$> cats).

(** New ids are distinct from each other and from the ids in use. *)
Definition freshIds (cenv : CopyEnv) (cats : list Category) : Prop :=
  (forall j k, newId cenv j = newId cenv k -> j = k)
  /\ forall k, newId cenv k ∉ cat_id <$> cats.

(** A driver that numbers the new documents, over a storage that answers. *)
Definition copyEnvOk : CopyEnv :=
  {| createOk := fun _ => true; newId := fun k => "n" +:+ pretty k |}.

(** globex already has a category named Coffee. *)
Definition coffeeWorld : World :=
  {| registry := emptyRegistry; companies := directory;
     dbs := {[ "acme" := drinksDb;
               "globex" := {| products := [];
                              categories := [ {| cat_id := "aaaaaaaaaaaaaaaaaaaaaab1";
                                                 cat_name := "Coffee" |} ] |} ]} |}.

(** ** Connection strings (server.js getMasterDbUri, db-manager.js getBaseUri) *)

(** [s.startsWith(p)], [s.includes(p)] and [s.replace(p, r)] for a string
    pattern [p] and a replacement [r] without [$]: the first occurrence of
    [p] is replaced. *)
Fixpoint startsWith (p s : list ascii) : bool :=
  match p, s with
  | [], _ => true
  | a :: p', b :: s' => Ascii.eqb a b && startsWith p' s'
  | _ :: _, [] => false
  end.

Fixpoint includes (p s : list ascii) : bool :=
  startsWith p s
  || match s with
     | [] => false
     | _ :: s' => includes p s'
     end.

Fixpoint replaceFirst (p r s : list ascii) : list ascii :=
  if startsWith p s then r ++ drop (length p) s
  else match s with
       | [] => []
       | c :: s' => c :: replaceFirst p r s'
       end.

(** [s.replace(/\/$/, '')]: one slash at the end is removed. *)
Definition dropTrailingSlash (s : list ascii) : list ascii :=
  match rev s with
  | "/"%char :: r => rev r
  | _ => s
  end.

(** [config.MASTER_DB_NAME || 'shalset-master']: config.js exports no
    MASTER_DB_NAME. *)
Definition masterDb : string := "shalset-master".

(** getMasterDbUri of server.js, for the configured MONGODB_URI. *)
Definition getMasterDbUri (MONGODB_URI : string) : string :=
  let uri := list_ascii_of_string MONGODB_URI in
  string_of_list_ascii
    (if includes ["?"%char] uri then
       replaceFirst ["/"%char; "?"%char]
         ("/"%char :: list_ascii_of_string masterDb ++ ["?"%char]) uri
     else dropTrailingSlash uri ++ "/"%char :: list_ascii_of_string masterDb).

(** Regular expressions as getBaseUri uses them: literal text, a
    character class, sequence, the greedy quantifiers [?] and [*], and
    capture groups. *)
Inductive RegExp :=
| Lit (l : string)
| Cls (P : ascii -> bool)
| Cat (r1 r2 : RegExp)
| Opt (r : RegExp)
| Star (r : RegExp)
| Grp (i : nat) (r : RegExp).

(** [c], [[^c]] and [.]; the line terminators are those of one byte. *)
Definition chr (c : ascii) : RegExp := Cls (Ascii.eqb c).
Definition notChr (c : ascii) : RegExp := Cls (fun x => negb (Ascii.eqb x c)).
Definition isLineTerminator (c : ascii) : bool :=
  Ascii.eqb c "010" || Ascii.eqb c "013".
Definition dot : RegExp := Cls (fun x => negb (isLineTerminator x)).

Definition Captures := nat -> option (list ascii).

Definition capture (i : nat) (l : list ascii) (caps : Captures) : Captures :=
  fun j => if Nat.eqb j i then Some l else caps j.

(** The loop of a greedy [*] over the matcher [body] of what it repeats:
    another iteration is tried first, and is accepted only when it consumed
    something; then the continuation.  An iteration consumes at least one
    character, so the length of the input bounds their number [n]. *)
Fixpoint starLoop
  (body : list ascii -> Captures ->
          (list ascii -> Captures -> option Captures) -> option Captures)
  (k : list ascii -> Captures -> option Captures)
  (n : nat) (s : list ascii) (caps : Captures) : option Captures :=
  match n with
  | O => k s caps
  | S n' =>
      match body s caps
              (fun s' caps' =>
                 if (length s' <? length s)%nat
                 then starLoop body k n' s' caps'
                 else None) with
      | Some m => Some m
      | None => k s caps
      end
  end.

(** The backtracking matcher of ECMAScript: [matchRe r s caps k] matches
    [r] at the head of [s] and hands the rest and the captures to the
    continuation [k]; when [k] fails the next alternative is tried.  A
    quantifier tries its body first (greedy) and does not accept an
    iteration that consumed nothing. *)
Fixpoint matchRe (r : RegExp) (s : list ascii) (caps : Captures)
  (k : list ascii -> Captures -> option Captures) : option Captures :=
  match r with
  | Lit l =>
      if startsWith (list_ascii_of_string l) s
      then k (drop (String.length l) s) caps
      else None
  | Cls P =>
      match s with
      | c :: s' => if P c then k s' caps else None
      | [] => None
      end
  | Cat r1 r2 =>
      matchRe r1 s caps (fun s' caps' => matchRe r2 s' caps' k)
  | Opt r1 =>
      match matchRe r1 s caps
              (fun s' caps' =>
                 if (length s' <? length s)%nat then k s' caps' else None) with
      | Some m => Some m
      | None => k s caps
      end
  | Star r1 => starLoop (matchRe r1) k (length s) s caps
  | Grp i r1 =>
      matchRe r1 s caps
        (fun s' caps' =>
           k s' (capture i (take (length s - length s') s) caps'))
  end.

(** The end of the input, for [$]. *)
Definition atEnd (s : list ascii) (caps : Captures) : option Captures :=
  match s with
  | [] => Some caps
  | _ :: _ => None
  end.

(** [s.match(r)] for a pattern anchored by [^] and [$]. *)
Definition matchAnchored (r : RegExp) (s : list ascii) : option Captures :=
  matchRe r s (fun _ => None) atEnd.

(** The pattern of getBaseUri, anchored by [^] and [$]:
    group 1 is [mongodb(?:\+srv)?:\/\/[^\/]+], then comes [\/?], then the
    optional group 2 around [[^?]*], then the optional group 3 around
    [\?.*]. *)
Definition uriBase : RegExp :=
  Cat (Lit "mongodb")
 (Cat (Opt (Lit "+srv"))
 (Cat (Lit "://")
 (Cat (notChr "/") (Star (notChr "/"))))).

Definition uriOptions : RegExp := Opt (Grp 3 (Cat (chr "?") (Star dot))).

Definition uriPattern : RegExp :=
  Cat (Grp 1 uriBase)
 (Cat (Opt (chr "/"))
 (Cat (Opt (Grp 2 (Star (notChr "?"))))
      uriOptions)).

(** getBaseUri of db-manager.js, for the configured MONGODB_URI: the pair
    of [base] and [options]. *)
Definition getBaseUri (MONGODB_URI : string) : string * string :=
  match matchAnchored uriPattern (list_ascii_of_string MONGODB_URI) with
  | Some m =>
      (string_of_list_ascii (default [] (m 1%nat)),
       Js.orStr (string_of_list_ascii <$> m 3%nat) "")
  | None => (MONGODB_URI, "")
  end.

(** The template [`${base}/${companySlug}${options}`] of
    getCompanyConnection. *)
Definition dbUri (MONGODB_URI companySlug : string) : string :=
  fst (getBaseUri MONGODB_URI) +:+ "/" +:+ companySlug
  +:+ snd (getBaseUri MONGODB_URI).

(** A connection string: scheme, host part, and optionally a path after a
    slash and a query after a question mark. *)
Definition mongoUri (srv : bool) (host : string) (path query : option string)
  : string :=
  "mongodb" +:+ (if srv then "+srv" else "") +:+ "://" +:+ host
  +:+ match path with Some p => "/" +:+ p | None => "" end
  +:+ match query with Some q => "?" +:+ q | None => "" end.

Definition without (c : ascii) (s : string) : Prop :=
  c ∉ list_ascii_of_string s.

Definition oneLine (s : string) : Prop :=
  Forall (fun c => isLineTerminator c = false) (list_ascii_of_string s).

(** ** Deactivating a company (server.js) *)

(** DELETE /api/companies/:id behind superAdminMiddleware.  The position
    of a company in the master directory stands for its [_id]; the
    company is not deleted, it is saved with [isActive = false]. *)
Definition deleteCompany (env : Env) (u : User) (w : World) (id : nat)
  : World * Response :=
  if negb (isSuperAdmin u) then (w, reply 403 "Super admin access required")
  else
    match companies w !! id with
    | None => (w, reply 404 "Company not found")
    | Some company =>
        if negb (saveOk env) then (w, reply 500 "Failed to delete company")
        else
          ({| registry := registry w;
              companies :=
                <[id := {| slug := slug company; isActive := false |}]>
                  (companies w);
              dbs := dbs w |},
           reply 200 "Company deactivated successfully")
    end.

(** A super admin. *)
Definition root : User :=
  {| user_id := 0; username := "root"; fullName := "Root";
     isSuperAdmin := true; companyAccess := None |}.

(** * Properties *)

(** ** Trimming *)

Section TrimFacts.
Import Js.

Lemma dropWs_clean l : clean (dropWs l).
Proof.
  induction l as [|c l IH]; simpl.
  - intros c Hc. discriminate.
  - destruct (isWhiteSpace c) eqn:E; [exact IH|].
    intros c' Hc'. simpl in Hc'. congruence.
Qed.

Lemma dropWs_id l : clean l -> dropWs l = l.
Proof.
  destruct l as [|c l]; [reflexivity|].
  intros H. simpl. rewrite (H c); reflexivity.
Qed.

Lemma dropWs_split l : exists ws, l = ws ++ dropWs l.
Proof.
  induction l as [|c l [ws IH]]; simpl.
  - exists []. reflexivity.
  - destruct (isWhiteSpace c).
    + exists (c :: ws). simpl. congruence.
    + exists []. reflexivity.
Qed.

Lemma trimChars_clean l : clean (trimChars l) /\ clean (rev (trimChars l)).
Proof.
  unfold trimChars. rewrite rev_involutive.
  split; [|apply dropWs_clean].
  destruct (dropWs_split (rev (dropWs l))) as [ws Hws].
  set (b := dropWs (rev (dropWs l))) in *.
  assert (Ha : dropWs l = rev b ++ rev ws).
  { rewrite <- (rev_involutive (dropWs l)), Hws, rev_app_distr. reflexivity. }
  intros c Hc.
  apply (dropWs_clean l). rewrite Ha, head_app, Hc. reflexivity.
Qed.

Lemma trimChars_idem l : trimChars (trimChars l) = trimChars l.
Proof.
  destruct (trimChars_clean l) as [H1 H2].
  unfold trimChars at 1.
  rewrite (dropWs_id _ H1), (dropWs_id _ H2). apply rev_involutive.
Qed.

Lemma trim_idem s : trim (trim s) = trim s.
Proof.
  unfold trim. rewrite list_ascii_of_string_of_list_ascii, trimChars_idem.
  reflexivity.
Qed.

Lemma chars_app s1 s2 :
  list_ascii_of_string (s1 +:+ s2)
  = list_ascii_of_string s1 ++ list_ascii_of_string s2.
Proof.
  induction s1 as [|a s1 IH]; [reflexivity|].
  change (String a s1 +:+ s2) with (String a (s1 +:+ s2)).
  simpl. rewrite IH. reflexivity.
Qed.

Lemma dropWs_app_paren cb rest :
  dropWs (cb ++ "("%char :: rest) = dropWs cb ++ "("%char :: rest.
Proof.
  induction cb as [|c cb IH]; [reflexivity|].
  simpl. destruct (isWhiteSpace c); [exact IH|reflexivity].
Qed.

Lemma trimChars_suffix cb d :
  trimChars (cb ++ "("%char :: d ++ [")"%char])
  = dropWs cb ++ "("%char :: d ++ [")"%char].
Proof.
  unfold trimChars. rewrite dropWs_app_paren.
  assert (E : dropWs cb ++ "("%char :: d ++ [")"%char]
              = (dropWs cb ++ "("%char :: d) ++ [")"%char])
    by (rewrite <- app_assoc; reflexivity).
  rewrite E, rev_app_distr.
  change (dropWs (rev [")"%char] ++ rev (dropWs cb ++ "("%char :: d)))
    with (")"%char :: rev (dropWs cb ++ "("%char :: d)).
  simpl. rewrite rev_involutive. reflexivity.
Qed.

Lemma chars_suffixed base k :
  list_ascii_of_string (trim (suffixed base k))
  = dropWs (list_ascii_of_string base)
    ++ "("%char :: list_ascii_of_string (pretty k) ++ [")"%char].
Proof.
  unfold trim, suffixed.
  rewrite list_ascii_of_string_of_list_ascii, !chars_app.
  apply trimChars_suffix.
Qed.

Lemma trim_suffixed_inj base j k :
  trim (suffixed base j) = trim (suffixed base k) -> j = k.
Proof.
  intros H. apply (f_equal list_ascii_of_string) in H.
  rewrite !chars_suffixed in H.
  apply app_inv_head in H. injection H as H.
  apply app_inv_tail in H.
  apply (f_equal string_of_list_ascii) in H.
  rewrite !string_of_list_ascii_of_string in H.
  exact (pretty_nat_inj _ _ H).
Qed.

Lemma trim_suffixed_nonempty base k : trim (suffixed base k) <> "".
Proof.
  intros H. apply (f_equal list_ascii_of_string) in H.
  rewrite chars_suffixed in H. simpl in H.
  destruct (dropWs (list_ascii_of_string base)); discriminate.
Qed.

End TrimFacts.

(** ** Barcode allocation *)

Section Allocation.
Variable db : list Product.
Variable base : string.

Lemma findOne_barcode b i p :
  findOne db b = Some (i, p) -> db !! i = Some p /\ barcode p = Js.trim b.
Proof.
  unfold findOne. intros H. apply list_find_Some in H. tauto.
Qed.

Lemma findOne_None b :
  findOne db b = None <-> Js.trim b ∉ barcode <$> db.
Proof.
  unfold findOne. rewrite list_find_None, Forall_forall, list_elem_of_fmap.
  split.
  - intros H (p & Hb & Hp). exact (H p Hp (eq_sym Hb)).
  - intros H p Hp Hb. apply H. exists p. split; [congruence|assumption].
Qed.

(** The loop returns the first free suffixed candidate at or after its
    counter, provided one lies within the fuel. *)
Lemma suffixLoop_first fuel : forall c,
  (exists j, (c <= j < c + fuel)%nat /\ findOne db (suffixed base j) = None) ->
  exists k, (c <= k)%nat
    /\ suffixLoop fuel db base c = Some (suffixed base k)
    /\ findOne db (suffixed base k) = None
    /\ forall j, (c <= j < k)%nat -> inUse db (suffixed base j).
Proof.
  induction fuel as [|fuel IH]; intros c (j & Hj & Hfree); [lia|].
  simpl. destruct (findOne db (suffixed base c)) as [[i p]|] eqn:E.
  - destruct (IH (S c)) as (k & Hk & Hrun & Hnone & Hused).
    + exists j. split; [|assumption].
      assert (j <> c) by (intros ->; congruence). lia.
    + exists k. repeat split; [lia|assumption|assumption|].
      intros j' Hj'. destruct (decide (j' = c)) as [->|Hne].
      * unfold inUse. rewrite E. eauto.
      * apply Hused. lia.
  - exists c. repeat split; [lia|assumption|]. intros j' Hj'. lia.
Qed.

(** A collection of [n] products cannot hold [n + 1] distinct suffixed
    barcodes: one of the first [n + 1] candidates is free. *)
Lemma suffixed_free_exists :
  exists j, (1 <= j < 1 + S (length db))%nat
    /\ findOne db (suffixed base j) = None.
Proof.
  set (n := length db).
  destruct (decide (Exists (fun j => findOne db (suffixed base j) = None)
                           (seq 1 (S n)))) as [Hex|Hno].
  - apply Exists_exists in Hex as (j & Hin & Hfree).
    apply elem_of_seq in Hin. exists j. split; [lia|assumption].
  - exfalso. apply not_Exists_Forall in Hno; [|intros; apply _].
    rewrite Forall_forall in Hno.
    set (cands := (fun j => Js.trim (suffixed base j)) <$> seq 1 (S n)).
    assert (Hnd : NoDup cands).
    { apply NoDup_fmap_2_strong; [|apply NoDup_seq].
      intros j k _ _ H. exact (trim_suffixed_inj _ _ _ H). }
    assert (Hsub : forall b, b ∈ cands -> b ∈ barcode <$> db).
    { intros b Hb. apply list_elem_of_fmap in Hb as (j & -> & Hj).
      specialize (Hno j Hj). simpl in Hno.
      destruct (decide (Js.trim (suffixed base j) ∈ barcode <$> db)) as [|Hn];
        [assumption|].
      exfalso. apply Hno. apply findOne_None. exact Hn. }
    pose proof (submseteq_length _ _ (NoDup_submseteq _ _ Hnd Hsub)) as Hlen.
    unfold cands in Hlen. rewrite !length_fmap, length_seq in Hlen.
    fold n in Hlen. lia.
Qed.

(** The probing loop always terminates within [length db + 1] probes. *)
Lemma suffixLoop_total :
  exists k, (1 <= k)%nat
    /\ suffixLoop (S (length db)) db base 1 = Some (suffixed base k)
    /\ findOne db (suffixed base k) = None
    /\ forall j, (1 <= j < k)%nat -> inUse db (suffixed base j).
Proof. apply suffixLoop_first, suffixed_free_exists. Qed.

End Allocation.

Lemma not_inUse db b : ~ inUse db b <-> findOne db b = None.
Proof.
  unfold inUse. destruct (findOne db b); split; intros H;
    try reflexivity; try discriminate.
  - exfalso. apply H. eauto.
  - intros [x Hx]. discriminate.
Qed.

(** C7. [generateUniqueBarcode base] returns the first candidate of the
    sequence base, base(1), base(2), ... that is not in use in the
    collection; it only reads the collection.  In particular an unused
    base is returned as it is, and base(2) is returned when base and
    base(1) are in use and base(2) is not.  The loop of the duplicate
    handler, which starts at base(1), computes the same barcode whenever
    the base is in use. *)
Theorem generateUniqueBarcode_first_free (db : list Product) (base : string) :
  (exists k, generateUniqueBarcode db base = Some (candidate base k)
     /\ ~ inUse db (candidate base k)
     /\ forall j, (j < k)%nat -> inUse db (candidate base j))
  /\ (~ inUse db base -> generateUniqueBarcode db base = Some base)
  /\ (inUse db base -> inUse db (suffixed base 1) ->
      ~ inUse db (suffixed base 2) ->
      generateUniqueBarcode db base = Some (suffixed base 2))
  /\ (inUse db base ->
      suffixLoop (S (length db)) db base 1 = generateUniqueBarcode db base).
Proof.
  assert (Hfirst : exists k, generateUniqueBarcode db base = Some (candidate base k)
     /\ ~ inUse db (candidate base k)
     /\ forall j, (j < k)%nat -> inUse db (candidate base j)).
  { unfold generateUniqueBarcode.
    destruct (findOne db base) as [[i p]|] eqn:E.
    - destruct (suffixLoop_total db base) as (k & Hk & Hrun & Hfree & Hused).
      exists k. destruct k as [|k]; [lia|]. simpl.
      split; [exact Hrun|]. split; [apply not_inUse; exact Hfree|].
      intros [|j] Hj; simpl.
      + unfold inUse. rewrite E. eauto.
      + apply Hused. lia.
    - exists O. simpl. split; [reflexivity|].
      split; [apply not_inUse; exact E|]. intros j Hj. lia. }
  split; [exact Hfirst|]. split; [|split].
  - intros H. apply not_inUse in H. unfold generateUniqueBarcode.
    rewrite H. reflexivity.
  - intros H0 H1 H2. destruct Hfirst as (k & Hrun & Hfree & Hused).
    destruct k as [|[|[|k]]].
    + contradiction.
    + contradiction.
    + exact Hrun.
    + exfalso. apply H2. apply (Hused 2%nat). lia.
  - intros [[i p] H]. unfold generateUniqueBarcode. rewrite H. reflexivity.
Qed.

Lemma generateUniqueBarcode_first_free_witness :
  generateUniqueBarcode [sampleProduct "X" 3; sampleProduct "X(1)" 0] "X"
  = Some "X(2)".
Proof.
  apply (proj1 (proj2 (proj2
           (generateUniqueBarcode_first_free
              [sampleProduct "X" 3; sampleProduct "X(1)" 0] "X")))).
  - vm_compute. eauto.
  - vm_compute. eauto.
  - apply not_inUse. vm_compute. reflexivity.
Defined.

(** ** Worlds and storage calls *)

Lemma tenant_setRegistry w reg s : tenant (setRegistry w reg) s = tenant w s.
Proof. reflexivity. Qed.

(** A category document that findById returned is a category of the
    collection. *)
Lemma findById_found env cats id c :
  findById env cats id = inr (Some c) ->
  exists oid, findCategory cats oid = Some c.
Proof.
  unfold findById. destruct (castId env id) as [oid|]; [|discriminate].
  intros [= H]. eauto.
Qed.

(** createProduct either writes nothing, or saves the document built with
    the category it looked up. *)
Lemma createProduct_cases env u db b :
  fst (createProduct env u db b) = products db
  \/ exists categoryDoc db',
       (forall c, categoryDoc = Some c ->
          exists oid, findCategory (categories db) oid = Some c)
       /\ saveNew env (products db) (createDoc u categoryDoc b) = inr db'
       /\ createProduct env u db b
          = (db', replyProduct 201 "Product created successfully"
                    (barcode (castProduct (createDoc u categoryDoc b)))).
Proof.
  unfold createProduct.
  destruct (falsy (c_barcode b) || falsy (c_name b)); [left; reflexivity|].
  destruct (findOne _ _); [left; reflexivity|].
  destruct (lookupCategory _ _ _) as [e|categoryDoc] eqn:Ef;
    [left; reflexivity|].
  destruct (saveNew _ _ _) as [e|db'] eqn:E; [left; reflexivity|].
  right. exists categoryDoc, db'. split; [|split; [exact E|reflexivity]].
  intros c ->. unfold lookupCategory in Ef.
  destruct (falsy (c_category b)); [discriminate|].
  exact (findById_found _ _ _ _ Ef).
Qed.

(** updateProduct either writes nothing, or saves the product it found
    with the assignments made, for the category it looked up. *)
Lemma updateProduct_cases env db param b :
  fst (updateProduct env db param b) = products db
  \/ exists i product categoryDoc db',
       findOne (products db) (Js.trim param) = Some (i, product)
       /\ (forall c, categoryDoc = Some c ->
             exists oid, findCategory (categories db) oid = Some c)
       /\ saveAt env (products db) i (updateDoc categoryDoc param b product)
          = inr db'
       /\ updateProduct env db param b
          = (db', replyProduct 200 "Product updated successfully"
                    (barcode (updateDoc categoryDoc param b product))).
Proof.
  unfold updateProduct.
  destruct (findOne _ _) as [[i product]|] eqn:Ef; [|left; reflexivity].
  match goal with |- context [if ?c then (_, reply 400 _) else _] =>
    destruct c end; [left; reflexivity|].
  match goal with |- context [match ?f with inl _ => _ | inr _ => _ end] =>
    destruct f as [e|categoryDoc] eqn:Efound end; [left; reflexivity|].
  destruct (saveAt _ _ _ _) as [e|db'] eqn:E; [left; reflexivity|].
  right. exists i, product, categoryDoc, db'.
  split; [reflexivity|]. split; [|split; [exact E|reflexivity]].
  intros c ->. destruct (u_category b) as [[id|]|]; try discriminate.
  destruct (bool_decide (id = "")); [discriminate|].
  exact (findById_found _ _ _ _ Efound).
Qed.

Lemma tenant_setProducts_eq w s ps :
  products (tenant (setProducts w s ps) s) = ps.
Proof. unfold tenant, setProducts. simpl. rewrite lookup_insert_eq. reflexivity. Qed.

Lemma tenant_setProducts_ne w s s' ps :
  s <> s' -> tenant (setProducts w s ps) s' = tenant w s'.
Proof.
  intros H. unfold tenant, setProducts. simpl.
  rewrite lookup_insert_ne by assumption. reflexivity.
Qed.

Lemma tenant_setProducts_same w s :
  forall s', products (tenant (setProducts w s (products (tenant w s))) s')
             = products (tenant w s').
Proof.
  intros s'. destruct (decide (s = s')) as [->|Hne].
  - apply tenant_setProducts_eq.
  - rewrite tenant_setProducts_ne by assumption. reflexivity.
Qed.

Lemma validate_stock p : validate p = true -> 0 <= currentStock p.
Proof.
  unfold validate. rewrite !andb_true_iff. intros [[[_ H] _] _]. lia.
Qed.

Lemma saveNew_inr env db raw db' :
  saveNew env db raw = inr db' ->
  validate (castProduct raw) = true /\ saveOk env = true
  /\ findOne db (barcode raw) = None
  /\ db' = db ++ [preSave (castProduct raw)].
Proof.
  unfold saveNew, findOne. simpl.
  destruct (validate (castProduct raw)); simpl; [|discriminate].
  destruct (saveOk env); simpl; [|discriminate].
  destruct (list_find _ db); [discriminate|].
  intros [= <-]. auto.
Qed.

Lemma saveNew_ok env db raw :
  validate (castProduct raw) = true -> saveOk env = true ->
  findOne db (barcode raw) = None ->
  saveNew env db raw = inr (db ++ [preSave (castProduct raw)]).
Proof.
  unfold saveNew, findOne. simpl. intros -> -> ->. reflexivity.
Qed.

Lemma saveAt_inr env db i p db' :
  saveAt env db i p = inr db' ->
  validate p = true /\ saveOk env = true
  /\ list_find (fun x => barcode x = barcode p) (delete i db) = None
  /\ db' = <[i := preSave p]> db.
Proof.
  unfold saveAt.
  destruct (validate p); simpl; [|discriminate].
  destruct (saveOk env); simpl; [|discriminate].
  destruct (list_find _ (delete i db)); [discriminate|].
  intros [= <-]. auto.
Qed.

Lemma deleteOne_inr env db b db' :
  deleteOne env db b = inr db' ->
  deleteOk env = true /\
  db' = match findOne db b with Some (i, _) => delete i db | None => db end.
Proof.
  unfold deleteOne. destruct (deleteOk env); simpl; [|discriminate].
  destruct (findOne db b) as [[i p]|]; intros [= <-]; auto.
Qed.

Lemma preSave_stock p :
  currentStock (preSave p) = currentStock p
  /\ stockHistory (preSave p) = stockHistory p
  /\ barcode (preSave p) = barcode p.
Proof. unfold preSave. destruct (decide (unit p = "")); auto. Qed.

(** ** An invariant of every company's collection is an invariant of the
    world, once each handler keeps it *)

Section WorldInvariant.
Variable Inv : list Product -> Prop.
Hypothesis Inv_nil : Inv [].
Hypothesis Inv_create : forall env u db b,
  Inv (products db) -> Inv (fst (createProduct env u db b)).
Hypothesis Inv_duplicate : forall env u db param,
  Inv (products db) -> Inv (fst (duplicateProduct env u db param)).
Hypothesis Inv_addStock : forall env u db param q n s,
  Inv db -> Inv (fst (addStock env u db param q n s)).
Hypothesis Inv_removeStock : forall env u db param q n l,
  Inv db -> Inv (fst (removeStock env u db param q n l)).
Hypothesis Inv_update : forall env db param b,
  Inv (products db) -> Inv (fst (updateProduct env db param b)).
Hypothesis Inv_delete : forall env db param,
  Inv db -> Inv (fst (deleteProduct env db param)).
Hypothesis Inv_transferIn : forall env u db from tb src db',
  Inv db -> saveNew env db (transferDoc u from tb src) = inr db' -> Inv db'.
Hypothesis Inv_deleteOne : forall env db b db',
  Inv db -> deleteOne env db b = inr db' -> Inv db'.

Lemma everywhere_empty cs : everywhere Inv (emptyWorld cs).
Proof. intros s. exact Inv_nil. Qed.

Lemma everywhere_setProducts w s ps :
  everywhere Inv w -> Inv ps -> everywhere Inv (setProducts w s ps).
Proof.
  intros Hw Hps s'. destruct (decide (s = s')) as [->|Hne].
  - rewrite tenant_setProducts_eq. exact Hps.
  - rewrite tenant_setProducts_ne by assumption. apply Hw.
Qed.

Lemma transferProduct_everywhere env u w s param target keep :
  everywhere Inv w -> everywhere Inv (fst (transferProduct env u w s param target keep)).
Proof.
  intros Hw. unfold transferProduct.
  destruct (falsy target); [exact Hw|].
  destruct (bool_decide _); [exact Hw|].
  destruct (negb (isSuperAdmin u) && negb (hasAccessTo u (default "" target)));
    [exact Hw|].
  destruct (findCompany _ _); [|exact Hw].
  destruct (findOne _ _) as [[i src]|]; [|exact Hw].
  destruct (getCompanyConnection _ _) as [reg1 [conn|]]; [|exact Hw].
  destruct (generateUniqueBarcode _ _) as [tb|]; [|exact Hw].
  destruct (saveNew _ _ _) as [e|db'] eqn:Esave; [exact Hw|].
  assert (H2 : everywhere Inv (setProducts (setRegistry w reg1) (default "" target) db')).
  { apply everywhere_setProducts; [exact Hw|].
    eapply Inv_transferIn; [|exact Esave]. apply Hw. }
  destruct keep; simpl; [exact H2|].
  destruct (deleteOne _ _ _) as [e|src'] eqn:Edel; [exact H2|].
  apply everywhere_setProducts; [exact H2|].
  eapply Inv_deleteOne; [|exact Edel]. apply H2.
Qed.

Lemma handle_everywhere cfg w r :
  everywhere Inv w -> everywhere Inv (fst (handle cfg w r)).
Proof.
  intros Hw. unfold handle.
  destruct (companyMiddleware _ _ _ _ _) as [reg1 [resp|s]]; [exact Hw|].
  assert (H1 : everywhere Inv (setRegistry w reg1)) by exact Hw.
  destruct (req_route r); simpl;
    try (apply everywhere_setProducts; [exact H1|]).
  - apply Inv_create, H1.
  - apply Inv_duplicate, H1.
  - apply transferProduct_everywhere, H1.
  - apply Inv_addStock, H1.
  - apply Inv_removeStock, H1.
  - apply Inv_update, H1.
  - apply Inv_delete, H1.
Qed.

Lemma run_everywhere cfg rs : forall w,
  everywhere Inv w -> everywhere Inv (run cfg w rs).
Proof.
  induction rs as [|r rs IH]; intros w Hw; [exact Hw|].
  apply IH, handle_everywhere, Hw.
Qed.

End WorldInvariant.

(** ** Numbers *)

Lemma double_exact z : Z.abs z <= Js.exactUpTo -> Js.double z = z.
Proof.
  intros H. unfold Js.double.
  destruct (Z.leb_spec (Z.log2 (Z.abs z) - 52) 0) as [|He]; [reflexivity|].
  assert (Ha : 0 < Z.abs z).
  { destruct (Z.eq_dec (Z.abs z) 0) as [E|]; [|lia].
    rewrite E in He. simpl in He. lia. }
  pose proof (Z.log2_spec _ Ha) as [Hlo _].
  assert (Hp : 2 ^ 53 <= 2 ^ Z.log2 (Z.abs z))
    by (apply Z.pow_le_mono_r; lia).
  assert (E : Z.abs z = 2 ^ 53) by (unfold Js.exactUpTo in H; lia).
  destruct (Z.abs_eq_or_opp z) as [Hz|Hz].
  - rewrite Hz in E. subst z. reflexivity.
  - assert (z = - 2 ^ 53) by lia. subst z. reflexivity.
Qed.

Lemma double_nonneg z : 0 <= z -> 0 <= Js.double z.
Proof.
  intros H. unfold Js.double.
  destruct (Z.leb_spec (Z.log2 (Z.abs z) - 52) 0) as [|He]; [exact H|].
  apply Z.mul_nonneg_nonneg; [apply Z.sgn_nonneg, H|].
  apply Z.shiftl_nonneg.
  assert (0 <= Z.shiftr (Z.abs z) (Z.log2 (Z.abs z) - 52))
    by (apply Z.shiftr_nonneg; lia).
  destruct (_ || _); lia.
Qed.

Lemma add_exact x y : Z.abs (x + y) <= Js.exactUpTo -> Js.add x y = x + y.
Proof. apply double_exact. Qed.

Lemma sub_exact x y : Z.abs (x - y) <= Js.exactUpTo -> Js.sub x y = x - y.
Proof. apply double_exact. Qed.

(** ** I1: the counter and the history *)

Lemma signedSum_app h m : signedSum (h ++ [m]) = signedSum h + signed m.
Proof.
  induction h as [|x h IH]; simpl; [lia|]. rewrite IH. lia.
Qed.

Lemma grossSum_app h m :
  grossSum (h ++ [m]) = grossSum h + Z.abs (quantity m).
Proof.
  induction h as [|x h IH]; simpl; [lia|]. rewrite IH. lia.
Qed.

Lemma grossSum_nonneg h : 0 <= grossSum h.
Proof. induction h as [|x h IH]; simpl; lia. Qed.

Lemma abs_signedSum h : Z.abs (signedSum h) <= grossSum h.
Proof.
  induction h as [|x h IH]; simpl; [lia|].
  unfold signed. destruct (type x); lia.
Qed.

Lemma ledgerOk_exact p : ledgerOk p -> ledgerExact p.
Proof. intros H _. exact H. Qed.

Lemma ledgerExact_preSave p : ledgerExact (preSave p) <-> ledgerExact p.
Proof.
  unfold ledgerExact, ledgerOk.
  destruct (preSave_stock p) as (-> & -> & _). reflexivity.
Qed.

(** One more movement on a product within the exact range: the rounded
    counter is the exact one. *)
Lemma withStock_exact p stock m :
  ledgerExact p ->
  (Z.abs (currentStock p + signed m) <= Js.exactUpTo ->
   stock = currentStock p + signed m) ->
  ledgerExact (withStock p stock m).
Proof.
  unfold ledgerExact, ledgerOk. simpl. intros Hp Hstock.
  rewrite grossSum_app, signedSum_app. intros Hg.
  assert (Hc : currentStock p = signedSum (stockHistory p)) by (apply Hp; lia).
  rewrite <- Hc. apply Hstock.
  pose proof (abs_signedSum (stockHistory p)).
  unfold signed. destruct (type m); lia.
Qed.

Lemma saveNew_ledger env db raw db' :
  saveNew env db raw = inr db' ->
  (0 <= currentStock raw -> ledgerOk raw) ->
  Forall ledgerExact db -> Forall ledgerExact db'.
Proof.
  intros Hs Hraw Hdb. apply saveNew_inr in Hs as (Hv & _ & _ & ->).
  apply Forall_app. split; [assumption|]. apply Forall_singleton.
  apply ledgerExact_preSave, ledgerOk_exact. apply Hraw.
  exact (validate_stock _ Hv).
Qed.

Lemma saveAt_ledger env db i p db' :
  saveAt env db i p = inr db' ->
  ledgerExact p -> Forall ledgerExact db -> Forall ledgerExact db'.
Proof.
  intros Hs Hp Hdb. apply saveAt_inr in Hs as (_ & _ & _ & ->).
  apply Forall_insert; [assumption|]. apply ledgerExact_preSave, Hp.
Qed.

Lemma createDoc_ledger u categoryDoc b :
  0 <= currentStock (createDoc u categoryDoc b) ->
  ledgerOk (createDoc u categoryDoc b).
Proof.
  unfold ledgerOk, createDoc. simpl. intros H.
  destruct (Z.ltb_spec 0 (Js.intOr0 (c_quantity b))); simpl; unfold signed; simpl; lia.
Qed.

Lemma duplicateDoc_ledger u param nb p :
  0 <= currentStock (duplicateDoc u param nb p) ->
  ledgerOk (duplicateDoc u param nb p).
Proof.
  unfold ledgerOk, duplicateDoc. simpl. intros H.
  destruct (Z.ltb_spec 0 (currentStock p)); simpl; unfold signed; simpl; lia.
Qed.

Lemma transferDoc_ledger u from tb p : ledgerOk (transferDoc u from tb p).
Proof. unfold ledgerOk, transferDoc. simpl. unfold signed. simpl. lia. Qed.

Lemma findOne_Forall (P : Product -> Prop) db b i p :
  Forall P db -> findOne db b = Some (i, p) -> P p.
Proof.
  intros H Hf. apply findOne_barcode in Hf as [Hf _].
  exact (Forall_lookup_1 _ _ _ _ H Hf).
Qed.

Lemma createProduct_ledger env u db b :
  Forall ledgerExact (products db) ->
  Forall ledgerExact (fst (createProduct env u db b)).
Proof.
  intros H.
  destruct (createProduct_cases env u db b) as [->|(cd & db' & _ & E & ->)];
    [exact H|]. simpl.
  eapply saveNew_ledger; [exact E|apply createDoc_ledger|exact H].
Qed.

Lemma duplicateProduct_ledger env u db param :
  Forall ledgerExact (products db) ->
  Forall ledgerExact (fst (duplicateProduct env u db param)).
Proof.
  intros H. unfold duplicateProduct.
  destruct (findOne _ _) as [[i p]|]; [|exact H].
  destruct (suffixLoop _ _ _ _); [|exact H].
  destruct (saveNew _ _ _) eqn:E; [exact H|]. simpl.
  eapply saveNew_ledger; [exact E|apply duplicateDoc_ledger|exact H].
Qed.

Lemma addStock_ledger env u db param q n s :
  Forall ledgerExact db ->
  Forall ledgerExact (fst (addStock env u db param q n s)).
Proof.
  intros H. unfold addStock.
  destruct (Js.notPositive q); [exact H|].
  destruct (findOne _ _) as [[i p]|] eqn:Ef; [|exact H].
  destruct (saveAt _ _ _ _) eqn:E; [exact H|]. simpl.
  eapply saveAt_ledger; [exact E| |exact H].
  apply withStock_exact; [exact (findOne_Forall _ _ _ _ _ H Ef)|].
  intros Hb. apply add_exact, Hb.
Qed.

Lemma removeStock_ledger env u db param q n l :
  Forall ledgerExact db ->
  Forall ledgerExact (fst (removeStock env u db param q n l)).
Proof.
  intros H. unfold removeStock.
  destruct (Js.notPositive q); [exact H|].
  destruct (findOne _ _) as [[i p]|] eqn:Ef; [|exact H].
  destruct (currentStock p <? Js.intOr0 q); [exact H|].
  destruct (saveAt _ _ _ _) eqn:E; [exact H|]. simpl.
  eapply saveAt_ledger; [exact E| |exact H].
  apply withStock_exact; [exact (findOne_Forall _ _ _ _ _ H Ef)|].
  unfold signed. simpl. intros Hb. rewrite Z.add_opp_r in *.
  apply sub_exact, Hb.
Qed.

Lemma updateProduct_ledger env db param b :
  Forall ledgerExact (products db) ->
  Forall ledgerExact (fst (updateProduct env db param b)).
Proof.
  intros H.
  destruct (updateProduct_cases env db param b)
    as [->|(i & p & cd & db' & Ef & _ & E & ->)]; [exact H|]. simpl.
  eapply saveAt_ledger; [exact E| |exact H].
  exact (findOne_Forall _ _ _ _ _ H Ef).
Qed.

Lemma deleteProduct_ledger env db param :
  Forall ledgerExact db ->
  Forall ledgerExact (fst (deleteProduct env db param)).
Proof.
  intros H. unfold deleteProduct, findByIdAndDelete.
  destruct (findOne _ _) as [[i p]|]; [|exact H].
  destruct (negb (deleteOk env)); simpl; [exact H|].
  apply Forall_delete, H.
Qed.

Lemma deleteOne_ledger env db b db' :
  Forall ledgerExact db -> deleteOne env db b = inr db' ->
  Forall ledgerExact db'.
Proof.
  intros H Hd. apply deleteOne_inr in Hd as [_ ->].
  destruct (findOne db b) as [[i p]|]; [apply Forall_delete|]; exact H.
Qed.

Lemma run_ledger cfg rs w :
  everywhere (Forall ledgerExact) w ->
  everywhere (Forall ledgerExact) (run cfg w rs).
Proof.
  apply run_everywhere.
  - apply createProduct_ledger.
  - apply duplicateProduct_ledger.
  - apply addStock_ledger.
  - apply removeStock_ledger.
  - apply updateProduct_ledger.
  - apply deleteProduct_ledger.
  - intros env u db from tb src db' H E.
    eapply saveNew_ledger; [exact E|intros _; apply transferDoc_ledger|exact H].
  - intros env db b db' H E. exact (deleteOne_ledger _ _ _ _ H E).
Qed.

(** What a successful addStock or removeStock writes: the product found,
    with the counter moved by the quantity and one movement appended. *)
Lemma addStock_writes env u db param q n s i p db' r :
  findOne db (Js.trim param) = Some (i, p) ->
  addStock env u db param (Some q) n s = (db', r) -> status r = 200%nat ->
  db' !! i = Some (preSave (withStock p (Js.add (currentStock p) q)
                                      (addMovement u q n s))).
Proof.
  intros Hf. unfold addStock. destruct (Js.notPositive (Some q)).
  { intros [= <- <-]. discriminate. }
  rewrite Hf. simpl Js.intOr0.
  destruct (saveAt _ _ _ _) eqn:E; intros [= <- <-]; [discriminate|].
  intros _. apply saveAt_inr in E as (_ & _ & _ & ->).
  apply list_lookup_insert_eq.
  apply findOne_barcode in Hf as [Hf _]. exact (lookup_lt_Some _ _ _ Hf).
Qed.

Lemma removeStock_writes env u db param q n l i p db' r :
  findOne db (Js.trim param) = Some (i, p) ->
  removeStock env u db param (Some q) n l = (db', r) -> status r = 200%nat ->
  db' !! i = Some (preSave (withStock p (Js.sub (currentStock p) q)
                                      (removeMovement u q n l))).
Proof.
  intros Hf. unfold removeStock. destruct (Js.notPositive (Some q)).
  { intros [= <- <-]. discriminate. }
  rewrite Hf. simpl Js.intOr0.
  destruct (currentStock p <? q). { intros [= <- <-]. discriminate. }
  destruct (saveAt _ _ _ _) eqn:E; intros [= <- <-]; [discriminate|].
  intros _. apply saveAt_inr in E as (_ & _ & _ & ->).
  apply list_lookup_insert_eq.
  apply findOne_barcode in Hf as [Hf _]. exact (lookup_lt_Some _ _ _ Hf).
Qed.

(** C1. After any sequence of requests served from a world in which every
    product's counter equals the signed sum of its history (the empty
    world in particular), every product of every company whose movement
    quantities add up to at most [2^53] has [currentStock] equal to the
    signed sum of its [stockHistory].  The counter is kept incrementally:
    a successful addStock or removeStock writes the old history extended
    by one movement together with the old counter plus or minus the
    quantity, exactly so when that number is at most [2^53] in absolute
    value, whatever the old history sums to. *)
Theorem currentStock_is_signed_sum_within_2_53 cfg (w : World)
  (rs : list Request) :
  worldLedgerOk w ->
  (forall s p, p ∈ products (tenant (run cfg w rs) s) ->
     grossSum (stockHistory p) <= Js.exactUpTo ->
     currentStock p = signedSum (stockHistory p))
  /\ (forall env u db param q n s i p db' r,
        findOne db (Js.trim param) = Some (i, p) ->
        addStock env u db param (Some q) n s = (db', r) ->
        status r = 200%nat ->
        exists p', db' !! i = Some p'
          /\ (Z.abs (currentStock p + q) <= Js.exactUpTo ->
              currentStock p' = currentStock p + q)
          /\ stockHistory p' = stockHistory p ++ [addMovement u q n s])
  /\ (forall env u db param q n l i p db' r,
        findOne db (Js.trim param) = Some (i, p) ->
        removeStock env u db param (Some q) n l = (db', r) ->
        status r = 200%nat ->
        exists p', db' !! i = Some p'
          /\ (Z.abs (currentStock p - q) <= Js.exactUpTo ->
              currentStock p' = currentStock p - q)
          /\ stockHistory p' = stockHistory p ++ [removeMovement u q n l]).
Proof.
  intros Hw. split; [|split].
  - intros s p Hp Hg.
    assert (Hw' : everywhere (Forall ledgerExact) w).
    { intros t. eapply Forall_impl; [apply Hw|]. apply ledgerOk_exact. }
    pose proof (run_ledger cfg rs w Hw' s) as H.
    rewrite Forall_forall in H. exact (H p Hp Hg).
  - intros env u db param q n s i p db' r Hf Hrun Hst.
    eexists. split; [exact (addStock_writes _ _ _ _ _ _ _ _ _ _ _ Hf Hrun Hst)|].
    destruct (preSave_stock (withStock p (Js.add (currentStock p) q)
                               (addMovement u q n s))) as (-> & -> & _).
    split; [|reflexivity]. simpl. apply add_exact.
  - intros env u db param q n l i p db' r Hf Hrun Hst.
    eexists. split; [exact (removeStock_writes _ _ _ _ _ _ _ _ _ _ _ Hf Hrun Hst)|].
    destruct (preSave_stock (withStock p (Js.sub (currentStock p) q)
                               (removeMovement u q n l))) as (-> & -> & _).
    split; [|reflexivity]. simpl. apply sub_exact.
Qed.

Lemma currentStock_is_signed_sum_within_2_53_witness :
  exists p, products (tenant (run cfg0 (emptyWorld directory) ledgerDay) "acme") = [p]
    /\ currentStock p = 12
    /\ length (stockHistory p) = 3%nat
    /\ grossSum (stockHistory p) = 18
    /\ currentStock p = signedSum (stockHistory p).
Proof.
  assert (H0 : worldLedgerOk (emptyWorld directory)) by (intros s; constructor).
  destruct (currentStock_is_signed_sum_within_2_53 cfg0 (emptyWorld directory)
              ledgerDay H0) as [H _].
  specialize (H "acme").
  remember (products (tenant (run cfg0 (emptyWorld directory) ledgerDay) "acme"))
    as l eqn:E.
  vm_compute in E. subst l.
  eexists. split; [reflexivity|]. split; [reflexivity|]. split; [reflexivity|].
  split; [reflexivity|].
  apply H; [left|]. vm_compute. discriminate.
Defined.

(** C1, as stated, fails once a counter passes [2^53].  B123 is created in
    acme with 9007199254740992 pieces and one piece is added; both
    requests succeed.  The history then sums to 9007199254740993, which no
    double holds, and the counter is still 9007199254740992. *)
Lemma currentStock_drifts_beyond_2_53 :
  worldLedgerOk (emptyWorld directory)
  /\ status <$> responses cfg0 (emptyWorld directory) driftDay
     = [201%nat; 200%nat]
  /\ exists p,
       products (tenant (run cfg0 (emptyWorld directory) driftDay) "acme") = [p]
       /\ currentStock p = 9007199254740992
       /\ signedSum (stockHistory p) = 9007199254740993
       /\ currentStock p <> signedSum (stockHistory p).
Proof.
  split; [intros s; constructor|]. split; [vm_compute; reflexivity|].
  eexists. split; [vm_compute; reflexivity|].
  split; [reflexivity|]. split; [reflexivity|]. simpl. discriminate.
Qed.

(** ** The schema's guarantees are kept by every handler *)

Lemma list_find_barcode_None (l : list Product) b :
  list_find (fun x => barcode x = b) l = None <-> b ∉ barcode <$> l.
Proof.
  rewrite list_find_None, Forall_forall, list_elem_of_fmap. split.
  - intros H (p & Hb & Hp). exact (H p Hp (eq_sym Hb)).
  - intros H p Hp Hb. apply H. exists p. split; [congruence|assumption].
Qed.

Lemma insert_Permutation {A} (l : list A) : forall i x,
  (i < length l)%nat -> <[i := x]> l ≡ₚ x :: delete i l.
Proof.
  induction l as [|a l IH]; intros [|i] x Hi; simpl in *; try lia.
  - reflexivity.
  - rewrite IH by lia. apply Permutation_swap.
Qed.

Lemma cast_fields p :
  castProduct p = p <->
  Js.trim (barcode p) = barcode p /\ Js.trim (name p) = name p
  /\ Js.trim (boughtFrom p) = boughtFrom p
  /\ Js.trim (sellLocation p) = sellLocation p
  /\ Js.trim (unit p) = unit p.
Proof.
  split.
  - intros H. repeat split.
    + exact (f_equal barcode H).
    + exact (f_equal name H).
    + exact (f_equal boughtFrom H).
    + exact (f_equal sellLocation H).
    + exact (f_equal unit H).
  - intros (H1 & H2 & H3 & H4 & H5). destruct p. unfold castProduct.
    simpl in *. congruence.
Qed.

Lemma castProduct_idem p : castProduct (castProduct p) = castProduct p.
Proof. apply cast_fields. simpl. repeat split; apply trim_idem. Qed.

Lemma preSave_storedOk p :
  validate p = true -> castProduct p = p -> storedOk (preSave p).
Proof.
  intros Hv Hc. apply cast_fields in Hc as (H1 & H2 & H3 & H4 & H5).
  unfold storedOk, preSave. destruct (decide (unit p = "")) as [E|E].
  - split; [exact Hv|]. split; [|discriminate].
    apply cast_fields. simpl. repeat split; assumption.
  - split; [exact Hv|]. split; [|exact E].
    apply cast_fields. repeat split; assumption.
Qed.

Lemma saveNew_dbOk env db raw db' :
  dbOk db -> saveNew env db raw = inr db' -> dbOk db'.
Proof.
  intros [Hall Hnd] Hs. apply saveNew_inr in Hs as (Hv & _ & Hfree & ->).
  split.
  - apply Forall_app. split; [assumption|]. apply Forall_singleton.
    apply preSave_storedOk; [exact Hv|apply castProduct_idem].
  - rewrite fmap_app. apply NoDup_app. split; [assumption|].
    split; [|apply NoDup_singleton].
    intros b Hb Hb'. apply list_elem_of_singleton in Hb'. subst b.
    destruct (preSave_stock (castProduct raw)) as (_ & _ & Hbar).
    rewrite Hbar in Hb. simpl in Hb.
    apply findOne_None in Hfree. contradiction.
Qed.

Lemma saveAt_dbOk env db i p db' :
  dbOk db -> (i < length db)%nat -> castProduct p = p ->
  saveAt env db i p = inr db' -> dbOk db'.
Proof.
  intros [Hall Hnd] Hi Hc Hs. apply saveAt_inr in Hs as (Hv & _ & Hfree & ->).
  split.
  - apply Forall_insert; [assumption|]. apply preSave_storedOk; assumption.
  - rewrite list_fmap_insert.
    rewrite insert_Permutation by (rewrite length_fmap; exact Hi).
    apply NoDup_cons. rewrite <- list_fmap_delete. split.
    + destruct (preSave_stock p) as (_ & _ & ->).
      apply list_find_barcode_None. exact Hfree.
    + rewrite list_fmap_delete.
      eapply sublist_NoDup; [exact Hnd|apply sublist_delete].
Qed.

Lemma delete_dbOk db i : dbOk db -> dbOk (delete i db).
Proof.
  intros [Hall Hnd]. split; [apply Forall_delete, Hall|].
  rewrite list_fmap_delete. eapply sublist_NoDup; [exact Hnd|apply sublist_delete].
Qed.

Lemma findOne_lt db b i p : findOne db b = Some (i, p) -> (i < length db)%nat.
Proof.
  intros H. apply findOne_barcode in H as [H _]. exact (lookup_lt_Some _ _ _ H).
Qed.

Lemma findOne_stored db b i p :
  dbOk db -> findOne db b = Some (i, p) -> storedOk p.
Proof. intros [H _] Hf. exact (findOne_Forall _ _ _ _ _ H Hf). Qed.

Lemma withStock_cast p stock m :
  castProduct p = p -> castProduct (withStock p stock m) = withStock p stock m.
Proof. intros H. apply cast_fields in H. apply cast_fields. exact H. Qed.

Lemma updateDoc_cast categoryDoc param b p :
  castProduct p = p ->
  castProduct (updateDoc categoryDoc param b p)
  = updateDoc categoryDoc param b p.
Proof.
  intros H. apply cast_fields in H as (H1 & H2 & H3 & H4 & H5).
  apply cast_fields. simpl. repeat split.
  - destruct (u_newBarcode b); [|exact H1].
    destruct (bool_decide _); [exact H1|apply trim_idem].
  - destruct (u_name b); [apply trim_idem|exact H2].
  - destruct (u_boughtFrom b); [apply trim_idem|exact H3].
  - destruct (u_sellLocation b); [apply trim_idem|exact H4].
  - destruct (u_unit b); [apply trim_idem|exact H5].
Qed.

Lemma createProduct_dbOk env u db b :
  dbOk (products db) -> dbOk (fst (createProduct env u db b)).
Proof.
  intros H.
  destruct (createProduct_cases env u db b) as [->|(cd & db' & _ & E & ->)];
    [exact H|]. exact (saveNew_dbOk _ _ _ _ H E).
Qed.

Lemma duplicateProduct_dbOk env u db param :
  dbOk (products db) -> dbOk (fst (duplicateProduct env u db param)).
Proof.
  intros H. unfold duplicateProduct.
  destruct (findOne _ _) as [[i p]|]; [|exact H].
  destruct (suffixLoop _ _ _ _); [|exact H].
  destruct (saveNew _ _ _) eqn:E; [exact H|]. exact (saveNew_dbOk _ _ _ _ H E).
Qed.

Lemma addStock_dbOk env u db param q n s :
  dbOk db -> dbOk (fst (addStock env u db param q n s)).
Proof.
  intros H. unfold addStock.
  destruct (Js.notPositive q); [exact H|].
  destruct (findOne _ _) as [[i p]|] eqn:Ef; [|exact H].
  destruct (saveAt _ _ _ _) eqn:E; [exact H|]. simpl.
  eapply saveAt_dbOk; [exact H|exact (findOne_lt _ _ _ _ Ef)| |exact E].
  apply withStock_cast. apply (findOne_stored _ _ _ _ H Ef).
Qed.

Lemma removeStock_dbOk env u db param q n l :
  dbOk db -> dbOk (fst (removeStock env u db param q n l)).
Proof.
  intros H. unfold removeStock.
  destruct (Js.notPositive q); [exact H|].
  destruct (findOne _ _) as [[i p]|] eqn:Ef; [|exact H].
  destruct (currentStock p <? Js.intOr0 q); [exact H|].
  destruct (saveAt _ _ _ _) eqn:E; [exact H|]. simpl.
  eapply saveAt_dbOk; [exact H|exact (findOne_lt _ _ _ _ Ef)| |exact E].
  apply withStock_cast. apply (findOne_stored _ _ _ _ H Ef).
Qed.

Lemma updateProduct_dbOk env db param b :
  dbOk (products db) -> dbOk (fst (updateProduct env db param b)).
Proof.
  intros H.
  destruct (updateProduct_cases env db param b)
    as [->|(i & p & cd & db' & Ef & _ & E & ->)]; [exact H|]. simpl.
  eapply saveAt_dbOk; [exact H|exact (findOne_lt _ _ _ _ Ef)| |exact E].
  apply updateDoc_cast. apply (findOne_stored _ _ _ _ H Ef).
Qed.

Lemma deleteProduct_dbOk env db param :
  dbOk db -> dbOk (fst (deleteProduct env db param)).
Proof.
  intros H. unfold deleteProduct, findByIdAndDelete.
  destruct (findOne _ _) as [[i p]|]; [|exact H].
  destruct (negb (deleteOk env)); simpl; [exact H|]. apply delete_dbOk, H.
Qed.

Lemma deleteOne_dbOk env db b db' :
  dbOk db -> deleteOne env db b = inr db' -> dbOk db'.
Proof.
  intros H Hd. apply deleteOne_inr in Hd as [_ ->].
  destruct (findOne db b) as [[i p]|]; [apply delete_dbOk|]; exact H.
Qed.

(** Every world reached from a well-formed one is well-formed. *)
Lemma run_worldOk cfg rs w : worldOk w -> worldOk (run cfg w rs).
Proof.
  apply run_everywhere.
  - apply createProduct_dbOk.
  - apply duplicateProduct_dbOk.
  - apply addStock_dbOk.
  - apply removeStock_dbOk.
  - apply updateProduct_dbOk.
  - apply deleteProduct_dbOk.
  - intros env u db from tb src db' H E. exact (saveNew_dbOk _ _ _ _ H E).
  - intros env db b db' H E. exact (deleteOne_dbOk _ _ _ _ H E).
Qed.

Lemma emptyWorld_ok cs : worldOk (emptyWorld cs).
Proof. intros s. split; constructor. Qed.

(** ** removeStock *)

Lemma validate_withStock p stock m :
  validate p = true -> 0 <= stock -> validate (withStock p stock m) = true.
Proof.
  unfold validate. simpl. rewrite !andb_true_iff.
  intros [[[[H1 H2] _] H4] H5] Hs. repeat split; try assumption.
  apply Z.leb_le. exact Hs.
Qed.

Lemma NoDup_barcode_others db i p :
  NoDup (barcode <$> db) -> db !! i = Some p ->
  list_find (fun x => barcode x = barcode p) (delete i db) = None.
Proof.
  intros Hnd Hi. apply list_find_barcode_None.
  rewrite (delete_Permutation _ _ _ Hi) in Hnd.
  rewrite fmap_cons in Hnd. apply NoDup_cons in Hnd as [H _]. exact H.
Qed.

Lemma saveAt_ok env db i p :
  validate p = true -> saveOk env = true ->
  list_find (fun x => barcode x = barcode p) (delete i db) = None ->
  saveAt env db i p = inr (<[i := preSave p]> db).
Proof. unfold saveAt. intros -> -> ->. reflexivity. Qed.


Lemma sampleProduct_stored b stock :
  Js.trim b = b -> b <> "" -> 0 <= stock -> storedOk (sampleProduct b stock).
Proof.
  intros Hb Hne Hs. split; [|split].
  - unfold validate. simpl. rewrite !andb_true_iff. repeat split.
    + apply negb_true_iff, String.eqb_neq. exact Hne.
    + apply Z.leb_le. exact Hs.
  - apply cast_fields. simpl. repeat split. exact Hb.
  - discriminate.
Qed.



(** ** Transfer *)

Lemma generateUniqueBarcode_total db base :
  exists tb, generateUniqueBarcode db base = Some tb /\ findOne db tb = None.
Proof.
  unfold generateUniqueBarcode.
  destruct (findOne db base) as [[i p]|] eqn:E.
  - destruct (suffixLoop_total db base) as (k & _ & Hrun & Hfree & _). eauto.
  - eauto.
Qed.

Lemma snoc_neq {A} (l : list A) x : l ++ [x] <> l.
Proof.
  intros H. apply (f_equal length) in H. rewrite length_app in H.
  simpl in H. lia.
Qed.

(** The three ways a transfer can end: nothing was written; the copy was
    written and the source kept (by choice, or because the delete threw);
    the copy was written and the source deleted. *)
Lemma transferProduct_cases env u w s param target keep :
  let t := default "" target in
  let out := transferProduct env u w s param target keep in
  (dbs (fst out) = dbs w /\ (400 <= status (snd out))%nat)
  \/ exists i src tb reg1,
       t <> s
       /\ findOne (products (tenant w s)) (Js.trim param) = Some (i, src)
       /\ generateUniqueBarcode (products (tenant w t)) (barcode src) = Some tb
       /\ findOne (products (tenant w t)) tb = None
       /\ validate (castProduct (transferDoc u s tb src)) = true
       /\ saveOk env = true
       /\ let w2 := setProducts (setRegistry w reg1) t
                      (products (tenant w t) ++ [transferred u s tb src]) in
          (keep = true /\ out = (w2, Copied (Js.trim tb)))
          \/ (keep = false /\ deleteOk env = false /\ out = (w2, TransferFailed))
          \/ (keep = false /\ deleteOk env = true
              /\ out = (setProducts w2 s (delete i (products (tenant w s))),
                        Moved (Js.trim tb))).
Proof.
  intros t out. subst t out. unfold transferProduct.
  destruct (falsy target); [left; split; [reflexivity|simpl; lia]|].
  destruct (bool_decide (default "" target = s)) eqn:Ets;
    [left; split; [reflexivity|simpl; lia]|].
  apply bool_decide_eq_false in Ets.
  destruct (negb (isSuperAdmin u) && negb (hasAccessTo u (default "" target)));
    [left; split; [reflexivity|simpl; lia]|].
  destruct (findCompany _ _); [|left; split; [reflexivity|simpl; lia]].
  destruct (findOne _ _) as [[i src]|] eqn:Ef;
    [|left; split; [reflexivity|simpl; lia]].
  destruct (getCompanyConnection _ _) as [reg1 [conn|]];
    [|left; split; [reflexivity|simpl; lia]].
  rewrite tenant_setRegistry.
  destruct (generateUniqueBarcode_total
              (products (tenant w (default "" target))) (barcode src))
    as (tb & Hgen & Hfree).
  rewrite Hgen.
  destruct (saveNew _ _ _) as [e|db'] eqn:Esave;
    [left; split; [reflexivity|simpl; lia]|].
  apply saveNew_inr in Esave as (Hv & Hsave & _ & ->).
  right. exists i, src, tb, (driverOpens env reg1 (default "" target)).
  split; [exact Ets|]. split; [reflexivity|]. split; [exact Hgen|].
  split; [exact Hfree|]. split; [exact Hv|]. split; [exact Hsave|].
  destruct keep; simpl; [left; auto|right].
  rewrite tenant_setProducts_ne by exact Ets. rewrite tenant_setRegistry.
  unfold deleteOne. destruct (deleteOk env); simpl; [right|left; auto].
  rewrite Ef. auto.
Qed.

Lemma dbs_tenant w w' : dbs w' = dbs w -> forall s, tenant w' s = tenant w s.
Proof. intros H s. unfold tenant. rewrite H. reflexivity. Qed.

Lemma clean_of_trimmed b : Js.trim b = b -> clean (list_ascii_of_string b).
Proof.
  intros H. rewrite <- H. unfold Js.trim.
  rewrite list_ascii_of_string_of_list_ascii. apply trimChars_clean.
Qed.

Lemma trim_suffixed base k :
  Js.trim base = base -> Js.trim (suffixed base k) = suffixed base k.
Proof.
  intros H.
  assert (E : list_ascii_of_string (Js.trim (suffixed base k))
              = list_ascii_of_string (suffixed base k)).
  { rewrite chars_suffixed, (dropWs_id _ (clean_of_trimmed _ H)).
    unfold suffixed. rewrite !chars_app. reflexivity. }
  apply (f_equal string_of_list_ascii) in E.
  rewrite !string_of_list_ascii_of_string in E. exact E.
Qed.

Lemma suffixLoop_shape fuel db base : forall c tb,
  suffixLoop fuel db base c = Some tb -> exists k, tb = suffixed base k.
Proof.
  induction fuel as [|fuel IH]; intros c tb; simpl; [discriminate|].
  destruct (findOne db (suffixed base c)); [apply IH|].
  intros [= <-]. eauto.
Qed.

Lemma generateUniqueBarcode_trimmed db base tb :
  Js.trim base = base -> generateUniqueBarcode db base = Some tb ->
  Js.trim tb = tb.
Proof.
  intros Hb. unfold generateUniqueBarcode. destruct (findOne db base).
  - intros H. apply suffixLoop_shape in H as [k ->]. apply trim_suffixed, Hb.
  - intros [= <-]. exact Hb.
Qed.

(** The copy written by a transfer, for a source that the schema accepted. *)
Lemma transferred_fields u from tb src :
  storedOk src ->
  let doc := transferred u from tb src in
  barcode doc = Js.trim tb
  /\ name doc = name src /\ note doc = note src
  /\ buyingPrice doc = buyingPrice src /\ sellingPrice doc = sellingPrice src
  /\ boughtFrom doc = boughtFrom src /\ sellLocation doc = sellLocation src
  /\ imageUrl doc = imageUrl src /\ unit doc = unit src
  /\ currentStock doc = currentStock src
  /\ category doc = None /\ categoryName doc = ""
  /\ stockHistory doc =
       [ {| quantity := currentStock src; type := add;
            h_note := "Transferred from " +:+ from;
            supplier := ""; location := "";
            addedBy := Some (user_id u);
            addedByName := Js.orStr (Some (fullName u)) (username u) |} ].
Proof.
  intros (_ & Hc & Hu). apply cast_fields in Hc as (H1 & H2 & H3 & H4 & H5).
  unfold transferred, preSave. simpl.
  destruct (decide (Js.trim (unit src) = "")) as [E|E]; [congruence|].
  simpl. repeat split; assumption.
Qed.

(** C9. A successful transfer appends to the target company's collection
    one product whose descriptive fields and currentStock are those of the
    source product, whose category is null (and categoryName empty), whose
    barcode is the one generateUniqueBarcode chose, and whose history is
    exactly one add entry of the source's currentStock noting the company
    it was transferred from; afterwards the source barcode is no longer
    found in the source company if and only if keepOriginal is false. *)
Theorem transfer_success env u w s param target keep w' r :
  worldOk w ->
  transferProduct env u w s param target keep = (w', r) ->
  status r = 200%nat ->
  exists t i src doc,
    target = Some t
    /\ findOne (products (tenant w s)) (Js.trim param) = Some (i, src)
    /\ products (tenant w' t) = products (tenant w t) ++ [doc]
    /\ generateUniqueBarcode (products (tenant w t)) (barcode src)
       = Some (barcode doc)
    /\ name doc = name src /\ note doc = note src
    /\ buyingPrice doc = buyingPrice src /\ sellingPrice doc = sellingPrice src
    /\ boughtFrom doc = boughtFrom src /\ sellLocation doc = sellLocation src
    /\ imageUrl doc = imageUrl src /\ unit doc = unit src
    /\ currentStock doc = currentStock src
    /\ category doc = None /\ categoryName doc = ""
    /\ stockHistory doc =
         [ {| quantity := currentStock src; type := add;
              h_note := "Transferred from " +:+ s;
              supplier := ""; location := "";
              addedBy := Some (user_id u);
              addedByName := Js.orStr (Some (fullName u)) (username u) |} ]
    /\ (findOne (products (tenant w' s)) (Js.trim param) = None
        <-> keep = false).
Proof.
  intros Hw Hrun Hst.
  destruct (transferProduct_cases env u w s param target keep)
    as [[_ Herr]|(i & src & tb & reg1 & Hts & Hf & Hgen & Hfree & Hv & _ & Hout)].
  { rewrite Hrun in Herr. simpl in Herr. lia. }
  rewrite Hrun in Hout. simpl in Hout.
  pose proof (findOne_stored _ _ _ _ (Hw s) Hf) as Hsrc.
  pose proof (transferred_fields u s tb src Hsrc) as Hdoc. simpl in Hdoc.
  destruct Hdoc as (Hbar & Hrest).
  assert (Htb : Js.trim tb = tb).
  { apply (generateUniqueBarcode_trimmed _ _ _
             (proj1 (proj1 (cast_fields _) (proj1 (proj2 Hsrc)))) Hgen). }
  assert (Ht : target = Some (default "" target)).
  { revert Hrun. unfold transferProduct. destruct target; [reflexivity|].
    simpl. intros [= <- <-]. discriminate. }
  exists (default "" target), i, src, (transferred u s tb src).
  split; [exact Ht|]. split; [exact Hf|].
  assert (Hcopy : forall w2 : World,
            w2 = setProducts (setRegistry w reg1) (default "" target)
                   (products (tenant w (default "" target))
                    ++ [transferred u s tb src]) ->
            products (tenant w2 (default "" target))
            = products (tenant w (default "" target))
              ++ [transferred u s tb src]
            /\ tenant w2 s = tenant w s).
  { intros w2 ->. rewrite tenant_setProducts_eq.
    rewrite tenant_setProducts_ne by exact Hts. auto. }
  destruct Hout as [[-> Hout]|[(-> & _ & Hout)|(-> & _ & Hout)]];
    injection Hout as -> ->.
  - destruct (Hcopy _ eq_refl) as [Hc1 Hc2].
    split; [exact Hc1|]. split; [rewrite Hbar, Htb; exact Hgen|].
    repeat (split; [apply Hrest|]).
    rewrite Hc2, Hf. split; discriminate.
  - discriminate.
  - split.
    { rewrite tenant_setProducts_ne by (intros E; apply Hts; symmetry; exact E).
      apply (Hcopy _ eq_refl). }
    split; [rewrite Hbar, Htb; exact Hgen|].
    repeat (split; [apply Hrest|]).
    rewrite tenant_setProducts_eq. split; [reflexivity|intros _].
    destruct (findOne_barcode _ _ _ _ Hf) as [Hi Hb].
    unfold findOne. rewrite <- Hb.
    exact (NoDup_barcode_others _ _ _ (proj2 (Hw s)) Hi).
Qed.

Lemma acmeWithB123_ok : worldOk acmeWithB123.
Proof. apply run_worldOk, emptyWorld_ok. Qed.

Lemma transfer_success_witness :
  exists doc,
    products (tenant (fst (transferProduct envOk elchin acmeWithB123 "acme"
                             "B123" (Some "globex") false)) "globex") = [doc]
    /\ currentStock doc = 10
    /\ category doc = None
    /\ length (stockHistory doc) = 1%nat
    /\ findOne (products (tenant (fst (transferProduct envOk elchin acmeWithB123
                                         "acme" "B123" (Some "globex") false))
                            "acme")) (Js.trim "B123") = None.
Proof.
  destruct (transferProduct envOk elchin acmeWithB123 "acme" "B123"
              (Some "globex") false) as [w' r] eqn:E.
  assert (Hst : status r = 200%nat).
  { apply (f_equal snd) in E. vm_compute in E. subst r. reflexivity. }
  destruct (transfer_success _ _ _ _ _ _ _ _ _ acmeWithB123_ok E Hst)
    as (t & i & src & doc & Ht & Hf & Hdest & _ & _ & _ & _ & _ & _ & _ & _
        & _ & Hstock & Hcat & _ & Hhist & Hgone).
  injection Ht as <-. vm_compute in Hf. injection Hf as <- <-.
  exists doc. simpl.
  split; [exact Hdest|]. split; [exact Hstock|]. split; [exact Hcat|].
  split; [rewrite Hhist; reflexivity|]. apply Hgone. reflexivity.
Defined.

(** C5. When the creation of the copy in the target company fails, the
    target collection is as before; and whenever a transfer ends with the
    target collection as before (the creation failed, or the request was
    turned down earlier), nothing is deleted: no company's database has
    changed, the source product is found as before with its counter and
    history, and the answer is an error. *)
Theorem transfer_fail_safe env u w s param target keep w' r :
  transferProduct env u w s param target keep = (w', r) ->
  (saveOk env = false ->
     products (tenant w' (default "" target))
     = products (tenant w (default "" target)))
  /\ (products (tenant w' (default "" target))
      = products (tenant w (default "" target)) ->
      dbs w' = dbs w
      /\ (400 <= status r)%nat
      /\ forall i p,
           findOne (products (tenant w s)) (Js.trim param) = Some (i, p) ->
           findOne (products (tenant w' s)) (Js.trim param) = Some (i, p)
           /\ p ∈ products (tenant w' s)).
Proof.
  intros Hrun.
  destruct (transferProduct_cases env u w s param target keep)
    as [[Hdbs Herr]|(i & src & tb & reg1 & Hts & Hf & _ & _ & _ & Hsave & Hout)];
    rewrite Hrun in *; simpl in *.
  - split; [intros _; rewrite (dbs_tenant _ _ Hdbs); reflexivity|].
    intros _. split; [exact Hdbs|]. split; [exact Herr|].
    intros i p Hp. rewrite (dbs_tenant _ _ Hdbs). split; [exact Hp|].
    apply findOne_barcode in Hp as [Hp _].
    apply list_elem_of_lookup. eauto.
  - split; [intros Hs; congruence|]. intros Hsame. exfalso.
    destruct Hout as [[_ Hout]|[(_ & _ & Hout)|(_ & _ & Hout)]];
      injection Hout as -> ->.
    + revert Hsame. rewrite tenant_setProducts_eq. apply snoc_neq.
    + revert Hsame. rewrite tenant_setProducts_eq. apply snoc_neq.
    + revert Hsame.
      rewrite tenant_setProducts_ne by (intros E; apply Hts; symmetry; exact E).
      rewrite tenant_setProducts_eq. apply snoc_neq.
Qed.

Lemma transfer_fail_safe_witness :
  (400 <= status (snd (transferProduct envSaveFails elchin acmeWithB123 "acme"
                         "B123" (Some "globex") false)))%nat
  /\ exists p,
       p ∈ products (tenant (fst (transferProduct envSaveFails elchin
                                    acmeWithB123 "acme" "B123" (Some "globex")
                                    false)) "acme")
       /\ barcode p = "B123" /\ currentStock p = 10
       /\ length (stockHistory p) = 1%nat.
Proof.
  destruct (transferProduct envSaveFails elchin acmeWithB123 "acme" "B123"
              (Some "globex") false) as [w' r] eqn:E.
  destruct (transfer_fail_safe _ _ _ _ _ _ _ _ _ E) as [Hsame Hsafe].
  destruct (Hsafe (Hsame eq_refl)) as (_ & Herr & Hsrc).
  split; [exact Herr|].
  destruct (Hsrc 0%nat (preSave (castProduct
              (createDoc elchin None (createBody "B123" (Some 10))))))
    as [_ Hin]; [reflexivity|].
  eexists. split; [exact Hin|]. repeat split.
Defined.

(** C4 (amended). When a transfer with keepOriginal false has written the
    copy to the target company and the delete of the source throws, the
    handler answers with the same 500 "Failed to transfer product" that it
    sends for every other failure; the source collection is unchanged, so
    both copies are live.  No answer of the handler is particular to this
    state. *)
Theorem transfer_partial_is_generic_failure env u w s param target w' r :
  transferProduct env u w s param target false = (w', r) ->
  products (tenant w' (default "" target))
  <> products (tenant w (default "" target)) ->
  deleteOk env = false ->
  r = TransferFailed
  /\ products (tenant w' s) = products (tenant w s)
  /\ exists doc,
       products (tenant w' (default "" target))
       = products (tenant w (default "" target)) ++ [doc].
Proof.
  intros Hrun Hnew Hdel.
  destruct (transferProduct_cases env u w s param target false)
    as [[Hdbs _]|(i & src & tb & reg1 & Hts & Hf & _ & _ & _ & _ & Hout)];
    rewrite Hrun in *; simpl in *.
  - exfalso. apply Hnew. rewrite (dbs_tenant _ _ Hdbs). reflexivity.
  - destruct Hout as [[Hk _]|[(_ & _ & Hout)|(_ & Hd & _)]];
      [discriminate| |congruence].
    injection Hout as -> ->. split; [reflexivity|].
    rewrite tenant_setProducts_eq, tenant_setProducts_ne by exact Hts.
    split; [reflexivity|]. eauto.
Qed.

Lemma transfer_partial_is_generic_failure_witness :
  snd (transferProduct envDeleteFails elchin acmeWithB123 "acme" "B123"
         (Some "globex") false) = TransferFailed
  /\ length (products (tenant (fst (transferProduct envDeleteFails elchin
                                      acmeWithB123 "acme" "B123"
                                      (Some "globex") false)) "acme")) = 1%nat.
Proof.
  destruct (transferProduct envDeleteFails elchin acmeWithB123 "acme" "B123"
              (Some "globex") false) as [w' r] eqn:E.
  assert (Hnew : products (tenant w' (default "" (Some "globex")))
                 <> products (tenant acmeWithB123 (default "" (Some "globex")))).
  { apply (f_equal fst) in E. simpl in E. subst w'. vm_compute. discriminate. }
  destruct (transfer_partial_is_generic_failure _ _ _ _ _ _ _ _ E Hnew eq_refl)
    as (Hr & Hsrc & _).
  split; [exact Hr|]. simpl. rewrite Hsrc. reflexivity.
Defined.

(** C4, as stated, fails: with B123 (10 pieces) in acme, a transfer to
    globex whose copy is written and whose delete throws leaves B123 live
    in both companies, and its answer is the generic failure, equal to the
    answer of the transfer whose copy could not be written at all. *)
Lemma partial_transfer_not_distinct :
  barcode <$> products (tenant (fst (transferProduct envDeleteFails elchin
                 acmeWithB123 "acme" "B123" (Some "globex") false)) "globex")
  = ["B123"]
  /\ barcode <$> products (tenant (fst (transferProduct envDeleteFails elchin
                 acmeWithB123 "acme" "B123" (Some "globex") false)) "acme")
     = ["B123"]
  /\ snd (transferProduct envDeleteFails elchin acmeWithB123 "acme" "B123"
            (Some "globex") false) = TransferFailed
  /\ products (tenant (fst (transferProduct envSaveFails elchin
                 acmeWithB123 "acme" "B123" (Some "globex") false)) "globex")
     = []
  /\ snd (transferProduct envSaveFails elchin acmeWithB123 "acme" "B123"
            (Some "globex") false)
     = snd (transferProduct envDeleteFails elchin acmeWithB123 "acme" "B123"
              (Some "globex") false).
Proof. vm_compute. repeat split. Qed.

(** ** Positive quantities *)

Lemma createDoc_positive u categoryDoc b :
  Forall (fun m => 0 < quantity m) (stockHistory (createDoc u categoryDoc b)).
Proof.
  unfold createDoc. simpl.
  destruct (Z.ltb_spec 0 (Js.intOr0 (c_quantity b))); repeat constructor.
  assumption.
Qed.

Lemma duplicateDoc_positive u param nb p :
  Forall (fun m => 0 < quantity m) (stockHistory (duplicateDoc u param nb p)).
Proof.
  unfold duplicateDoc. simpl.
  destruct (Z.ltb_spec 0 (currentStock p)); repeat constructor. assumption.
Qed.

Lemma notPositive_false q :
  Js.notPositive q = false -> 0 < Js.intOr0 q.
Proof.
  destruct q as [z|]; simpl; [|discriminate].
  rewrite orb_false_iff. intros [_ H]. apply Z.leb_gt in H. exact H.
Qed.

(** addStock and removeStock only ever append a movement of positive
    quantity. *)
Lemma stock_movement_positive (q : option Z) :
  Js.notPositive q = false ->
  forall u n s,
    0 < quantity (addMovement u (Js.intOr0 q) n s)
    /\ 0 < quantity (removeMovement u (Js.intOr0 q) n s).
Proof. intros H u n s. simpl. split; apply notPositive_false, H. Qed.

(** C10 fails on the code: the transfer of a product whose currentStock is
    0 writes a history entry of quantity 0.  B0 is created in acme with
    quantity 0 (its history is empty, as the create and duplicate handlers
    guard the entry with [> 0]); its transfer to globex succeeds and the
    copy's history is one add entry of quantity 0. *)
Theorem transfer_of_empty_stock_appends_zero_quantity :
  stockHistory <$> products (tenant acmeWithEmptyB0 "acme") = [[]]
  /\ status (snd (transferProduct envOk elchin acmeWithEmptyB0 "acme" "B0"
                    (Some "globex") true)) = 200%nat
  /\ (fun p => (fun m => (type m, quantity m)) <$> stockHistory p)
       <$> products (tenant (fst (transferProduct envOk elchin acmeWithEmptyB0
                                    "acme" "B0" (Some "globex") true)) "globex")
     = [[(add, 0)]].
Proof. vm_compute. repeat split. Qed.

(** ** Admission *)

Lemma legacy_admitted_everywhere cfg u header :
  isSuperAdmin u = false -> legacyAccess u = true -> admits cfg u header = true.
Proof.
  intros Hs Hl. unfold admits. rewrite Hs, Hl. simpl.
  rewrite andb_false_r. reflexivity.
Qed.

(** C3 fails on the code: a principal that is not a super-admin and whose
    companyAccess is empty is admitted to every company it selects, not
    only to the default one.  With the default company "barcode", the
    legacy user selecting "acme" passes the access check and is given the
    acme connection; selecting the default company is admitted as well. *)
Theorem legacy_principal_admitted_to_any_company :
  isSuperAdmin legacyUser = false
  /\ companyAccess legacyUser = Some []
  /\ DEFAULT_COMPANY_SLUG cfg0 <> "acme"
  /\ admits cfg0 legacyUser (Some "acme") = true
  /\ snd (companyMiddleware cfg0 envOk emptyRegistry legacyUser (Some "acme"))
     = inr "acme"
  /\ snd (companyMiddleware cfg0 envOk emptyRegistry legacyUser (Some "barcode"))
     = inr "barcode"
  /\ snd (handle cfg0 acmeWithB123
            (request legacyUser "acme" envOk
               (PostRemoveStock "B123" (Some 10) None None)))
     = replyProduct 200 "Removed 10 from stock" "B123".
Proof. vm_compute. repeat split. discriminate. Qed.

(** ** The connection cache under overlapping calls *)

Section Cache.
Variable env : Env.
Variable companySlug : string.

Lemma stepLoop_call_miss st :
  connectionCache (loop_reg st) !! companySlug = None ->
  stepLoop env st (Call companySlug)
  = {| loop_reg := {| connectionCache := connectionCache (loop_reg st);
                      created := S (created (loop_reg st)) |};
       waiting := waiting st ++ [(companySlug, created (loop_reg st))];
       returned := returned st |}.
Proof. intros H. unfold stepLoop, acquireStart. rewrite H. reflexivity. Qed.

Lemma stepLoop_call_hit st c :
  connectionCache (loop_reg st) !! companySlug = Some c ->
  readyState c = 1%nat ->
  stepLoop env st (Call companySlug)
  = {| loop_reg := loop_reg st; waiting := waiting st;
       returned := returned st ++ [Some c] |}.
Proof.
  intros H H1. unfold stepLoop, acquireStart. rewrite H, H1. reflexivity.
Qed.

Lemma stepLoop_call_stale st c :
  connectionCache (loop_reg st) !! companySlug = Some c ->
  readyState c <> 1%nat ->
  stepLoop env st (Call companySlug)
  = {| loop_reg := {| connectionCache :=
                        delete companySlug (connectionCache (loop_reg st));
                      created := S (created (loop_reg st)) |};
       waiting := waiting st ++ [(companySlug, created (loop_reg st))];
       returned := returned st |}.
Proof.
  intros H H1. unfold stepLoop, acquireStart. rewrite H.
  destruct (Nat.eqb_spec (readyState c) 1); [contradiction|reflexivity].
Qed.

Lemma stepLoop_resume_none st k :
  waiting st !! k = None -> stepLoop env st (Resume k) = st.
Proof. intros H. unfold stepLoop. rewrite H. reflexivity. Qed.

Lemma stepLoop_resume_head st ticket ws :
  waiting st = (companySlug, ticket) :: ws ->
  stepLoop env st (Resume 0)
  = {| loop_reg :=
         {| connectionCache :=
              <[companySlug := {| conn_id := ticket; conn_db := companySlug;
                                  readyState := 2 |}]>
                (connectionCache (loop_reg st));
            created := created (loop_reg st) |};
       waiting := ws;
       returned := returned st
                   ++ [Some {| conn_id := ticket; conn_db := companySlug;
                               readyState := 2 |}] |}.
Proof.
  intros Hw. unfold stepLoop, acquireResume. rewrite Hw. reflexivity.
Qed.

Lemma stepLoop_resume_created st k :
  created (loop_reg (stepLoop env st (Resume k))) = created (loop_reg st).
Proof.
  unfold stepLoop, acquireResume.
  destruct (waiting st !! k) as [[s t]|]; reflexivity.
Qed.

Lemma resumes_created n : forall st,
  created (loop_reg (foldl (stepLoop env) st (replicate n (Resume 0))))
  = created (loop_reg st).
Proof.
  induction n as [|n IH]; intros st; [reflexivity|].
  simpl. rewrite IH. apply stepLoop_resume_created.
Qed.

Lemma calls_created n : forall st,
  connectionCache (loop_reg st) !! companySlug = None ->
  created (loop_reg (foldl (stepLoop env) st (replicate n (Call companySlug))))
  = (created (loop_reg st) + n)%nat.
Proof.
  induction n as [|n IH]; intros st H; [simpl; lia|].
  change (foldl (stepLoop env) st (replicate (S n) (Call companySlug)))
    with (foldl (stepLoop env) (stepLoop env st (Call companySlug))
            (replicate n (Call companySlug))).
  rewrite stepLoop_call_miss by exact H. rewrite IH by exact H. simpl. lia.
Qed.

Lemma sequential_after_first n c : forall st,
  waiting st = [] ->
  connectionCache (loop_reg st) !! companySlug = Some c ->
  readyState c = 1%nat ->
  foldl (stepLoop env) st (sequentialCalls n companySlug)
  = {| loop_reg := loop_reg st; waiting := [];
       returned := returned st ++ replicate n (Some c) |}.
Proof.
  induction n as [|n IH]; intros st Hw Hc H1.
  - simpl. rewrite app_nil_r. destruct st. simpl in *. congruence.
  - change (sequentialCalls (S n) companySlug)
      with ([Call companySlug; Resume 0] ++ sequentialCalls n companySlug).
    rewrite foldl_app.
    change (foldl (stepLoop env) st [Call companySlug; Resume 0])
      with (stepLoop env (stepLoop env st (Call companySlug)) (Resume 0)).
    rewrite (stepLoop_call_hit st c Hc H1).
    rewrite stepLoop_resume_none by (simpl; rewrite Hw; reflexivity).
    rewrite IH by (simpl; assumption). simpl.
    rewrite <- app_assoc. reflexivity.
Qed.

(** One call that finds no connected connection, resumed before any other
    call starts: a connection is created and cached while connecting. *)
Lemma call_then_resume st :
  waiting st = [] ->
  (forall c, connectionCache (loop_reg st) !! companySlug = Some c ->
             readyState c <> 1%nat) ->
  let conn := {| conn_id := created (loop_reg st); conn_db := companySlug;
                 readyState := 2 |} in
  stepLoop env (stepLoop env st (Call companySlug)) (Resume 0)
  = {| loop_reg :=
         {| connectionCache :=
              <[companySlug := conn]> (connectionCache (loop_reg st));
            created := S (created (loop_reg st)) |};
       waiting := [];
       returned := returned st ++ [Some conn] |}.
Proof.
  intros Hw Hstale conn.
  destruct (connectionCache (loop_reg st) !! companySlug) as [c|] eqn:Ec.
  - rewrite (stepLoop_call_stale st c Ec (Hstale c eq_refl)).
    rewrite (stepLoop_resume_head _ (created (loop_reg st)) [])
      by (simpl; rewrite Hw; reflexivity).
    simpl. rewrite insert_delete_eq. reflexivity.
  - rewrite (stepLoop_call_miss st Ec).
    rewrite (stepLoop_resume_head _ (created (loop_reg st)) [])
      by (simpl; rewrite Hw; reflexivity).
    reflexivity.
Qed.

(** Calls that follow each other while the cached connection is not
    connected: every one of them creates a connection. *)
Lemma sequential_connecting n : forall st,
  waiting st = [] ->
  (forall c, connectionCache (loop_reg st) !! companySlug = Some c ->
             readyState c <> 1%nat) ->
  created (loop_reg (foldl (stepLoop env) st (sequentialCalls n companySlug)))
  = (created (loop_reg st) + n)%nat
  /\ returned (foldl (stepLoop env) st (sequentialCalls n companySlug))
     = returned st
       ++ ((fun k => Some {| conn_id := (created (loop_reg st) + k)%nat;
                             conn_db := companySlug; readyState := 2 |})
             <$> seq 0 n).
Proof.
  induction n as [|n IH]; intros st Hw Hstale.
  - simpl. rewrite app_nil_r. split; [lia|reflexivity].
  - change (sequentialCalls (S n) companySlug)
      with ([Call companySlug; Resume 0] ++ sequentialCalls n companySlug).
    rewrite foldl_app.
    change (foldl (stepLoop env) st [Call companySlug; Resume 0])
      with (stepLoop env (stepLoop env st (Call companySlug)) (Resume 0)).
    rewrite (call_then_resume st Hw Hstale).
    match goal with
    | |- context [foldl _ ?st1 _] => destruct (IH st1) as [Hc Hr]
    end.
    + reflexivity.
    + simpl. intros c. rewrite lookup_insert_eq. intros [= <-]. discriminate.
    + rewrite Hc, Hr. simpl. split; [lia|].
      rewrite <- app_assoc. simpl. rewrite Nat.add_0_r.
      do 2 f_equal. rewrite <- fmap_S_seq, <- list_fmap_compose.
      apply list_fmap_ext. intros _ k _. simpl.
      do 2 f_equal. lia.
Qed.

Lemma stepLoop_opened st c :
  connectionCache (loop_reg st) !! companySlug = Some c ->
  readyState c = 2%nat -> connectOk env companySlug = true ->
  stepLoop env st (Opened companySlug)
  = {| loop_reg :=
         {| connectionCache :=
              <[companySlug := opened c]> (connectionCache (loop_reg st));
            created := created (loop_reg st) |};
       waiting := waiting st; returned := returned st |}.
Proof.
  intros Hc H2 Hok. unfold stepLoop, driverOpens. rewrite Hc, H2, Hok.
  reflexivity.
Qed.

End Cache.

(** C6 (amended). For a company that is not in the cache: once the driver
    has opened the connection that a first call of getCompanyConnection
    created, any number [n] of calls that follow it without overlapping
    are given that connection, so the [n + 1] calls make exactly one
    connection.  Calls are not deduplicated while no connected connection
    is cached: [n] calls that follow each other before the driver has
    opened a connection make [n] connections, and so do [n] calls that all
    start before any of them resumes. *)
Theorem connection_shared_once_opened env reg companySlug n :
  connectionCache reg !! companySlug = None ->
  let conn st := {| conn_id := created reg; conn_db := companySlug;
                    readyState := st |} in
  (connectOk env companySlug = true ->
   created (loop_reg (runLoop env reg (firstCall companySlug
                                         ++ sequentialCalls n companySlug)))
   = S (created reg)
   /\ returned (runLoop env reg (firstCall companySlug
                                   ++ sequentialCalls n companySlug))
      = Some (conn 2%nat) :: replicate n (Some (conn 1%nat))
   /\ connectionCache
        (loop_reg (runLoop env reg (firstCall companySlug
                                      ++ sequentialCalls n companySlug)))
        !! companySlug = Some (conn 1%nat))
  /\ created (loop_reg (runLoop env reg (sequentialCalls n companySlug)))
     = (created reg + n)%nat
  /\ (fun r => conn_id <$> r)
       <$> returned (runLoop env reg (sequentialCalls n companySlug))
     = (fun k => Some (created reg + k)%nat) <$> seq 0 n
  /\ created (loop_reg (runLoop env reg (concurrentCalls n companySlug)))
     = (created reg + n)%nat.
Proof.
  intros Hmiss conn. split; [|split; [|split]].
  - intros Hok.
    assert (Hseq : runLoop env reg (firstCall companySlug
                                      ++ sequentialCalls n companySlug)
            = {| loop_reg := {| connectionCache :=
                                  <[companySlug := conn 1%nat]>
                                    (connectionCache reg);
                                created := S (created reg) |};
                 waiting := [];
                 returned := Some (conn 2%nat)
                             :: replicate n (Some (conn 1%nat)) |}).
    { unfold runLoop. rewrite foldl_app.
      change (foldl (stepLoop env)
                {| loop_reg := reg; waiting := []; returned := [] |}
                (firstCall companySlug))
        with (stepLoop env
                (stepLoop env
                   (stepLoop env
                      {| loop_reg := reg; waiting := []; returned := [] |}
                      (Call companySlug)) (Resume 0)) (Opened companySlug)).
      rewrite call_then_resume;
        [|reflexivity|simpl; intros c Hc; congruence].
      rewrite (stepLoop_opened env companySlug _ (conn 2%nat));
        [|apply lookup_insert_eq|reflexivity|exact Hok].
      rewrite (sequential_after_first env companySlug n (conn 1%nat));
        [|reflexivity|apply lookup_insert_eq|reflexivity].
      simpl. rewrite insert_insert_eq. reflexivity. }
    rewrite Hseq. simpl.
    split; [reflexivity|]. split; [reflexivity|apply lookup_insert_eq].
  - unfold runLoop.
    apply (sequential_connecting env companySlug n
             {| loop_reg := reg; waiting := []; returned := [] |});
      [reflexivity|simpl; intros c Hc; congruence].
  - unfold runLoop.
    rewrite (proj2 (sequential_connecting env companySlug n
                      {| loop_reg := reg; waiting := []; returned := [] |}
                      eq_refl
                      (fun c Hc =>
                         ltac:(simpl in Hc; congruence)))).
    simpl. rewrite <- list_fmap_compose. reflexivity.
  - unfold runLoop, concurrentCalls. rewrite foldl_app, resumes_created.
    rewrite calls_created by exact Hmiss. reflexivity.
Qed.

Lemma connection_shared_once_opened_witness :
  created (loop_reg (runLoop envOk emptyRegistry
                       (firstCall "new-tenant"
                          ++ sequentialCalls 49 "new-tenant"))) = 1%nat
  /\ created (loop_reg (runLoop envOk emptyRegistry
                          (sequentialCalls 50 "new-tenant"))) = 50%nat
  /\ created (loop_reg (runLoop envOk emptyRegistry
                          (concurrentCalls 3 "new-tenant"))) = 3%nat.
Proof.
  split; [|split].
  - apply (connection_shared_once_opened envOk emptyRegistry "new-tenant" 49);
      reflexivity.
  - apply (connection_shared_once_opened envOk emptyRegistry "new-tenant" 50).
    reflexivity.
  - apply (connection_shared_once_opened envOk emptyRegistry "new-tenant" 3).
    reflexivity.
Defined.

(** C6, as stated, fails: 50 calls of getCompanyConnection for a company
    that is not cached, all started before any of them resumes, call
    createConnection 50 times and hand 50 different connections out. *)
Lemma fifty_concurrent_calls_open_fifty_connections :
  created (loop_reg (runLoop envOk emptyRegistry
                       (concurrentCalls 50 "new-tenant"))) = 50%nat
  /\ created (loop_reg (runLoop envOk emptyRegistry
                          (concurrentCalls 50 "new-tenant"))) <> 1%nat
  /\ (fun r => conn_id <$> r)
       <$> returned (runLoop envOk emptyRegistry
                       (concurrentCalls 50 "new-tenant"))
     = (fun k => Some k) <$> seq 0 50.
Proof. vm_compute. repeat split. discriminate. Qed.

(** ** createProduct *)

Lemma validate_negative p : currentStock p < 0 -> validate p = false.
Proof.
  intros H. unfold validate.
  replace (0 <=? currentStock p) with false by (symmetry; apply Z.leb_gt; lia).
  rewrite andb_false_r. reflexivity.
Qed.

(** C8 (amended). For a request that carries a barcode and a name:
    createProduct answers DuplicateBarcode and leaves the collection as it
    is when the (trimmed) barcode is in use.  Otherwise, when the category
    named in the request, if any, can be looked up, the document passes
    the schema's validators and the write reaches the store, it appends
    one product with that barcode whose history is exactly one add
    movement of quantity initialQuantity and whose currentStock is
    initialQuantity when initialQuantity > 0, and whose history is empty
    and currentStock 0 when the quantity is 0 or absent; a negative
    initialQuantity does not pass the validators, a category that is not
    an ObjectId makes the lookup throw, and in both cases the answer is
    500 and nothing is created. *)
Theorem createProduct_contract env u (db : TenantDb) (b : CreateBody) :
  falsy (c_barcode b) = false ->
  falsy (c_name b) = false ->
  (inUse (products db) (Js.trim (default "" (c_barcode b))) ->
     createProduct env u db b = (products db, DuplicateBarcode))
  /\ (~ inUse (products db) (Js.trim (default "" (c_barcode b))) ->
      forall categoryDoc,
      lookupCategory env (categories db) (c_category b) = inr categoryDoc ->
      validate (castProduct (createDoc u categoryDoc b)) = true ->
      saveOk env = true ->
      exists p,
        createProduct env u db b
        = (products db ++ [p],
           replyProduct 201 "Product created successfully"
             (Js.trim (default "" (c_barcode b))))
        /\ barcode p = Js.trim (default "" (c_barcode b))
        /\ (forall q, c_quantity b = Some q -> 0 < q ->
              currentStock p = q
              /\ exists m, stockHistory p = [m]
                   /\ type m = add /\ quantity m = q)
        /\ (c_quantity b = None \/ c_quantity b = Some 0 ->
              currentStock p = 0 /\ stockHistory p = []))
  /\ (~ inUse (products db) (Js.trim (default "" (c_barcode b))) ->
      forall q, c_quantity b = Some q -> q < 0 ->
        createProduct env u db b
        = (products db, reply 500 "Failed to create product"))
  /\ (~ inUse (products db) (Js.trim (default "" (c_barcode b))) ->
      falsy (c_category b) = false ->
      castId env (default "" (c_category b)) = None ->
      createProduct env u db b
      = (products db, reply 500 "Failed to create product")).
Proof.
  intros Hb Hn. split; [|split; [|split]].
  - intros [[i p] Hin]. unfold createProduct. rewrite Hb, Hn. simpl.
    rewrite Hin. reflexivity.
  - intros Hfree categoryDoc Hcat Hv Hs. apply not_inUse in Hfree.
    exists (preSave (castProduct (createDoc u categoryDoc b))).
    destruct (preSave_stock (castProduct (createDoc u categoryDoc b)))
      as (Hst & Hh & Hbar).
    rewrite Hst, Hh, Hbar. simpl. rewrite trim_idem.
    split; [|split; [reflexivity|split]].
    + unfold createProduct. rewrite Hb, Hn. simpl. rewrite Hfree, Hcat.
      rewrite saveNew_ok; [|exact Hv|exact Hs|exact Hfree].
      simpl. rewrite trim_idem. reflexivity.
    + intros q Hq Hpos. rewrite Hq. simpl.
      replace (0 <? q) with true by (symmetry; apply Z.ltb_lt; exact Hpos).
      split; [reflexivity|]. eexists. split; [reflexivity|]. split; reflexivity.
    + intros [Hq|Hq]; rewrite Hq; simpl; split; reflexivity.
  - intros Hfree q Hq Hneg. apply not_inUse in Hfree.
    unfold createProduct. rewrite Hb, Hn. simpl. rewrite Hfree.
    destruct (lookupCategory _ _ _) as [e|categoryDoc]; [reflexivity|].
    unfold saveNew. rewrite validate_negative; [reflexivity|].
    simpl. rewrite Hq. exact Hneg.
  - intros Hfree Hc Hcast. apply not_inUse in Hfree.
    unfold createProduct. rewrite Hb, Hn. simpl. rewrite Hfree.
    unfold lookupCategory, findById. rewrite Hc, Hcast. reflexivity.
Qed.

Lemma createProduct_contract_witness :
  createProduct envOk elchin (tenant acmeWithB123 "acme")
    (createBody "B123" (Some 5))
  = (products (tenant acmeWithB123 "acme"), DuplicateBarcode)
  /\ (exists p,
       fst (createProduct envOk elchin (tenant acmeWithB123 "acme")
              (createBody "B200" (Some 7)))
       = products (tenant acmeWithB123 "acme") ++ [p]
       /\ currentStock p = 7
       /\ length (stockHistory p) = 1%nat)
  /\ createProduct envOk elchin (tenant acmeWithB123 "acme")
       (categoryBody "B200" "zz")
     = (products (tenant acmeWithB123 "acme"),
        reply 500 "Failed to create product").
Proof.
  split; [|split].
  - apply (proj1 (createProduct_contract envOk elchin
                    (tenant acmeWithB123 "acme") (createBody "B123" (Some 5))
                    eq_refl eq_refl)).
    vm_compute. eauto.
  - destruct (proj1 (proj2 (createProduct_contract envOk elchin
                       (tenant acmeWithB123 "acme") (createBody "B200" (Some 7))
                       eq_refl eq_refl)))
      with (categoryDoc := @None Category)
      as (p & Hrun & _ & Hpos & _).
    + apply not_inUse. vm_compute. reflexivity.
    + reflexivity.
    + vm_compute. reflexivity.
    + reflexivity.
    + destruct (Hpos 7 eq_refl) as (Hst & m & Hh & _); [lia|].
      exists p. rewrite Hrun, Hst, Hh. repeat split.
  - apply (proj2 (proj2 (proj2 (createProduct_contract envOk elchin
                    (tenant acmeWithB123 "acme") (categoryBody "B200" "zz")
                    eq_refl eq_refl)))).
    + apply not_inUse. vm_compute. reflexivity.
    + reflexivity.
    + reflexivity.
Defined.

(** C8, as stated, fails at the handler's guards.  A request for the
    barcode B123, which is in use in acme, that carries no name is answered
    400 "Barcode and name are required", not DuplicateBarcode; a request
    for the unused barcode B9 with quantity -5 is refused by the schema
    ([min: 0] on currentStock), answered 500, and creates nothing; so is a
    request for B9 that names the category zz, which is not an ObjectId. *)
Lemma createProduct_guards_come_first :
  inUse (products (tenant acmeWithB123 "acme")) "B123"
  /\ createProduct envOk elchin (tenant acmeWithB123 "acme")
       (namelessBody "B123")
     = (products (tenant acmeWithB123 "acme"),
        reply 400 "Barcode and name are required")
  /\ reply 400 "Barcode and name are required" <> DuplicateBarcode
  /\ ~ inUse (products (tenant acmeWithB123 "acme")) "B9"
  /\ createProduct envOk elchin (tenant acmeWithB123 "acme")
       (createBody "B9" (Some (-5)))
     = (products (tenant acmeWithB123 "acme"),
        reply 500 "Failed to create product")
  /\ createProduct envOk elchin (tenant acmeWithB123 "acme")
       (categoryBody "B9" "zz")
     = (products (tenant acmeWithB123 "acme"),
        reply 500 "Failed to create product").
Proof.
  split; [vm_compute; eauto|]. split; [reflexivity|].
  split; [discriminate|]. split; [apply not_inUse; reflexivity|].
  split; reflexivity.
Qed.

(** ** Every request is answered *)

Ltac answered :=
  repeat match goal with
         | |- context [match ?x with _ => _ end] => destruct x
         end;
  simpl; lia.

Lemma createProduct_answers env u db b :
  (200 <= status (snd (createProduct env u db b)))%nat.
Proof. unfold createProduct. answered. Qed.

Lemma duplicateProduct_answers env u db param :
  (200 <= status (snd (duplicateProduct env u db param)))%nat.
Proof.
  unfold duplicateProduct.
  destruct (findOne _ _) as [[i p]|]; [|simpl; lia].
  destruct (suffixLoop_total (products db) param) as (k & _ & -> & _).
  destruct (saveNew _ _ _); simpl; lia.
Qed.

Lemma addStock_answers env u db param q n s :
  (200 <= status (snd (addStock env u db param q n s)))%nat.
Proof. unfold addStock. answered. Qed.

Lemma removeStock_answers env u db param q n l :
  (200 <= status (snd (removeStock env u db param q n l)))%nat.
Proof. unfold removeStock. answered. Qed.

Lemma updateProduct_answers env db param b :
  (200 <= status (snd (updateProduct env db param b)))%nat.
Proof. unfold updateProduct. answered. Qed.

Lemma deleteProduct_answers env db param :
  (200 <= status (snd (deleteProduct env db param)))%nat.
Proof. unfold deleteProduct. answered. Qed.

Lemma transferProduct_answers env u w s param target keep :
  (200 <= status (snd (transferProduct env u w s param target keep)))%nat.
Proof.
  destruct (transferProduct_cases env u w s param target keep)
    as [[_ H]|(i & src & tb & reg1 & _ & _ & _ & _ & _ & _ & H)]; [lia|].
  simpl in H. destruct H as [[_ ->]|[(_ & _ & ->)|(_ & _ & ->)]]; simpl; lia.
Qed.

(** No request is left without an answer: the probing loops of the
    duplicate and transfer handlers end within their bound. *)
Lemma handle_answers cfg w r : (200 <= status (snd (handle cfg w r)))%nat.
Proof.
  unfold handle.
  destruct (companyMiddleware _ _ _ _ _) as [reg1 [resp|s]] eqn:E.
  - unfold companyMiddleware in E.
    destruct (negb (admits _ _ _)); [injection E as <- <-; simpl; lia|].
    destruct (getCompanyConnection _ _) as [reg2 [c|]];
      [discriminate|injection E as <- <-; simpl; lia].
  - destruct (req_route r); simpl.
    + apply createProduct_answers.
    + apply duplicateProduct_answers.
    + apply transferProduct_answers.
    + apply addStock_answers.
    + apply removeStock_answers.
    + apply updateProduct_answers.
    + apply deleteProduct_answers.
Qed.

(** * Further properties of the handlers *)

(** ** The schema's guarantees in every reachable world *)

Lemma storedOk_facts p :
  storedOk p ->
  0 <= currentStock p /\ barcode p <> "" /\ name p <> ""
  /\ Js.trim (barcode p) = barcode p /\ unit p <> "".
Proof.
  intros (Hv & Hc & Hu). apply cast_fields in Hc as (Hb & _).
  split; [exact (validate_stock _ Hv)|].
  unfold validate in Hv. rewrite !andb_true_iff in Hv.
  destruct Hv as [[[[H1 H2] _] _] _].
  apply negb_true_iff, String.eqb_neq in H1.
  apply negb_true_iff, String.eqb_neq in H2. auto.
Qed.

(** X1. Served one after the other from a world that satisfies the
    schema, the requests never produce two products with the same barcode
    in one company, a negative currentStock, a blank or untrimmed barcode,
    a blank name, or an empty unit. *)
Theorem reachable_products_keep_schema cfg w rs s :
  worldOk w ->
  NoDup (barcode <$> products (tenant (run cfg w rs) s))
  /\ forall p, p ∈ products (tenant (run cfg w rs) s) ->
       0 <= currentStock p /\ barcode p <> "" /\ name p <> ""
       /\ Js.trim (barcode p) = barcode p /\ unit p <> "".
Proof.
  intros Hw. destruct (run_worldOk cfg rs w Hw s) as [Hall Hnd].
  split; [exact Hnd|]. intros p Hp. rewrite Forall_forall in Hall.
  apply storedOk_facts, Hall, Hp.
Qed.

Lemma reachable_products_keep_schema_witness :
  NoDup (barcode <$> products (tenant (run cfg0 (emptyWorld directory) ledgerDay)
                                 "acme"))
  /\ exists p, p ∈ products (tenant (run cfg0 (emptyWorld directory) ledgerDay)
                              "acme")
       /\ 0 <= currentStock p.
Proof.
  destruct (reachable_products_keep_schema cfg0 (emptyWorld directory) ledgerDay
              "acme" (emptyWorld_ok directory)) as [Hnd Hall].
  split; [exact Hnd|].
  destruct (products (tenant (run cfg0 (emptyWorld directory) ledgerDay) "acme"))
    as [|p l] eqn:E; [vm_compute in E; discriminate|].
  exists p. split; [left|]. apply Hall. left.
Defined.

(** ** Companies are isolated from each other *)

Lemma companyMiddleware_slug cfg env reg u header reg1 s :
  companyMiddleware cfg env reg u header = (reg1, inr s) ->
  s = requestedSlug cfg header.
Proof.
  unfold companyMiddleware. destruct (negb (admits cfg u header)); [discriminate|].
  destruct (getCompanyConnection _ _) as [reg2 [c|]]; [|discriminate].
  intros [= _ <-]. reflexivity.
Qed.

Lemma transferProduct_frame env u w s param target keep s' :
  s' <> s -> s' <> default "" target ->
  tenant (fst (transferProduct env u w s param target keep)) s' = tenant w s'.
Proof.
  intros Hs Ht.
  destruct (transferProduct_cases env u w s param target keep)
    as [[Hdbs _]|(i & src & tb & reg1 & _ & _ & _ & _ & _ & _ & H)].
  - apply dbs_tenant, Hdbs.
  - simpl in H.
    destruct H as [[_ ->]|[(_ & _ & ->)|(_ & _ & ->)]]; simpl;
      rewrite ?tenant_setProducts_ne by congruence; reflexivity.
Qed.

(** X2. A request changes no database but that of the company it selects
    (by header, or the default), and, for a transfer, that of the target
    company: every other company's products and categories are exactly as
    before, whatever the request and whatever the storage does. *)
Theorem handle_leaves_other_companies cfg w r s' :
  s' <> requestedSlug cfg (req_header r) ->
  (forall param target keep,
     req_route r = PostTransfer param target keep -> s' <> default "" target) ->
  tenant (fst (handle cfg w r)) s' = tenant w s'.
Proof.
  intros Hs Ht. unfold handle.
  destruct (companyMiddleware _ _ _ _ _) as [reg1 [resp|s]] eqn:E;
    [reflexivity|].
  apply companyMiddleware_slug in E. subst s.
  destruct (req_route r) eqn:Er; simpl;
    try (rewrite tenant_setProducts_ne by congruence; reflexivity).
  rewrite transferProduct_frame; [reflexivity|exact Hs|].
  exact (Ht _ _ _ eq_refl).
Qed.

Lemma handle_leaves_other_companies_witness :
  tenant (fst (handle cfg0 acmeWithB123
                 (request elchin "globex" envOk
                    (PostProduct (createBody "G1" (Some 2)))))) "acme"
  = tenant acmeWithB123 "acme".
Proof.
  apply handle_leaves_other_companies; [discriminate|discriminate].
Defined.

(** ** Stock movements *)

Lemma findOne_unique db b i p :
  NoDup (barcode <$> db) -> db !! i = Some p -> barcode p = Js.trim b ->
  findOne db b = Some (i, p).
Proof.
  intros Hnd Hi Hb. unfold findOne. apply list_find_Some.
  split; [exact Hi|]. split; [exact Hb|].
  intros j q Hj Hlt Hq.
  assert (Hij : j = i).
  { eapply NoDup_lookup; [exact Hnd| |].
    - rewrite list_lookup_fmap, Hj. reflexivity.
    - rewrite list_lookup_fmap, Hi. simpl. congruence. }
  lia.
Qed.

Lemma positive_quantity z : 0 < z -> Js.notPositive (Some z) = false.
Proof.
  intros H. simpl.
  replace (z =? 0) with false by (symmetry; apply Z.eqb_neq; lia).
  replace (z <=? 0) with false by (symmetry; apply Z.leb_gt; lia).
  reflexivity.
Qed.

Lemma addStock_ok env u db param z n s i p :
  dbOk db -> findOne db (Js.trim param) = Some (i, p) -> 0 < z ->
  saveOk env = true ->
  addStock env u db param (Some z) n s
  = (<[i := withStock p (Js.add (currentStock p) z) (addMovement u z n s)]> db,
     replyProduct 200 ("Added " +:+ pretty z +:+ " to stock") (barcode p)).
Proof.
  intros Hdb Hf Hz Hsave.
  destruct (findOne_stored _ _ _ _ Hdb Hf) as (Hv & Hc & Hu).
  unfold addStock. rewrite positive_quantity by exact Hz. rewrite Hf.
  simpl Js.intOr0. rewrite saveAt_ok.
  - unfold preSave. simpl. destruct (decide (unit p = "")); [contradiction|].
    reflexivity.
  - apply validate_withStock; [exact Hv|]. pose proof (validate_stock _ Hv).
    apply double_nonneg. lia.
  - exact Hsave.
  - apply findOne_barcode in Hf as [Hi _].
    exact (NoDup_barcode_others _ _ _ (proj2 Hdb) Hi).
Qed.

Lemma removeStock_ok env u db param z n l i p :
  dbOk db -> findOne db (Js.trim param) = Some (i, p) ->
  0 < z <= currentStock p -> saveOk env = true ->
  removeStock env u db param (Some z) n l
  = (<[i := withStock p (Js.sub (currentStock p) z) (removeMovement u z n l)]> db,
     replyProduct 200 ("Removed " +:+ pretty z +:+ " from stock") (barcode p)).
Proof.
  intros Hdb Hf Hz Hsave.
  destruct (findOne_stored _ _ _ _ Hdb Hf) as (Hv & Hc & Hu).
  unfold removeStock. rewrite positive_quantity by lia. rewrite Hf.
  simpl Js.intOr0.
  replace (currentStock p <? z) with false by (symmetry; apply Z.ltb_ge; lia).
  rewrite saveAt_ok.
  - unfold preSave. simpl. destruct (decide (unit p = "")); [contradiction|].
    reflexivity.
  - apply validate_withStock; [exact Hv|]. apply double_nonneg. lia.
  - exact Hsave.
  - apply findOne_barcode in Hf as [Hi _].
    exact (NoDup_barcode_others _ _ _ (proj2 Hdb) Hi).
Qed.

(** X3. addStock refuses a quantity that is missing, not a number, zero or
    negative with 400 and answers 404 for a barcode that is not found, in
    both cases leaving the collection as it is; for a positive quantity
    and a product found in a well-formed collection it never refuses: the
    product is rewritten in place with one add movement appended, and
    every other product is untouched.  When the old counter plus the
    quantity is at most [2^53], the counter is raised by exactly the
    quantity and the message names the quantity. *)
Theorem addStock_contract env u db param q n s :
  (Js.notPositive q = true ->
     addStock env u db param q n s = (db, InvalidQuantity))
  /\ (Js.notPositive q = false -> findOne db (Js.trim param) = None ->
      addStock env u db param q n s = (db, NotFound))
  /\ (forall z i p,
        q = Some z -> 0 < z -> dbOk db ->
        findOne db (Js.trim param) = Some (i, p) -> saveOk env = true ->
        exists p',
          fst (addStock env u db param q n s) = <[i := p']> db
          /\ status (snd (addStock env u db param q n s)) = 200%nat
          /\ resBarcode (snd (addStock env u db param q n s))
             = Some (barcode p)
          /\ (currentStock p + z <= Js.exactUpTo ->
              currentStock p' = currentStock p + z
              /\ message (snd (addStock env u db param q n s))
                 = "Added " +:+ pretty z +:+ " to stock")
          /\ 0 <= currentStock p'
          /\ stockHistory p' = stockHistory p ++ [addMovement u z n s]
          /\ quantity (addMovement u z n s) = z
          /\ type (addMovement u z n s) = add
          /\ barcode p' = barcode p /\ name p' = name p
          /\ forall j, j <> i -> (<[i := p']> db) !! j = db !! j).
Proof.
  split; [|split].
  - intros H. unfold addStock. rewrite H. reflexivity.
  - intros H Hf. unfold addStock. rewrite H, Hf. reflexivity.
  - intros z i p -> Hz Hdb Hf Hsave.
    pose proof (validate_stock _ (proj1 (findOne_stored _ _ _ _ Hdb Hf)))
      as Hpos.
    rewrite (addStock_ok env u db param z n s i p Hdb Hf Hz Hsave).
    eexists. split; [reflexivity|]. simpl.
    split; [reflexivity|]. split; [reflexivity|].
    split; [intros Hb; split; [apply add_exact; lia|reflexivity]|].
    split; [apply double_nonneg; lia|].
    repeat split. intros j Hj.
    apply list_lookup_insert_ne. congruence.
Qed.

Lemma addStock_contract_witness :
  addStock envOk elchin [sampleProduct "B123" 10] "B123" None None None
    = ([sampleProduct "B123" 10], InvalidQuantity)
  /\ addStock envOk elchin [sampleProduct "B123" 10] "ZZZ" (Some 5) None None
     = ([sampleProduct "B123" 10], NotFound)
  /\ exists p',
       fst (addStock envOk elchin [sampleProduct "B123" 10] "B123" (Some 5)
              None None) = [p']
       /\ currentStock p' = 15.
Proof.
  assert (Hdb : dbOk [sampleProduct "B123" 10]).
  { split; [|apply NoDup_singleton]. apply Forall_singleton.
    apply sampleProduct_stored; [reflexivity|discriminate|lia]. }
  split; [|split].
  - apply (proj1 (addStock_contract envOk elchin _ "B123" None None None)).
    reflexivity.
  - apply (proj1 (proj2 (addStock_contract envOk elchin _ "ZZZ" (Some 5)
                           None None))); reflexivity.
  - destruct (proj2 (proj2 (addStock_contract envOk elchin
                              [sampleProduct "B123" 10] "B123" (Some 5)
                              None None))
                5 0%nat (sampleProduct "B123" 10) eq_refl)
      as (p' & Hrun & _ & _ & Hst & _);
      [lia|exact Hdb|reflexivity|reflexivity|].
    exists p'. split; [exact Hrun|]. apply Hst. vm_compute. discriminate.
Defined.

(** X4. Adding a quantity to a product and then removing the same quantity
    succeeds and brings the counter back to where it was, provided the
    counter plus the quantity is at most [2^53]; the history keeps both
    movements, in that order, after the old ones, and the collection keeps
    its length. *)
Theorem addStock_then_removeStock env u db param z n s n' l i p :
  dbOk db -> findOne db (Js.trim param) = Some (i, p) -> 0 < z ->
  currentStock p + z <= Js.exactUpTo ->
  saveOk env = true ->
  exists p2,
    removeStock env u (fst (addStock env u db param (Some z) n s)) param
      (Some z) n' l
    = (<[i := p2]> db,
       replyProduct 200 ("Removed " +:+ pretty z +:+ " from stock") (barcode p))
    /\ currentStock p2 = currentStock p
    /\ stockHistory p2
       = stockHistory p ++ [addMovement u z n s; removeMovement u z n' l].
Proof.
  intros Hdb Hf Hz Hb Hsave.
  pose proof (validate_stock _ (proj1 (findOne_stored _ _ _ _ Hdb Hf))) as Hpos.
  rewrite (addStock_ok env u db param z n s i p Hdb Hf Hz Hsave). simpl fst.
  rewrite (add_exact (currentStock p) z) by lia.
  set (p1 := withStock p (currentStock p + z) (addMovement u z n s)).
  assert (Hi : db !! i = Some p) by (apply (findOne_barcode _ _ _ _ Hf)).
  assert (Hdb1 : dbOk (<[i := p1]> db)).
  { pose proof (addStock_dbOk env u db param (Some z) n s Hdb) as H.
    rewrite (addStock_ok env u db param z n s i p Hdb Hf Hz Hsave) in H.
    rewrite (add_exact (currentStock p) z) in H by lia.
    exact H. }
  assert (Hf1 : findOne (<[i := p1]> db) (Js.trim param) = Some (i, p1)).
  { apply findOne_unique; [exact (proj2 Hdb1)| |].
    - apply list_lookup_insert_eq. exact (lookup_lt_Some _ _ _ Hi).
    - apply (findOne_barcode _ _ _ _ Hf). }
  rewrite (removeStock_ok env u _ param z n' l i p1 Hdb1 Hf1);
    [|unfold p1; simpl; lia|exact Hsave].
  eexists. split.
  - rewrite list_insert_insert_eq. reflexivity.
  - unfold p1. simpl. split; [rewrite sub_exact; lia|].
    rewrite <- app_assoc. reflexivity.
Qed.

Lemma addStock_then_removeStock_witness :
  exists p2,
    fst (removeStock envOk elchin
           (fst (addStock envOk elchin [sampleProduct "B123" 10] "B123"
                   (Some 7) None None)) "B123" (Some 7) None None) = [p2]
    /\ currentStock p2 = 10
    /\ length (stockHistory p2) = 3%nat.
Proof.
  assert (Hdb : dbOk [sampleProduct "B123" 10]).
  { split; [|apply NoDup_singleton]. apply Forall_singleton.
    apply sampleProduct_stored; [reflexivity|discriminate|lia]. }
  destruct (addStock_then_removeStock envOk elchin [sampleProduct "B123" 10]
              "B123" 7 None None None None 0%nat (sampleProduct "B123" 10)
              Hdb eq_refl) as (p2 & Hrun & Hst & Hh);
    [lia|vm_compute; discriminate|reflexivity|].
  exists p2. rewrite Hrun, Hst, Hh. repeat split.
Defined.

(** ** Delete, update, duplicate, create *)

Lemma delete_elem_of db i p :
  NoDup (barcode <$> db) -> db !! i = Some p ->
  forall q, q ∈ delete i db <-> q ∈ db /\ q <> p.
Proof.
  intros Hnd Hi q.
  pose proof (NoDup_barcode_others _ _ _ Hnd Hi) as Hfree.
  apply list_find_barcode_None in Hfree.
  split.
  - intros Hq. split.
    + exact (list_elem_of_delete_inv _ _ _ Hq).
    + intros ->. apply Hfree. apply list_elem_of_fmap. eauto.
  - intros [Hq Hne]. rewrite (delete_Permutation _ _ _ Hi) in Hq.
    apply elem_of_cons in Hq as [->|Hq]; [contradiction|exact Hq].
Qed.

(** X5. deleteProduct answers 404 for a barcode that is not found and 500
    when the delete throws, leaving the collection as it is; when it
    succeeds on a well-formed collection, the barcode is no longer found
    and the collection holds exactly the other products. *)
Theorem deleteProduct_contract env db param :
  (findOne db (Js.trim param) = None ->
     deleteProduct env db param = (db, NotFound))
  /\ (forall i p, findOne db (Js.trim param) = Some (i, p) ->
        deleteOk env = false ->
        deleteProduct env db param = (db, reply 500 "Failed to delete product"))
  /\ (forall i p, dbOk db -> findOne db (Js.trim param) = Some (i, p) ->
        deleteOk env = true ->
        deleteProduct env db param
        = (delete i db, reply 200 "Product deleted successfully")
        /\ findOne (delete i db) (Js.trim param) = None
        /\ forall q, q ∈ delete i db <-> q ∈ db /\ q <> p).
Proof.
  split; [|split].
  - intros Hf. unfold deleteProduct. rewrite Hf. reflexivity.
  - intros i p Hf Hd. unfold deleteProduct, findByIdAndDelete.
    rewrite Hf, Hd. reflexivity.
  - intros i p Hdb Hf Hd. destruct (findOne_barcode _ _ _ _ Hf) as [Hi Hb].
    split; [|split].
    + unfold deleteProduct, findByIdAndDelete. rewrite Hf, Hd. reflexivity.
    + unfold findOne. rewrite <- Hb.
      exact (NoDup_barcode_others _ _ _ (proj2 Hdb) Hi).
    + exact (delete_elem_of _ _ _ (proj2 Hdb) Hi).
Qed.

Lemma deleteProduct_contract_witness :
  deleteProduct envOk [sampleProduct "A" 1; sampleProduct "B" 2] "B"
  = ([sampleProduct "A" 1], reply 200 "Product deleted successfully")
  /\ findOne [sampleProduct "A" 1] (Js.trim "B") = None.
Proof.
  assert (Hdb : dbOk [sampleProduct "A" 1; sampleProduct "B" 2]).
  { split.
    - repeat constructor;
        (apply sampleProduct_stored; [reflexivity|discriminate|lia]).
    - simpl. apply NoDup_cons. split; [|apply NoDup_singleton].
      intros H. apply list_elem_of_singleton in H. discriminate. }
  destruct (proj2 (proj2 (deleteProduct_contract envOk
              [sampleProduct "A" 1; sampleProduct "B" 2] "B"))
              1%nat (sampleProduct "B" 2) Hdb eq_refl eq_refl) as (H1 & H2 & _).
  split; [exact H1|exact H2].
Defined.

Lemma updateDoc_stock categoryDoc param b p :
  currentStock (preSave (updateDoc categoryDoc param b p)) = currentStock p
  /\ stockHistory (preSave (updateDoc categoryDoc param b p))
     = stockHistory p.
Proof.
  destruct (preSave_stock (updateDoc categoryDoc param b p)) as (-> & -> & _).
  split; reflexivity.
Qed.

(** X6. updateProduct never changes the currentStock or the stockHistory
    of any product, nor the number of products.  Renaming a product to a
    barcode that another lookup finds is refused with 400 and changes
    nothing.  When a rename succeeds on a well-formed collection, the
    product is found under the new barcode, at the same place and with the
    same counter and history, and no longer under the old one. *)
Theorem updateProduct_contract env db param b :
  (fun p => (currentStock p, stockHistory p)) <$> fst (updateProduct env db param b)
  = (fun p => (currentStock p, stockHistory p)) <$> products db
  /\ (forall i p nb j q,
        findOne (products db) (Js.trim param) = Some (i, p) ->
        u_newBarcode b = Some nb -> Js.trim nb <> Js.trim param ->
        findOne (products db) (Js.trim nb) = Some (j, q) ->
        updateProduct env db param b
        = (products db, reply 400 "A product with this barcode already exists"))
  /\ (forall i p nb,
        dbOk (products db) ->
        findOne (products db) (Js.trim param) = Some (i, p) ->
        u_newBarcode b = Some nb -> Js.trim nb <> Js.trim param ->
        status (snd (updateProduct env db param b)) = 200%nat ->
        exists p',
          findOne (fst (updateProduct env db param b)) (Js.trim nb)
          = Some (i, p')
          /\ barcode p' = Js.trim nb
          /\ currentStock p' = currentStock p
          /\ stockHistory p' = stockHistory p
          /\ findOne (fst (updateProduct env db param b)) (Js.trim param)
             = None).
Proof.
  split; [|split].
  - destruct (updateProduct_cases env db param b)
      as [->|(i & p & cd & db' & Ef & _ & E & ->)]; [reflexivity|]. simpl.
    apply saveAt_inr in E as (_ & _ & _ & ->).
    rewrite list_fmap_insert.
    destruct (updateDoc_stock cd param b p) as [-> ->].
    apply list_insert_id. rewrite list_lookup_fmap.
    rewrite (proj1 (findOne_barcode _ _ _ _ Ef)). reflexivity.
  - intros i p nb j q Hf Hnb Hne Hq. unfold updateProduct.
    rewrite Hf, Hnb, Hq.
    rewrite bool_decide_eq_false_2 by exact Hne.
    rewrite bool_decide_eq_true_2 by eauto. reflexivity.
  - intros i p nb Hdb Hf Hnb Hne.
    destruct (updateProduct_cases env db param b)
      as [Hsame|(i' & p0 & cd & db' & Ef & _ & E & Hrun)].
    { intros H200. exfalso. revert Hsame H200. unfold updateProduct.
      rewrite Hf, Hnb. rewrite bool_decide_eq_false_2 by exact Hne. simpl.
      destruct (bool_decide _); [simpl; discriminate|].
      match goal with |- context [match ?f with inl _ => _ | inr _ => _ end] =>
        destruct f as [e|categoryDoc] end; [simpl; discriminate|].
      destruct (saveAt _ _ _ _) as [e|db'] eqn:E; [simpl; discriminate|].
      simpl. intros -> _.
      apply saveAt_inr in E as (_ & _ & _ & E).
      apply (f_equal (fun l => barcode <$> l !! i)) in E.
      rewrite list_lookup_insert_eq in E
        by exact (findOne_lt _ _ _ _ Hf).
      rewrite (proj1 (findOne_barcode _ _ _ _ Hf)) in E. simpl in E.
      injection E as E.
      destruct (preSave_stock (updateDoc categoryDoc param b p))
        as (_ & _ & Hbar). rewrite Hbar in E. simpl in E.
      rewrite Hnb in E. rewrite bool_decide_eq_false_2 in E by exact Hne.
      rewrite trim_idem, (proj2 (findOne_barcode _ _ _ _ Hf)), trim_idem in E.
      congruence. }
    rewrite Hrun. simpl. intros _.
    rewrite Hf in Ef. injection Ef as <- <-.
    destruct (findOne_barcode _ _ _ _ Hf) as [Hi Hb].
    destruct (findOne_stored _ _ _ _ Hdb Hf) as (_ & Hc & _).
    pose proof (saveAt_dbOk _ _ _ _ _ Hdb (findOne_lt _ _ _ _ Hf)
                  (updateDoc_cast cd param b p Hc) E) as Hdb'.
    apply saveAt_inr in E as (_ & _ & _ & ->).
    set (p' := preSave (updateDoc cd param b p)) in *.
    assert (Hbar : barcode p' = Js.trim nb).
    { unfold p'. destruct (preSave_stock (updateDoc cd param b p))
        as (_ & _ & ->).
      simpl. rewrite Hnb. rewrite bool_decide_eq_false_2 by exact Hne.
      apply trim_idem. }
    assert (Hi' : <[i := p']> (products db) !! i = Some p').
    { apply list_lookup_insert_eq. exact (lookup_lt_Some _ _ _ Hi). }
    exists p'. split; [|split; [exact Hbar|]].
    + apply findOne_unique; [exact (proj2 Hdb')|exact Hi'|].
      rewrite Hbar. symmetry. apply trim_idem.
    + destruct (updateDoc_stock cd param b p) as [H1 H2].
      split; [exact H1|]. split; [exact H2|].
      apply findOne_None. rewrite trim_idem. intros Hin.
      apply list_elem_of_fmap in Hin as (q & Hq & Hin).
      apply list_elem_of_lookup in Hin as [j Hj].
      destruct (decide (j = i)) as [->|Hji].
      * rewrite Hi' in Hj. injection Hj as <-. congruence.
      * rewrite list_lookup_insert_ne in Hj by congruence.
        apply Hji. eapply NoDup_lookup; [exact (proj2 Hdb)| |].
        -- rewrite list_lookup_fmap, Hj. reflexivity.
        -- rewrite list_lookup_fmap, Hi. simpl. f_equal.
           rewrite Hb, trim_idem. exact Hq.
Qed.

Lemma twoProducts_ok : dbOk (products twoProducts).
Proof.
  split.
  - repeat constructor;
      (apply sampleProduct_stored; [reflexivity|discriminate|lia]).
  - simpl. apply NoDup_cons. split; [|apply NoDup_singleton].
    intros H. apply list_elem_of_singleton in H. discriminate.
Qed.

Lemma updateProduct_contract_witness :
  updateProduct envOk twoProducts "A" (renameBody "B")
  = (products twoProducts,
     reply 400 "A product with this barcode already exists")
  /\ exists p',
       findOne (fst (updateProduct envOk twoProducts "A" (renameBody " C ")))
         (Js.trim " C ") = Some (0%nat, p')
       /\ barcode p' = "C" /\ currentStock p' = 1
       /\ findOne (fst (updateProduct envOk twoProducts "A" (renameBody " C ")))
            (Js.trim "A") = None.
Proof.
  split.
  - apply (proj1 (proj2 (updateProduct_contract envOk twoProducts "A"
                           (renameBody "B")))
             0%nat (sampleProduct "A" 1) "B" 1%nat (sampleProduct "B" 2));
      [reflexivity|reflexivity|discriminate|reflexivity].
  - destruct (proj2 (proj2 (updateProduct_contract envOk twoProducts "A"
                              (renameBody " C ")))
                0%nat (sampleProduct "A" 1) " C " twoProducts_ok)
      as (p' & H1 & H2 & H3 & _ & H5);
      [reflexivity|reflexivity|discriminate|reflexivity|].
    exists p'. repeat split; assumption.
Defined.

Lemma duplicateDoc_valid u param nb src :
  storedOk src -> Js.trim nb <> "" ->
  validate (castProduct (duplicateDoc u param nb src)) = true.
Proof.
  intros (Hv & Hc & _) Hnb.
  apply cast_fields in Hc as (_ & Hn & _).
  unfold validate in *. simpl. rewrite Hn.
  rewrite !andb_true_iff in *. destruct Hv as [[[[_ H2] H3] H4] H5].
  repeat split; try assumption.
  apply negb_true_iff, String.eqb_neq. exact Hnb.
Qed.

(** X7. duplicateProduct, for a product found in a well-formed collection
    and a write that reaches the store, always succeeds: it appends one
    product and changes no other.  The copy's barcode is the first of
    param(1), param(2), ... that is not in use; its descriptive fields,
    category and currentStock are the original's; its history is one add
    entry of the whole stock noted "Duplicated from <param>" when the stock
    is positive and empty when the stock is 0, so that the copy's counter
    equals the signed sum of its history. *)
Theorem duplicateProduct_contract env u (db : TenantDb) param i src :
  dbOk (products db) ->
  findOne (products db) (Js.trim param) = Some (i, src) ->
  saveOk env = true ->
  exists k copy,
    (1 <= k)%nat
    /\ duplicateProduct env u db param
       = (products db ++ [copy],
          replyProduct 201 "Product duplicated successfully" (barcode copy))
    /\ barcode copy = Js.trim (suffixed param k)
    /\ ~ inUse (products db) (suffixed param k)
    /\ (forall j, (1 <= j < k)%nat -> inUse (products db) (suffixed param j))
    /\ name copy = name src /\ note copy = note src
    /\ buyingPrice copy = buyingPrice src
    /\ sellingPrice copy = sellingPrice src
    /\ boughtFrom copy = boughtFrom src /\ sellLocation copy = sellLocation src
    /\ imageUrl copy = imageUrl src /\ unit copy = unit src
    /\ category copy = category src /\ categoryName copy = categoryName src
    /\ currentStock copy = currentStock src
    /\ stockHistory copy
       = (if 0 <? currentStock src then
            [ {| quantity := currentStock src; type := add;
                 h_note := "Duplicated from " +:+ param;
                 supplier := ""; location := "";
                 addedBy := Some (user_id u); addedByName := fullName u |} ]
          else [])
    /\ ledgerOk copy.
Proof.
  intros Hdb Hf Hsave.
  pose proof (findOne_stored _ _ _ _ Hdb Hf) as Hsrc.
  destruct (suffixLoop_total (products db) param)
    as (k & Hk & Hloop & Hfree & Hused).
  exists k, (preSave (castProduct (duplicateDoc u param (suffixed param k) src))).
  split; [exact Hk|].
  assert (Hpre : preSave (castProduct (duplicateDoc u param (suffixed param k) src))
                 = castProduct (duplicateDoc u param (suffixed param k) src)).
  { unfold preSave. simpl.
    destruct Hsrc as (_ & Hc & Hu). apply cast_fields in Hc as (_ & _ & _ & _ & H5).
    rewrite H5. destruct (decide (unit src = "")); [contradiction|reflexivity]. }
  rewrite Hpre. simpl.
  destruct Hsrc as (Hv & Hc & Hu).
  pose proof (proj1 (cast_fields _) Hc) as (H1 & H2 & H3 & H4 & H5).
  split.
  { unfold duplicateProduct. rewrite Hf, Hloop.
    rewrite saveNew_ok, Hpre; [reflexivity| |exact Hsave|exact Hfree].
    apply duplicateDoc_valid; [repeat split; assumption|].
    apply trim_suffixed_nonempty. }
  split; [reflexivity|]. split; [apply not_inUse; exact Hfree|].
  split; [exact Hused|].
  repeat (split; [first [assumption|reflexivity]|]).
  apply duplicateDoc_ledger. simpl. exact (validate_stock _ Hv).
Qed.

Lemma duplicateProduct_contract_witness :
  exists copy,
    fst (duplicateProduct envOk elchin twoProducts "A")
    = products twoProducts ++ [copy]
    /\ barcode copy = "A(1)" /\ currentStock copy = 1
    /\ category copy = Some "aaaaaaaaaaaaaaaaaaaaaac1".
Proof.
  destruct (duplicateProduct_contract envOk elchin twoProducts "A" 0%nat
              (sampleProduct "A" 1) twoProducts_ok eq_refl eq_refl)
    as (k & copy & Hk & Hrun & Hbar & Hfree & Hused & _ & _ & _ & _ & _ & _
        & _ & _ & Hcat & _ & Hst & _).
  assert (k = 1%nat) as ->.
  { destruct k as [|[|k]]; [lia|reflexivity|].
    exfalso. destruct (Hused 1%nat) as [x Hx]; [lia|]. vm_compute in Hx.
    discriminate. }
  exists copy. rewrite Hrun. repeat split; assumption.
Defined.

(** X8. A product that createProduct has just created is found under its
    barcode, at the end of the collection, and a second create request for
    the same barcode (carrying a name) is answered DuplicateBarcode and
    changes nothing. *)
Theorem createProduct_then_found env u db b db' r :
  createProduct env u db b = (db', r) ->
  status r = 201%nat ->
  exists p,
    db' = products db ++ [p]
    /\ findOne db' (default "" (c_barcode b)) = Some (length (products db), p)
    /\ forall env' u' b',
         c_barcode b' = c_barcode b -> falsy (c_name b') = false ->
         createProduct env' u' {| products := db'; categories := categories db |} b'
         = (db', DuplicateBarcode).
Proof.
  unfold createProduct at 1.
  destruct (falsy (c_barcode b) || falsy (c_name b)) eqn:Eg;
    [intros [= <- <-]; discriminate|].
  destruct (findOne _ _) as [x|] eqn:Ef; [intros [= <- <-]; discriminate|].
  destruct (lookupCategory _ _ _) as [e|categoryDoc];
    [intros [= <- <-]; discriminate|].
  destruct (saveNew _ _ _) as [e|l] eqn:Es; intros [= <- <-]; [discriminate|].
  intros _. apply saveNew_inr in Es as (_ & _ & _ & ->).
  set (p := preSave (castProduct (createDoc u categoryDoc b))).
  assert (Hbar : barcode p = Js.trim (default "" (c_barcode b))).
  { unfold p. destruct (preSave_stock (castProduct (createDoc u categoryDoc b)))
      as (_ & _ & ->). simpl. apply trim_idem. }
  assert (Hfound : findOne (products db ++ [p]) (default "" (c_barcode b))
                   = Some (length (products db), p)).
  { unfold findOne in *. rewrite trim_idem in Ef.
    rewrite list_find_app_r by exact Ef. simpl.
    destruct (decide (barcode p = Js.trim (default "" (c_barcode b))));
      [|contradiction].
    simpl. reflexivity. }
  exists p. split; [reflexivity|]. split; [exact Hfound|].
  intros env' u' b' Hb' Hn'. unfold createProduct. simpl.
  apply orb_false_iff in Eg as [Eb _]. rewrite Hb', Eb, Hn'. simpl.
  unfold findOne in *. rewrite trim_idem, Hfound. reflexivity.
Qed.

Lemma createProduct_then_found_witness :
  exists p,
    findOne (fst (createProduct envOk elchin twoProducts
                    (createBody " N7 " (Some 3)))) " N7 "
    = Some (2%nat, p)
    /\ barcode p = "N7".
Proof.
  destruct (createProduct envOk elchin twoProducts (createBody " N7 " (Some 3)))
    as [db' r] eqn:E.
  assert (Hst : status r = 201%nat).
  { apply (f_equal snd) in E. vm_compute in E. subst r. reflexivity. }
  destruct (createProduct_then_found _ _ _ _ _ _ E Hst) as (p & Hdb & Hf & _).
  exists p. simpl in *. split; [exact Hf|].
  apply (findOne_barcode _ _ _ _ Hf).
Defined.

(** ** Admission and refusals *)

Lemma hasAccessTo_spec u s :
  hasAccessTo u s = true <->
  exists l ca, companyAccess u = Some l /\ ca ∈ l /\ companySlug ca = s.
Proof.
  unfold hasAccessTo. destruct (companyAccess u) as [l|].
  - rewrite existsb_exists. split.
    + intros (ca & Hin & Hca). apply bool_decide_eq_true in Hca.
      exists l, ca. split; [reflexivity|]. split; [|exact Hca].
      apply list_elem_of_In. exact Hin.
    + intros (l' & ca & [= <-] & Hin & Hca). exists ca.
      split; [apply list_elem_of_In; exact Hin|].
      apply bool_decide_eq_true. exact Hca.
  - split; [discriminate|]. intros (l & ca & H & _). discriminate.
Qed.

Lemma setRegistry_same w : setRegistry w (registry w) = w.
Proof. destruct w. reflexivity. Qed.

(** X9. The company middleware lets a request through exactly when the
    principal is a super-admin, or has a grant for the company the request
    selects, or has no grant at all.  A request it turns down is answered
    403 before any connection is looked up or opened: the whole world,
    connection cache included, is left as it was. *)
Theorem companyMiddleware_admission cfg w r :
  (admits cfg (req_user r) (req_header r) = true <->
     isSuperAdmin (req_user r) = true
     \/ (exists l ca, companyAccess (req_user r) = Some l /\ ca ∈ l
           /\ companySlug ca = requestedSlug cfg (req_header r))
     \/ companyAccess (req_user r) = None
     \/ companyAccess (req_user r) = Some [])
  /\ (admits cfg (req_user r) (req_header r) = false ->
      handle cfg w r = (w, AccessDenied)).
Proof.
  split.
  - unfold admits. destruct (isSuperAdmin (req_user r)); simpl.
    { split; auto. }
    destruct (hasAccessTo (req_user r) (requestedSlug cfg (req_header r)))
      eqn:Eh; simpl.
    { split; [|reflexivity]. intros _. right. left.
      apply hasAccessTo_spec. exact Eh. }
    unfold legacyAccess. destruct (companyAccess (req_user r)) as [[|ca l]|] eqn:Ec;
      simpl.
    + split; auto.
    + split; [discriminate|].
      intros [H|[H|[H|H]]]; try discriminate.
      rewrite <- Ec in H. apply hasAccessTo_spec in H. congruence.
    + split; auto.
  - intros H. unfold handle, companyMiddleware. rewrite H. simpl.
    rewrite setRegistry_same. reflexivity.
Qed.

Lemma companyMiddleware_admission_witness :
  handle cfg0 acmeWithB123
    (request elchin "barcode" envOk (DeleteProduct "B123"))
  = (acmeWithB123, AccessDenied).
Proof.
  apply (proj2 (companyMiddleware_admission cfg0 acmeWithB123
                  (request elchin "barcode" envOk (DeleteProduct "B123")))).
  reflexivity.
Defined.

(** X10. The transfer handler has no fallback for principals without
    grants: a principal that is not a super-admin and has no grant for the
    target company is refused (403, or 400 when the target is the company
    of the request), and a target of ASCII characters that, trimmed and in
    lower case, is not the slug of an active company of the master
    directory is refused with 404.  Every refusal comes before the target connection is opened and
    before any write: the world is left exactly as it was.  The grants and
    the request's own company are compared with the target as it is
    written. *)
Theorem transfer_refusals env u w s param t keep :
  t <> "" ->
  (isSuperAdmin u = false -> hasAccessTo u t = false ->
     transferProduct env u w s param (Some t) keep
     = (w, if bool_decide (t = s)
           then reply 400 "Cannot transfer to the same company"
           else reply 403 "No access to target company"))
  /\ (isSuperAdmin u = false -> legacyAccess u = true ->
      hasAccessTo u t = false)
  /\ (Js.isAscii t = true -> t <> s ->
      isSuperAdmin u = true \/ hasAccessTo u t = true ->
      (forall c, c ∈ companies w -> slug c = Js.toLowerCase (Js.trim t) ->
                 isActive c = false) ->
      transferProduct env u w s param (Some t) keep
      = (w, reply 404 "Target company not found"))
  /\ (Js.isAscii t = true -> t <> s ->
      isSuperAdmin u = true \/ hasAccessTo u t = true ->
      forall c, c ∈ companies w -> slug c = Js.toLowerCase (Js.trim t) ->
                isActive c = true ->
      transferProduct env u w s param (Some t) keep
      <> (w, reply 404 "Target company not found")).
Proof.
  intros Ht.
  assert (Hfalsy : falsy (Some t) = false).
  { simpl. apply bool_decide_eq_false. exact Ht. }
  split; [|split; [|split]].
  - intros Hs Ha. unfold transferProduct. rewrite Hfalsy. simpl.
    destruct (bool_decide (t = s)); [reflexivity|].
    rewrite Hs, Ha. reflexivity.
  - intros _. unfold legacyAccess, hasAccessTo.
    destruct (companyAccess u) as [[|ca l]|]; [reflexivity|discriminate|reflexivity].
  - intros _ Hts Hacc Hdead. unfold transferProduct. rewrite Hfalsy. simpl.
    rewrite bool_decide_eq_false_2 by exact Hts.
    replace (negb (isSuperAdmin u) && negb (hasAccessTo u t)) with false
      by (destruct Hacc as [-> | ->]; [reflexivity|symmetry; apply andb_false_r]).
    replace (findCompany (companies w) t) with (@None Company); [reflexivity|].
    symmetry. unfold findCompany.
    destruct (List.find _ _) as [c|] eqn:E; [|reflexivity].
    apply find_some in E as [Hin Hc]. apply andb_true_iff in Hc as [H1 H2].
    apply bool_decide_eq_true in H1.
    rewrite (Hdead c (proj2 (list_elem_of_In _ _) Hin) H1) in H2. discriminate.
  - intros _ Hts Hacc c Hin Hslug Hactive. unfold transferProduct.
    rewrite Hfalsy. simpl.
    rewrite bool_decide_eq_false_2 by exact Hts.
    replace (negb (isSuperAdmin u) && negb (hasAccessTo u t)) with false
      by (destruct Hacc as [-> | ->]; [reflexivity|symmetry; apply andb_false_r]).
    destruct (findCompany (companies w) t) as [c'|] eqn:E.
    + destruct (findOne _ _) as [[i src]|]; [|intros [= _ H]; discriminate].
      destruct (getCompanyConnection _ _) as [reg1 [conn|]];
        [|intros [= _ H]; discriminate].
      destruct (generateUniqueBarcode _ _) as [tb|];
        [|intros [= _ H]; discriminate].
      destruct (saveNew _ _ _) as [e|db']; [intros [= _ H]; discriminate|].
      destruct (negb keep); [|intros [= _ H]; discriminate].
      destruct (deleteOne _ _ _); intros [= _ H]; discriminate.
    + exfalso. unfold findCompany in E.
      pose proof (find_none _ _ E c (proj1 (list_elem_of_In _ _) Hin)) as Hn.
      simpl in Hn. rewrite Hslug, Hactive in Hn.
      rewrite bool_decide_eq_true_2 in Hn by reflexivity. discriminate.
Qed.

Lemma transfer_refusals_witness :
  transferProduct envOk legacyUser acmeWithB123 "acme" "B123" (Some "globex")
    false
  = (acmeWithB123, reply 403 "No access to target company")
  /\ transferProduct envOk elchin acmeWithB123 "acme" "B123" (Some "nowhere")
       false
     = (acmeWithB123, reply 403 "No access to target company")
  /\ transferProduct envOk root acmeWithB123 "acme" "B123" (Some "nowhere")
       false
     = (acmeWithB123, reply 404 "Target company not found")
  /\ transferProduct envOk root acmeWithB123 "acme" "B123" (Some "GLOBEX")
       true
     <> (acmeWithB123, reply 404 "Target company not found").
Proof.
  split; [|split; [|split]].
  - apply (proj1 (transfer_refusals envOk legacyUser acmeWithB123 "acme" "B123"
                    "globex" false ltac:(discriminate))); reflexivity.
  - apply (proj1 (transfer_refusals envOk elchin acmeWithB123 "acme" "B123"
                    "nowhere" false ltac:(discriminate))); reflexivity.
  - apply (proj1 (proj2 (proj2 (transfer_refusals envOk root acmeWithB123
                                  "acme" "B123" "nowhere" false
                                  ltac:(discriminate))))).
    + reflexivity.
    + discriminate.
    + left. reflexivity.
    + intros c Hc Hs. change (companies acmeWithB123) with directory in Hc.
      unfold directory in Hc. rewrite !elem_of_cons in Hc.
      destruct Hc as [->|[->|[->|Hc]]];
        [vm_compute in Hs; discriminate..|].
      apply elem_of_nil in Hc. contradiction.
  - apply (proj2 (proj2 (proj2 (transfer_refusals envOk root acmeWithB123
                                  "acme" "B123" "GLOBEX" true
                                  ltac:(discriminate))))
             eq_refl ltac:(discriminate) (or_introl eq_refl)
             {| slug := "globex"; isActive := true |}).
    + change (companies acmeWithB123) with directory. unfold directory.
      rewrite !elem_of_cons. auto.
    + reflexivity.
    + reflexivity.
Defined.

(** ** The connection cache: one call, shutdown, health *)

Lemma getCompanyConnection_some reg s reg' c :
  getCompanyConnection reg s = (reg', Some c) ->
  connectionCache reg' !! s = Some c.
Proof.
  unfold getCompanyConnection, acquireStart, acquireResume.
  destruct (connectionCache reg !! s) as [c0|] eqn:E.
  - destruct (Nat.eqb_spec (readyState c0) 1) as [H1|H1].
    + intros [= <- <-]. exact E.
    + simpl. intros [= <- <-]. simpl. apply lookup_insert_eq.
  - simpl. intros [= <- <-]. simpl. apply lookup_insert_eq.
Qed.

(** The call always returns a connection. *)
Lemma getCompanyConnection_total reg s :
  exists c, snd (getCompanyConnection reg s) = Some c.
Proof.
  unfold getCompanyConnection, acquireStart, acquireResume.
  destruct (connectionCache reg !! s) as [c0|].
  - destruct (Nat.eqb (readyState c0) 1); simpl; eauto.
  - simpl. eauto.
Qed.

Lemma getCompanyConnection_others reg s s' :
  s' <> s ->
  connectionCache (fst (getCompanyConnection reg s)) !! s'
  = connectionCache reg !! s'.
Proof.
  intros Hne. unfold getCompanyConnection, acquireStart, acquireResume.
  destruct (connectionCache reg !! s) as [c0|] eqn:E.
  - destruct (Nat.eqb (readyState c0) 1); [reflexivity|]. simpl.
    rewrite lookup_insert_ne, lookup_delete_ne by congruence. reflexivity.
  - simpl. rewrite lookup_insert_ne by congruence. reflexivity.
Qed.

Lemma getCompanyConnection_hit reg s c :
  connectionCache reg !! s = Some c -> readyState c = 1%nat ->
  getCompanyConnection reg s = (reg, Some c).
Proof.
  intros Hc H1. unfold getCompanyConnection, acquireStart.
  rewrite Hc, H1. reflexivity.
Qed.

Lemma getCompanyConnection_miss reg s :
  (forall c, connectionCache reg !! s = Some c -> readyState c <> 1%nat) ->
  getCompanyConnection reg s
  = ({| connectionCache :=
          <[s := {| conn_id := created reg; conn_db := s; readyState := 2 |}]>
            (connectionCache reg);
        created := S (created reg) |},
     Some {| conn_id := created reg; conn_db := s; readyState := 2 |}).
Proof.
  intros H. unfold getCompanyConnection, acquireStart, acquireResume.
  destruct (connectionCache reg !! s) as [c|] eqn:E.
  - destruct (Nat.eqb_spec (readyState c) 1) as [H1|_].
    + exfalso. exact (H c eq_refl H1).
    + simpl. rewrite insert_delete_eq. reflexivity.
  - reflexivity.
Qed.

Lemma driverOpens_others env reg s s' :
  s' <> s ->
  connectionCache (driverOpens env reg s) !! s' = connectionCache reg !! s'.
Proof.
  intros Hne. unfold driverOpens.
  destruct (connectionCache reg !! s) as [c|]; [|reflexivity].
  destruct (Nat.eqb (readyState c) 2 && connectOk env s); [|reflexivity].
  simpl. apply lookup_insert_ne. congruence.
Qed.

Lemma driverOpens_connecting env reg s c :
  connectionCache reg !! s = Some c -> readyState c = 2%nat ->
  connectionCache (driverOpens env reg s) !! s
  = Some (if connectOk env s then opened c else c).
Proof.
  intros Hc H2. unfold driverOpens. rewrite Hc, H2. simpl.
  destruct (connectOk env s); simpl; [apply lookup_insert_eq|exact Hc].
Qed.

(** X11. One call of getCompanyConnection.  A cached connection that is
    connected is returned as it is: no connection is created and the cache
    is not touched.  Otherwise exactly one connection is created, takes
    the place of any stale entry and is returned while it is still
    connecting, whether or not the storage can be reached; a second call
    that comes before the driver has opened it finds it not connected and
    creates another one, while a call that comes after is given the
    opened connection.  Entries of other companies are never touched. *)
Theorem getCompanyConnection_contract reg s :
  (forall c, connectionCache reg !! s = Some c -> readyState c = 1%nat ->
     getCompanyConnection reg s = (reg, Some c))
  /\ ((forall c, connectionCache reg !! s = Some c -> readyState c <> 1%nat) ->
      let conn := {| conn_id := created reg; conn_db := s; readyState := 2 |} in
      getCompanyConnection reg s
      = ({| connectionCache := <[s := conn]> (connectionCache reg);
            created := S (created reg) |}, Some conn)
      /\ snd (getCompanyConnection (fst (getCompanyConnection reg s)) s)
         = Some {| conn_id := S (created reg); conn_db := s; readyState := 2 |}
      /\ forall env,
           connectOk env s = true ->
           getCompanyConnection
             (driverOpens env (fst (getCompanyConnection reg s)) s) s
           = (driverOpens env (fst (getCompanyConnection reg s)) s,
              Some (opened conn)))
  /\ (forall s', s' <> s ->
        connectionCache (fst (getCompanyConnection reg s)) !! s'
        = connectionCache reg !! s').
Proof.
  split; [|split].
  - intros c Hc H1. exact (getCompanyConnection_hit reg s c Hc H1).
  - intros Hstale conn. rewrite (getCompanyConnection_miss reg s Hstale).
    fold conn. split; [reflexivity|]. simpl fst. split.
    + rewrite getCompanyConnection_miss; [reflexivity|].
      simpl. intros c. rewrite lookup_insert_eq. intros [= <-]. discriminate.
    + intros env Hok. apply getCompanyConnection_hit; [|reflexivity].
      rewrite (driverOpens_connecting env _ s conn);
        [rewrite Hok; reflexivity|apply lookup_insert_eq|reflexivity].
  - intros s' Hne. apply getCompanyConnection_others. exact Hne.
Qed.

Lemma getCompanyConnection_contract_witness :
  getCompanyConnection staleRegistry "acme"
  = ({| connectionCache :=
          {[ "acme" := {| conn_id := 1; conn_db := "acme"; readyState := 2 |} ]};
        created := 2 |},
     Some {| conn_id := 1; conn_db := "acme"; readyState := 2 |})
  /\ snd (getCompanyConnection (fst (getCompanyConnection staleRegistry "acme"))
            "acme")
     = Some {| conn_id := 2; conn_db := "acme"; readyState := 2 |}.
Proof.
  assert (Hstale : forall c, connectionCache staleRegistry !! "acme" = Some c ->
                             readyState c <> 1%nat).
  { intros c H. vm_compute in H. injection H as <-. discriminate. }
  destruct (proj1 (proj2 (getCompanyConnection_contract staleRegistry "acme"))
              Hstale) as (H1 & H2 & _).
  split; [|exact H2]. rewrite H1. reflexivity.
Defined.






(** X13. The health report after a call of getCompanyConnection: a
    company whose cached connection was connected is reported with
    readyState 1 under the name "connected"; otherwise it is reported with
    readyState 2, "connecting", and it is reported as "connected" only
    once the driver has opened the connection; the reports of all other
    companies are as before. *)
Theorem getConnectionStatus_after_acquire reg s :
  (forall c, connectionCache reg !! s = Some c -> readyState c = 1%nat ->
     getConnectionStatus (fst (getCompanyConnection reg s)) !! s
     = Some (1%nat, Some "connected"))
  /\ ((forall c, connectionCache reg !! s = Some c -> readyState c <> 1%nat) ->
      getConnectionStatus (fst (getCompanyConnection reg s)) !! s
      = Some (2%nat, Some "connecting")
      /\ forall env,
           getConnectionStatus
             (driverOpens env (fst (getCompanyConnection reg s)) s) !! s
           = if connectOk env s then Some (1%nat, Some "connected")
             else Some (2%nat, Some "connecting"))
  /\ (forall s', s' <> s ->
        getConnectionStatus (fst (getCompanyConnection reg s)) !! s'
        = getConnectionStatus reg !! s').
Proof.
  unfold getConnectionStatus.
  split; [|split].
  - intros c Hc H1. rewrite (getCompanyConnection_hit reg s c Hc H1).
    simpl. rewrite lookup_fmap, Hc. simpl. rewrite H1. reflexivity.
  - intros Hstale. rewrite (getCompanyConnection_miss reg s Hstale). simpl fst.
    split.
    + rewrite lookup_fmap. simpl. rewrite lookup_insert_eq. reflexivity.
    + intros env. rewrite lookup_fmap.
      erewrite driverOpens_connecting;
        [|simpl; apply lookup_insert_eq|reflexivity].
      destruct (connectOk env s); reflexivity.
  - intros s' Hne.
    rewrite !lookup_fmap, (getCompanyConnection_others reg s s' Hne).
    reflexivity.
Qed.

Lemma getConnectionStatus_after_acquire_witness :
  getConnectionStatus (fst (getCompanyConnection staleRegistry "acme"))
    !! "acme" = Some (2%nat, Some "connecting")
  /\ getConnectionStatus
       (driverOpens envOk (fst (getCompanyConnection staleRegistry "acme"))
          "acme") !! "acme" = Some (1%nat, Some "connected")
  /\ getConnectionStatus
       (driverOpens envDown (fst (getCompanyConnection staleRegistry "acme"))
          "acme") !! "acme" = Some (2%nat, Some "connecting")
  /\ getConnectionStatus staleRegistry !! "acme"
     = Some (0%nat, Some "disconnected").
Proof.
  assert (Hstale : forall c, connectionCache staleRegistry !! "acme" = Some c ->
                             readyState c <> 1%nat).
  { intros c H. vm_compute in H. injection H as <-. discriminate. }
  destruct (proj1 (proj2 (getConnectionStatus_after_acquire staleRegistry
                            "acme")) Hstale) as [H1 H2].
  split; [exact H1|]. split; [exact (H2 envOk)|].
  split; [exact (H2 envDown)|reflexivity].
Defined.

(** ** Categories cascade into the products *)

Lemma setCategory_self p : setCategory p (category p) (categoryName p) = p.
Proof. destruct p. reflexivity. Qed.

Lemma setCategory_stored p c n : storedOk p -> storedOk (setCategory p c n).
Proof.
  intros (Hv & Hc & Hu). split; [exact Hv|]. split; [|exact Hu].
  apply cast_fields in Hc. apply cast_fields. exact Hc.
Qed.

(** A cascade rewrites category fields only. *)
Lemma cascade_dbOk (g : Product -> Product) ps :
  (forall p, exists c n, g p = setCategory p c n) ->
  dbOk ps -> dbOk (g <$> ps).
Proof.
  intros Hg [Hall Hnd]. split.
  - apply Forall_fmap. eapply Forall_impl; [exact Hall|].
    intros p Hp. simpl. destruct (Hg p) as (c & n & ->).
    apply setCategory_stored, Hp.
  - rewrite <- list_fmap_compose.
    replace (barcode ∘ g <$> ps) with (barcode <$> ps); [exact Hnd|].
    apply list_fmap_ext. intros i p _. simpl.
    destruct (Hg p) as (c & n & ->). reflexivity.
Qed.

Lemma cascade_ledger (g : Product -> Product) ps :
  (forall p, exists c n, g p = setCategory p c n) ->
  Forall ledgerOk ps -> Forall ledgerOk (g <$> ps).
Proof.
  intros Hg Hall. apply Forall_fmap. eapply Forall_impl; [exact Hall|].
  intros p Hp. simpl. destruct (Hg p) as (c & n & ->). exact Hp.
Qed.

Lemma clear_shape id p :
  exists c n,
    (if bool_decide (category p = Some id) then setCategory p None "" else p)
    = setCategory p c n.
Proof.
  destruct (bool_decide _); [eauto|].
  exists (category p), (categoryName p). symmetry. apply setCategory_self.
Qed.

Lemma rename_shape id n0 p :
  exists c n,
    (if bool_decide (category p = Some id)
     then setCategory p (category p) n0 else p)
    = setCategory p c n.
Proof.
  destruct (bool_decide _); [eauto|].
  exists (category p), (categoryName p). symmetry. apply setCategory_self.
Qed.

Lemma clearInProducts_none id ps p' :
  p' ∈ clearInProducts id ps -> category p' <> Some id.
Proof.
  unfold clearInProducts. intros H.
  apply list_elem_of_fmap in H as (p & -> & _).
  destruct (bool_decide (category p = Some id)) eqn:E; simpl.
  - discriminate.
  - apply bool_decide_eq_false in E. exact E.
Qed.

Lemma findCategoryAt_id cats id i c :
  findCategoryAt cats id = Some (i, c) -> cats !! i = Some c /\ cat_id c = id.
Proof. unfold findCategoryAt. intros H. apply list_find_Some in H. tauto. Qed.

(** X14. Deleting a category (DELETE /api/categories/:id).  No request
    changes any product other than in its category fields, so barcodes,
    counters and histories, the unique index and the ledger invariant are
    kept.  After a delete answered 200 no product refers to the category
    any more, products of other categories are as they were, and the
    category is gone from the list (the others remain).  When the products
    were rewritten and the delete of the category itself throws, the
    answer is 500 and the category is still there, but its products have
    already lost it. *)
Theorem deleteCategory_contract cenv db id :
  (length (products (fst (deleteCategory cenv db id))) = length (products db)
   /\ forall j p,
        products db !! j = Some p ->
        exists p',
          products (fst (deleteCategory cenv db id)) !! j = Some p'
          /\ p' = setCategory p (category p') (categoryName p')
          /\ (category p <> Some id -> p' = p))
  /\ (dbOk (products db) -> dbOk (products (fst (deleteCategory cenv db id))))
  /\ (Forall ledgerOk (products db) ->
      Forall ledgerOk (products (fst (deleteCategory cenv db id))))
  /\ (status (snd (deleteCategory cenv db id)) = 200%nat ->
      (forall p', p' ∈ products (fst (deleteCategory cenv db id)) ->
         category p' <> Some id)
      /\ (NoDup (cat_id <$> categories db) ->
          findCategoryAt (categories (fst (deleteCategory cenv db id))) id = None
          /\ forall c, c ∈ categories (fst (deleteCategory cenv db id))
                       <-> c ∈ categories db /\ cat_id c <> id))
  /\ (is_Some (findCategoryAt (categories db) id) ->
      updateManyOk cenv = true -> categoryDeleteOk cenv = false ->
      status (snd (deleteCategory cenv db id)) = 500%nat
      /\ categories (fst (deleteCategory cenv db id)) = categories db
      /\ forall p', p' ∈ products (fst (deleteCategory cenv db id)) ->
           category p' <> Some id).
Proof.
  assert (Hshape : products (fst (deleteCategory cenv db id)) = products db
                   \/ products (fst (deleteCategory cenv db id))
                      = clearInProducts id (products db)).
  { unfold deleteCategory. destruct (findCategoryAt _ _) as [[i c]|]; [|auto].
    destruct (negb (updateManyOk cenv)); [auto|].
    destruct (negb (categoryDeleteOk cenv)); simpl; auto. }
  split; [|split; [|split; [|split]]].
  - destruct Hshape as [-> | ->].
    + split; [reflexivity|]. intros j p Hj. exists p.
      split; [exact Hj|]. split; [symmetry; apply setCategory_self|reflexivity].
    + unfold clearInProducts. split; [apply length_fmap|].
      intros j p Hj. rewrite list_lookup_fmap, Hj. simpl. eexists.
      split; [reflexivity|].
      destruct (bool_decide (category p = Some id)) eqn:E.
      * split; [reflexivity|]. apply bool_decide_eq_true in E. congruence.
      * split; [symmetry; apply setCategory_self|reflexivity].
  - intros Hdb. destruct Hshape as [-> | ->]; [exact Hdb|].
    apply cascade_dbOk; [apply clear_shape|exact Hdb].
  - intros Hl. destruct Hshape as [-> | ->]; [exact Hl|].
    apply cascade_ledger; [apply clear_shape|exact Hl].
  - unfold deleteCategory.
    destruct (findCategoryAt _ _) as [[i c]|] eqn:Ef; [|simpl; discriminate].
    destruct (negb (updateManyOk cenv)); [simpl; discriminate|].
    destruct (negb (categoryDeleteOk cenv)); simpl; [discriminate|].
    intros _. split.
    + intros p' Hp'. exact (clearInProducts_none _ _ _ Hp').
    + intros Hnd. destruct (findCategoryAt_id _ _ _ _ Ef) as [Hi Hc].
      assert (Hnot : id ∉ cat_id <$> delete i (categories db)).
      { rewrite (delete_Permutation _ _ _ Hi), fmap_cons in Hnd.
        apply NoDup_cons in Hnd as [H _]. rewrite Hc in H. exact H. }
      split.
      * unfold findCategoryAt. apply list_find_None, Forall_forall.
        intros c' Hc' Hid. apply Hnot. apply list_elem_of_fmap. eauto.
      * intros c'. split.
        -- intros Hc'. split; [exact (list_elem_of_delete_inv _ _ _ Hc')|].
           intros Hid. apply Hnot. apply list_elem_of_fmap. eauto.
        -- intros [Hc' Hid]. rewrite (delete_Permutation _ _ _ Hi) in Hc'.
           apply elem_of_cons in Hc' as [->|Hc']; [congruence|exact Hc'].
  - intros [[i c] Ef] Hu Hd. unfold deleteCategory. rewrite Ef, Hu, Hd. simpl.
    split; [reflexivity|]. split; [reflexivity|].
    intros p' Hp'. exact (clearInProducts_none _ _ _ Hp').
Qed.

Lemma deleteCategory_contract_witness :
  category <$> products (fst (deleteCategory cenvOk drinksDb "aaaaaaaaaaaaaaaaaaaaaac1"))
  = [None; Some "aaaaaaaaaaaaaaaaaaaaaac2"]
  /\ forall p', p' ∈ products (fst (deleteCategory cenvOk drinksDb "aaaaaaaaaaaaaaaaaaaaaac1")) ->
       category p' <> Some "aaaaaaaaaaaaaaaaaaaaaac1".
Proof.
  split; [reflexivity|]. intros p' Hp'.
  exact (proj1 (proj1 (proj2 (proj2 (proj2
           (deleteCategory_contract cenvOk drinksDb "aaaaaaaaaaaaaaaaaaaaaac1")))) eq_refl) p' Hp').
Defined.

Lemma existsb_false {A} (f : A -> bool) l :
  existsb f l = false -> forall x, x ∈ l -> f x = false.
Proof.
  induction l as [|a l IH]; simpl; intros H x Hx.
  - inversion Hx.
  - apply orb_false_iff in H as [Ha Hl].
    apply elem_of_cons in Hx as [->|Hx]; [exact Ha|exact (IH Hl x Hx)].
Qed.

Lemma renameInProducts_name id n ps p' :
  p' ∈ renameInProducts id n ps -> category p' = Some id -> categoryName p' = n.
Proof.
  unfold renameInProducts. intros H.
  apply list_elem_of_fmap in H as (p & -> & _).
  destruct (bool_decide (category p = Some id)) eqn:E; simpl; [reflexivity|].
  apply bool_decide_eq_false in E. intros H. contradiction.
Qed.

(** X15. Renaming a category (PUT /api/categories/:id).  A name that
    another category carries is refused with 400 and nothing changes.
    After a rename answered 200 the category carries the trimmed name,
    which is not blank, every product of the category carries it as
    categoryName, products of other categories are as they were, and
    category names that were distinct are still distinct.  A blank name
    is only refused by the save, after the products were rewritten: the
    answer is 500 and the category keeps its name, but its products are
    left with an empty categoryName.  In every case products change in
    their category fields only. *)
Theorem updateCategory_contract cenv db id n :
  ((exists c, c ∈ categories db /\ cat_name c = Js.trim n /\ cat_id c <> id) ->
     is_Some (findCategoryAt (categories db) id) ->
     updateCategory cenv db id (Some n)
     = (db, reply 400 "Category name already exists"))
  /\ (status (snd (updateCategory cenv db id (Some n))) = 200%nat ->
      Js.trim n <> ""
      /\ (exists i c0,
            findCategoryAt (categories db) id = Some (i, c0)
            /\ categories (fst (updateCategory cenv db id (Some n)))
               = <[i := {| cat_id := id; cat_name := Js.trim n |}]>
                   (categories db))
      /\ (forall p', p' ∈ products (fst (updateCategory cenv db id (Some n))) ->
            category p' = Some id -> categoryName p' = Js.trim n)
      /\ (forall j p, products db !! j = Some p -> category p <> Some id ->
            products (fst (updateCategory cenv db id (Some n))) !! j = Some p)
      /\ (NoDup (cat_id <$> categories db) ->
          NoDup (cat_name <$> categories db) ->
          NoDup (cat_name
                   <$> categories (fst (updateCategory cenv db id (Some n))))))
  /\ (is_Some (findCategoryAt (categories db) id) ->
      (forall c, c ∈ categories db -> cat_name c = "" -> cat_id c = id) ->
      updateManyOk cenv = true -> Js.trim n = "" ->
      status (snd (updateCategory cenv db id (Some n))) = 500%nat
      /\ categories (fst (updateCategory cenv db id (Some n))) = categories db
      /\ forall p', p' ∈ products (fst (updateCategory cenv db id (Some n))) ->
           category p' = Some id -> categoryName p' = "")
  /\ (dbOk (products db) ->
      dbOk (products (fst (updateCategory cenv db id (Some n)))))
  /\ (Forall ledgerOk (products db) ->
      Forall ledgerOk (products (fst (updateCategory cenv db id (Some n))))).
Proof.
  assert (Hshape : products (fst (updateCategory cenv db id (Some n)))
                   = products db
                   \/ products (fst (updateCategory cenv db id (Some n)))
                      = renameInProducts id (Js.trim n) (products db)).
  { unfold updateCategory. destruct (findCategoryAt _ _) as [[i c]|]; [|auto].
    destruct (existsb _ _); [auto|].
    destruct (negb (updateManyOk cenv)); [auto|].
    destruct (negb (categorySaveOk cenv) || _); simpl; auto. }
  split; [|split; [|split; [|split]]].
  - intros (c & Hc & Hn & Hid) [[i c0] Hf]. unfold updateCategory. rewrite Hf.
    replace (existsb _ (categories db)) with true; [reflexivity|].
    symmetry. apply existsb_exists. exists c.
    split; [apply list_elem_of_In; exact Hc|].
    rewrite trim_idem, bool_decide_eq_true_2 by exact Hn.
    rewrite bool_decide_eq_false_2 by exact Hid. reflexivity.
  - unfold updateCategory.
    destruct (findCategoryAt _ _) as [[i c0]|] eqn:Ef; [|simpl; discriminate].
    destruct (existsb _ _) eqn:Eex; [simpl; discriminate|].
    destruct (negb (updateManyOk cenv)); [simpl; discriminate|].
    destruct (negb (categorySaveOk cenv)); [simpl; discriminate|].
    rewrite trim_idem in *. simpl.
    destruct (bool_decide (Js.trim n = "")) eqn:Eb; simpl; [discriminate|].
    intros _. apply bool_decide_eq_false in Eb.
    split; [exact Eb|]. split; [eauto|].
    split; [intros p' Hp'; exact (renameInProducts_name _ _ _ _ Hp')|].
    split.
    + intros j p Hj Hne. unfold renameInProducts.
      rewrite list_lookup_fmap, Hj. simpl.
      rewrite bool_decide_eq_false_2 by exact Hne. reflexivity.
    + intros Hids Hnames. destruct (findCategoryAt_id _ _ _ _ Ef) as [Hi Hc0].
      rewrite list_fmap_insert. simpl.
      rewrite insert_Permutation
        by (rewrite length_fmap; exact (lookup_lt_Some _ _ _ Hi)).
      apply NoDup_cons. split.
      * rewrite <- list_fmap_delete. intros Hin.
        apply list_elem_of_fmap in Hin as (c & Hcn & Hc).
        pose proof (existsb_false _ _ Eex c
                      (list_elem_of_delete_inv _ _ _ Hc)) as Hfalse.
        simpl in Hfalse.
        rewrite bool_decide_eq_true_2 in Hfalse by (symmetry; exact Hcn).
        simpl in Hfalse. apply negb_false_iff, bool_decide_eq_true in Hfalse.
        rewrite (delete_Permutation _ _ _ Hi), fmap_cons in Hids.
        apply NoDup_cons in Hids as [Hnot _]. apply Hnot.
        apply list_elem_of_fmap. exists c. split; [congruence|exact Hc].
      * eapply sublist_NoDup; [exact Hnames|apply sublist_delete].
  - intros [[i c0] Hf] Hblank Hu Hn. unfold updateCategory. rewrite Hf.
    rewrite trim_idem, Hn.
    replace (existsb _ (categories db)) with false.
    + rewrite Hu. simpl. rewrite orb_true_r. simpl.
      split; [reflexivity|]. split; [reflexivity|].
      intros p' Hp'. exact (renameInProducts_name _ _ _ _ Hp').
    + symmetry. apply not_true_is_false. intros H.
      apply existsb_exists in H as (c & Hc & Hcc).
      apply andb_true_iff in Hcc as [H1 H2].
      apply bool_decide_eq_true in H1.
      apply negb_true_iff, bool_decide_eq_false in H2.
      apply H2. apply Hblank; [apply list_elem_of_In; exact Hc|exact H1].
  - intros Hdb. destruct Hshape as [-> | ->]; [exact Hdb|].
    apply cascade_dbOk; [apply rename_shape|exact Hdb].
  - intros Hl. destruct Hshape as [-> | ->]; [exact Hl|].
    apply cascade_ledger; [apply rename_shape|exact Hl].
Qed.

Lemma updateCategory_contract_witness :
  updateCategory cenvOk drinksDb "aaaaaaaaaaaaaaaaaaaaaac1" (Some " Coffee ")
  = (drinksDb, reply 400 "Category name already exists")
  /\ (forall p', p' ∈ products (fst (updateCategory cenvOk drinksDb "aaaaaaaaaaaaaaaaaaaaaac1"
                                      (Some " Hot drinks "))) ->
        category p' = Some "aaaaaaaaaaaaaaaaaaaaaac1" -> categoryName p' = "Hot drinks")
  /\ categoryName <$> products (fst (updateCategory cenvOk drinksDb "aaaaaaaaaaaaaaaaaaaaaac1"
                                       (Some "  ")))
     = [""; "Coffee"].
Proof.
  split; [|split].
  - apply (proj1 (updateCategory_contract cenvOk drinksDb "aaaaaaaaaaaaaaaaaaaaaac1" " Coffee ")).
    + exists {| cat_id := "aaaaaaaaaaaaaaaaaaaaaac2"; cat_name := "Coffee" |}.
      split; [right; left|]. split; [reflexivity|discriminate].
    + vm_compute. eauto.
  - apply (proj1 (proj2 (updateCategory_contract cenvOk drinksDb "aaaaaaaaaaaaaaaaaaaaaac1"
                           " Hot drinks "))). reflexivity.
  - reflexivity.
Defined.

(** ** The dashboard totals *)

Lemma stockSum_nonneg ps : Forall storedOk ps -> 0 <= stockSum ps.
Proof.
  induction 1 as [|p ps Hp _ IH]; simpl; [lia|].
  pose proof (validate_stock _ (proj1 Hp)). lia.
Qed.

Lemma totalStock_nonneg ps : forall a,
  Forall storedOk ps -> 0 <= a ->
  0 <= foldl (fun totalStock p => Js.add totalStock (currentStock p)) a ps.
Proof.
  induction ps as [|p ps IH]; intros a Hall Ha; simpl; [exact Ha|].
  apply Forall_cons in Hall as [Hp Hall].
  apply IH; [exact Hall|]. apply double_nonneg.
  pose proof (validate_stock _ (proj1 Hp)). lia.
Qed.

(** While the sum stays within the integers that are doubles, the loop of
    the dashboard adds exactly. *)
Lemma totalStock_exact ps : forall a,
  Forall storedOk ps -> 0 <= a -> a + stockSum ps <= Js.exactUpTo ->
  foldl (fun totalStock p => Js.add totalStock (currentStock p)) a ps
  = a + stockSum ps.
Proof.
  induction ps as [|p ps IH]; intros a Hall Ha Hb; simpl in *; [lia|].
  apply Forall_cons in Hall as [Hp Hall].
  pose proof (validate_stock _ (proj1 Hp)) as Hc.
  pose proof (stockSum_nonneg ps Hall) as Hs.
  rewrite (add_exact a (currentStock p)) by lia.
  rewrite IH by (assumption || lia). lia.
Qed.

Lemma signedSum_append h1 h2 :
  signedSum (h1 ++ h2) = signedSum h1 + signedSum h2.
Proof. induction h1 as [|m h1 IH]; simpl; [reflexivity|]. rewrite IH. lia. Qed.

Lemma stockSum_insert ps : forall i p p',
  ps !! i = Some p ->
  stockSum (<[i := p']> ps) = stockSum ps - currentStock p + currentStock p'.
Proof.
  induction ps as [|q ps IH]; intros [|i] p p' Hi; simpl in *;
    try discriminate.
  - injection Hi as ->. lia.
  - rewrite (IH i p p' Hi). lia.
Qed.

Lemma stockSum_ledger ps :
  Forall ledgerOk ps ->
  stockSum ps = signedSum (concat (stockHistory <$> ps)).
Proof.
  induction 1 as [|p ps Hp _ IH]; [reflexivity|].
  cbn [stockSum foldr fmap list_fmap concat]. rewrite signedSum_append.
  unfold ledgerOk in Hp. rewrite Hp. f_equal. exact IH.
Qed.

Lemma stockSum_lookup ps : forall i p,
  Forall storedOk ps -> ps !! i = Some p -> currentStock p <= stockSum ps.
Proof.
  induction ps as [|q ps IH]; intros [|i] p Hall Hi; simpl in *;
    try discriminate; apply Forall_cons in Hall as [Hq Hall].
  - injection Hi as ->. pose proof (stockSum_nonneg ps Hall). lia.
  - pose proof (IH i p Hall Hi). pose proof (validate_stock _ (proj1 Hq)). lia.
Qed.

(** X16. The dashboard (GET /api/stats/dashboard).  totalProducts is the
    number of products, and for a well-formed collection totalStock is
    not negative.  When the counters add up to at most [2^53], totalStock
    is their sum; under the ledger invariant that is the net of all
    movements of all histories (adds minus removes).  A successful
    addStock of [z] that keeps the sum within [2^53] raises the reported
    totalStock by exactly [z], a successful removeStock lowers it by
    exactly [z], and neither changes totalProducts. *)
Theorem dashboardTotals_contract ps :
  fst (dashboardTotals ps) = length ps
  /\ (dbOk ps -> 0 <= snd (dashboardTotals ps))
  /\ (dbOk ps -> stockSum ps <= Js.exactUpTo ->
      snd (dashboardTotals ps) = stockSum ps
      /\ (Forall ledgerOk ps ->
          snd (dashboardTotals ps) = signedSum (concat (stockHistory <$> ps)))
      /\ (forall env u param z n s i p,
            findOne ps (Js.trim param) = Some (i, p) -> 0 < z ->
            stockSum ps + z <= Js.exactUpTo -> saveOk env = true ->
            dashboardTotals (fst (addStock env u ps param (Some z) n s))
            = (length ps, snd (dashboardTotals ps) + z))
      /\ (forall env u param z n l i p,
            findOne ps (Js.trim param) = Some (i, p) ->
            0 < z <= currentStock p -> saveOk env = true ->
            dashboardTotals (fst (removeStock env u ps param (Some z) n l))
            = (length ps, snd (dashboardTotals ps) - z))).
Proof.
  unfold dashboardTotals. simpl.
  split; [reflexivity|]. split.
  { intros [Hall _]. apply totalStock_nonneg; [exact Hall|lia]. }
  intros Hdb Hb. pose proof (stockSum_nonneg ps (proj1 Hdb)) as Hs.
  rewrite (totalStock_exact ps 0 (proj1 Hdb)) by lia.
  split; [lia|]. split; [|split].
  - intros H. rewrite (stockSum_ledger ps H). lia.
  - intros env u param z n s i p Hf Hz Hbz Hsave.
    pose proof (addStock_dbOk env u ps param (Some z) n s Hdb) as Hdb'.
    pose proof (proj1 (findOne_barcode _ _ _ _ Hf)) as Hi.
    pose proof (stockSum_lookup ps i p (proj1 Hdb) Hi) as Hle.
    pose proof (validate_stock _ (proj1 (findOne_stored _ _ _ _ Hdb Hf)))
      as Hpos.
    rewrite (addStock_ok env u ps param z n s i p Hdb Hf Hz Hsave) in *.
    simpl fst in *. rewrite (add_exact (currentStock p) z) in * by lia.
    rewrite length_insert.
    assert (Hsum : stockSum (<[i := withStock p (currentStock p + z)
                                      (addMovement u z n s)]> ps)
                   = stockSum ps + z).
    { rewrite (stockSum_insert ps i p _ Hi). simpl. lia. }
    rewrite (totalStock_exact _ 0 (proj1 Hdb')) by lia.
    rewrite Hsum. f_equal; lia.
  - intros env u param z n l i p Hf Hz Hsave.
    pose proof (removeStock_dbOk env u ps param (Some z) n l Hdb) as Hdb'.
    pose proof (proj1 (findOne_barcode _ _ _ _ Hf)) as Hi.
    pose proof (stockSum_lookup ps i p (proj1 Hdb) Hi) as Hle.
    rewrite (removeStock_ok env u ps param z n l i p Hdb Hf Hz Hsave) in *.
    simpl fst in *. rewrite (sub_exact (currentStock p) z) in * by lia.
    rewrite length_insert.
    assert (Hsum : stockSum (<[i := withStock p (currentStock p - z)
                                      (removeMovement u z n l)]> ps)
                   = stockSum ps - z).
    { rewrite (stockSum_insert ps i p _ Hi). simpl. lia. }
    rewrite (totalStock_exact _ 0 (proj1 Hdb')) by lia.
    rewrite Hsum. f_equal; lia.
Qed.

Lemma dashboardTotals_contract_witness :
  dashboardTotals (fst (addStock envOk elchin (products twoProducts) "B"
                          (Some 5) None None))
  = (2%nat, 8).
Proof.
  assert (Hb : stockSum (products twoProducts) <= Js.exactUpTo)
    by (vm_compute; discriminate).
  apply (proj1 (proj2 (proj2 (proj2 (proj2 (dashboardTotals_contract
                                       (products twoProducts)))
                                twoProducts_ok Hb)))
           envOk elchin "B" 5 None None 1%nat (sampleProduct "B" 2) eq_refl);
    [lia|vm_compute; discriminate|reflexivity].
Defined.

(** ** References from products to categories *)

Lemma categories_setProducts w s ps s' :
  categories (tenant (setProducts w s ps) s') = categories (tenant w s').
Proof.
  destruct (decide (s = s')) as [->|Hne].
  - unfold tenant, setProducts. simpl. rewrite lookup_insert_eq. reflexivity.
  - rewrite tenant_setProducts_ne by assumption. reflexivity.
Qed.

Section TenantInvariant.
Variable Inv : list Category -> list Product -> Prop.
Hypothesis Inv_create : forall env u db b,
  Inv (categories db) (products db) ->
  Inv (categories db) (fst (createProduct env u db b)).
Hypothesis Inv_duplicate : forall env u db param,
  Inv (categories db) (products db) ->
  Inv (categories db) (fst (duplicateProduct env u db param)).
Hypothesis Inv_addStock : forall cats env u db param q n s,
  Inv cats db -> Inv cats (fst (addStock env u db param q n s)).
Hypothesis Inv_removeStock : forall cats env u db param q n l,
  Inv cats db -> Inv cats (fst (removeStock env u db param q n l)).
Hypothesis Inv_update : forall env db param b,
  Inv (categories db) (products db) ->
  Inv (categories db) (fst (updateProduct env db param b)).
Hypothesis Inv_delete : forall cats env db param,
  Inv cats db -> Inv cats (fst (deleteProduct env db param)).
Hypothesis Inv_transferIn : forall cats env u db from tb src db',
  Inv cats db -> saveNew env db (transferDoc u from tb src) = inr db' ->
  Inv cats db'.
Hypothesis Inv_deleteOne : forall cats env db b db',
  Inv cats db -> deleteOne env db b = inr db' -> Inv cats db'.

Lemma tenantwise_setProducts w s ps :
  tenantwise Inv w -> Inv (categories (tenant w s)) ps ->
  tenantwise Inv (setProducts w s ps).
Proof.
  intros Hw Hps s'. rewrite categories_setProducts.
  destruct (decide (s = s')) as [->|Hne].
  - rewrite tenant_setProducts_eq. exact Hps.
  - rewrite tenant_setProducts_ne by assumption. apply Hw.
Qed.

Lemma transferProduct_tenantwise env u w s param target keep :
  tenantwise Inv w ->
  tenantwise Inv (fst (transferProduct env u w s param target keep)).
Proof.
  intros Hw. unfold transferProduct.
  destruct (falsy target); [exact Hw|].
  destruct (bool_decide _); [exact Hw|].
  destruct (negb (isSuperAdmin u) && negb (hasAccessTo u (default "" target)));
    [exact Hw|].
  destruct (findCompany _ _); [|exact Hw].
  destruct (findOne _ _) as [[i src]|]; [|exact Hw].
  destruct (getCompanyConnection _ _) as [reg1 [conn|]]; [|exact Hw].
  destruct (generateUniqueBarcode _ _) as [tb|]; [|exact Hw].
  destruct (saveNew _ _ _) as [e|db'] eqn:Esave; [exact Hw|].
  assert (H2 : tenantwise Inv
                 (setProducts (setRegistry w reg1) (default "" target) db')).
  { apply tenantwise_setProducts; [exact Hw|].
    eapply Inv_transferIn; [|exact Esave]. apply Hw. }
  destruct keep; simpl; [exact H2|].
  destruct (deleteOne _ _ _) as [e|src'] eqn:Edel; [exact H2|].
  apply tenantwise_setProducts; [exact H2|].
  eapply Inv_deleteOne; [|exact Edel]. apply H2.
Qed.

Lemma handle_tenantwise cfg w r :
  tenantwise Inv w -> tenantwise Inv (fst (handle cfg w r)).
Proof.
  intros Hw. unfold handle.
  destruct (companyMiddleware _ _ _ _ _) as [reg1 [resp|s]]; [exact Hw|].
  assert (H1 : tenantwise Inv (setRegistry w reg1)) by exact Hw.
  destruct (req_route r); simpl;
    try (apply tenantwise_setProducts; [exact H1|]).
  - apply Inv_create, H1.
  - apply Inv_duplicate, H1.
  - apply transferProduct_tenantwise, H1.
  - apply Inv_addStock, H1.
  - apply Inv_removeStock, H1.
  - apply Inv_update, H1.
  - apply Inv_delete, H1.
Qed.

Lemma run_tenantwise cfg rs : forall w,
  tenantwise Inv w -> tenantwise Inv (run cfg w rs).
Proof.
  induction rs as [|r rs IH]; intros w Hw; [exact Hw|].
  apply IH, handle_tenantwise, Hw.
Qed.

End TenantInvariant.

Lemma transferProduct_categories env u w s param target keep s' :
  categories (tenant (fst (transferProduct env u w s param target keep)) s')
  = categories (tenant w s').
Proof.
  unfold transferProduct.
  destruct (falsy target); [reflexivity|].
  destruct (bool_decide _); [reflexivity|].
  destruct (negb (isSuperAdmin u) && negb (hasAccessTo u (default "" target)));
    [reflexivity|].
  destruct (findCompany _ _); [|reflexivity].
  destruct (findOne _ _) as [[i src]|]; [|reflexivity].
  destruct (getCompanyConnection _ _) as [reg1 [conn|]]; [|reflexivity].
  destruct (generateUniqueBarcode _ _) as [tb|]; [|reflexivity].
  destruct (saveNew _ _ _) as [e|db']; [reflexivity|].
  destruct keep; simpl; [rewrite categories_setProducts; reflexivity|].
  destruct (deleteOne _ _ _) as [e|src']; simpl;
    rewrite ?categories_setProducts; reflexivity.
Qed.

Lemma handle_categories cfg w r s :
  categories (tenant (fst (handle cfg w r)) s) = categories (tenant w s).
Proof.
  unfold handle.
  destruct (companyMiddleware _ _ _ _ _) as [reg1 [resp|s0]]; [reflexivity|].
  destruct (req_route r); simpl;
    rewrite ?categories_setProducts, ?transferProduct_categories; reflexivity.
Qed.

Lemma run_categories cfg rs : forall w s,
  categories (tenant (run cfg w rs) s) = categories (tenant w s).
Proof.
  induction rs as [|r rs IH]; intros w s; [reflexivity|].
  simpl. change (foldl _ ?a rs) with (run cfg a rs).
  rewrite IH. apply handle_categories.
Qed.

(** *** What each handler does to the references *)

Lemma category_preSave p : category (preSave p) = category p.
Proof. unfold preSave. destruct (decide (unit p = "")); reflexivity. Qed.

Lemma refOk_stored cats p :
  refOk cats (preSave (castProduct p)) <-> refOk cats p.
Proof. unfold refOk. rewrite category_preSave. reflexivity. Qed.

Lemma refOk_preSave cats p : refOk cats (preSave p) <-> refOk cats p.
Proof. unfold refOk. rewrite category_preSave. reflexivity. Qed.

Lemma findCategory_id cats id c :
  findCategory cats id = Some c -> cat_id c ∈ cat_id <$> cats.
Proof.
  unfold findCategory. intros H. apply find_some in H as [Hin _].
  apply list_elem_of_fmap_2, list_elem_of_In, Hin.
Qed.

Lemma saveNew_refs cats env db raw db' :
  saveNew env db raw = inr db' -> refOk cats raw ->
  refsOk cats db -> refsOk cats db'.
Proof.
  intros Hs Hraw Hdb. apply saveNew_inr in Hs as (_ & _ & _ & ->).
  apply Forall_app. split; [assumption|]. apply Forall_singleton.
  apply refOk_stored, Hraw.
Qed.

Lemma saveAt_refs cats env db i p db' :
  saveAt env db i p = inr db' -> refOk cats p ->
  refsOk cats db -> refsOk cats db'.
Proof.
  intros Hs Hp Hdb. apply saveAt_inr in Hs as (_ & _ & _ & ->).
  apply Forall_insert; [assumption|]. apply refOk_preSave, Hp.
Qed.

Lemma findOne_refs cats db b i p :
  refsOk cats db -> findOne db b = Some (i, p) -> refOk cats p.
Proof.
  intros Hdb Hf. apply findOne_barcode in Hf as [Hi _].
  exact (proj1 (Forall_lookup _ _) Hdb i p Hi).
Qed.

Lemma delete_refs cats (db : list Product) i :
  refsOk cats db -> refsOk cats (delete i db).
Proof. apply Forall_delete. Qed.

Lemma createProduct_refs env u db b :
  refsOk (categories db) (products db) ->
  refsOk (categories db) (fst (createProduct env u db b)).
Proof.
  intros Hdb.
  destruct (createProduct_cases env u db b)
    as [->|(cd & db' & Hcd & Es & ->)]; [exact Hdb|]. simpl.
  eapply saveNew_refs; [exact Es| |exact Hdb].
  intros id. unfold createDoc. simpl.
  destruct cd as [c|]; [|discriminate].
  simpl. intros [= <-]. destruct (Hcd c eq_refl) as [oid Ec].
  exact (findCategory_id _ _ _ Ec).
Qed.

Lemma duplicateProduct_refs env u db param :
  refsOk (categories db) (products db) ->
  refsOk (categories db) (fst (duplicateProduct env u db param)).
Proof.
  intros Hdb. unfold duplicateProduct.
  destruct (findOne _ _) as [[i p]|] eqn:Ef; [|exact Hdb].
  destruct (suffixLoop _ _ _ _) as [nb|]; [|exact Hdb].
  destruct (saveNew _ _ _) as [e|db'] eqn:Es; [exact Hdb|]. simpl.
  eapply saveNew_refs; [exact Es| |exact Hdb].
  exact (findOne_refs _ _ _ _ _ Hdb Ef).
Qed.

Lemma addStock_refs cats env u db param q n s :
  refsOk cats db -> refsOk cats (fst (addStock env u db param q n s)).
Proof.
  intros Hdb. unfold addStock.
  destruct (Js.notPositive q); [exact Hdb|].
  destruct (findOne _ _) as [[i p]|] eqn:Ef; [|exact Hdb].
  destruct (saveAt _ _ _ _) as [e|db'] eqn:Es; [exact Hdb|]. simpl.
  eapply saveAt_refs; [exact Es| |exact Hdb].
  exact (findOne_refs _ _ _ _ _ Hdb Ef).
Qed.

Lemma removeStock_refs cats env u db param q n l :
  refsOk cats db -> refsOk cats (fst (removeStock env u db param q n l)).
Proof.
  intros Hdb. unfold removeStock.
  destruct (Js.notPositive q); [exact Hdb|].
  destruct (findOne _ _) as [[i p]|] eqn:Ef; [|exact Hdb].
  destruct (currentStock p <? Js.intOr0 q); [exact Hdb|].
  destruct (saveAt _ _ _ _) as [e|db'] eqn:Es; [exact Hdb|]. simpl.
  eapply saveAt_refs; [exact Es| |exact Hdb].
  exact (findOne_refs _ _ _ _ _ Hdb Ef).
Qed.

Lemma updateDoc_ref cats categoryDoc param b p :
  (forall c, categoryDoc = Some c ->
     exists oid, findCategory cats oid = Some c) ->
  refOk cats p -> refOk cats (updateDoc categoryDoc param b p).
Proof.
  intros Hcd Hp id. unfold updateDoc. simpl.
  destruct (u_category b) as [[cid|]|]; [| discriminate | apply Hp].
  destruct (bool_decide (cid = "")); [discriminate|].
  destruct categoryDoc as [c|]; [|apply Hp].
  intros [= <-]. destruct (Hcd c eq_refl) as [oid Ec].
  exact (findCategory_id _ _ _ Ec).
Qed.

Lemma updateProduct_refs env db param b :
  refsOk (categories db) (products db) ->
  refsOk (categories db) (fst (updateProduct env db param b)).
Proof.
  intros Hdb.
  destruct (updateProduct_cases env db param b)
    as [->|(i & p & cd & db' & Ef & Hcd & Es & ->)]; [exact Hdb|]. simpl.
  eapply saveAt_refs; [exact Es| |exact Hdb].
  apply updateDoc_ref; [exact Hcd|]. exact (findOne_refs _ _ _ _ _ Hdb Ef).
Qed.

Lemma deleteProduct_refs cats env db param :
  refsOk cats db -> refsOk cats (fst (deleteProduct env db param)).
Proof.
  intros Hdb. unfold deleteProduct, findByIdAndDelete.
  destruct (findOne _ _) as [[i p]|]; [|exact Hdb].
  destruct (negb (deleteOk env)); [exact Hdb|]. simpl.
  apply delete_refs, Hdb.
Qed.

Lemma transferIn_refs cats env u db from tb src db' :
  refsOk cats db -> saveNew env db (transferDoc u from tb src) = inr db' ->
  refsOk cats db'.
Proof.
  intros Hdb Hs. eapply saveNew_refs; [exact Hs| |exact Hdb].
  intros id. discriminate.
Qed.

Lemma deleteOne_refs cats env db b db' :
  refsOk cats db -> deleteOne env db b = inr db' -> refsOk cats db'.
Proof.
  intros Hdb Hd. apply deleteOne_inr in Hd as [_ ->].
  destruct (findOne db b) as [[i p]|]; [apply delete_refs|]; exact Hdb.
Qed.

Lemma run_refs cfg rs w :
  tenantwise refsOk w -> tenantwise refsOk (run cfg w rs).
Proof.
  apply run_tenantwise.
  - exact createProduct_refs.
  - exact duplicateProduct_refs.
  - exact addStock_refs.
  - exact removeStock_refs.
  - exact updateProduct_refs.
  - exact deleteProduct_refs.
  - exact transferIn_refs.
  - exact deleteOne_refs.
Qed.

Lemma refOk_mono cats cats' p :
  (forall id, id ∈ cat_id <$> cats -> id ∈ cat_id <$> cats') ->
  refOk cats p -> refOk cats' p.
Proof. intros H Hp id Hid. apply H, Hp, Hid. Qed.

Lemma setCategory_ref cats p id n :
  id ∈ cat_id <$> cats -> refOk cats (setCategory p (Some id) n).
Proof. intros H i. simpl. intros [= <-]. exact H. Qed.

Lemma renameInProducts_refs cats id n ps :
  refsOk cats ps -> refsOk cats (renameInProducts id n ps).
Proof.
  intros H. unfold renameInProducts. apply Forall_fmap.
  eapply Forall_impl; [exact H|]. intros p Hp. simpl.
  destruct (bool_decide (category p = Some id)); [|exact Hp].
  intros i. simpl. apply Hp.
Qed.

Lemma clearInProducts_refs cats id ps :
  refsOk cats ps -> refsOk cats (clearInProducts id ps).
Proof.
  intros H. unfold clearInProducts. apply Forall_fmap.
  eapply Forall_impl; [exact H|]. intros p Hp. simpl.
  destruct (bool_decide (category p = Some id)); [|exact Hp].
  intros i. discriminate.
Qed.

Lemma clearInProducts_refs_delete cats id i c ps :
  cats !! i = Some c -> cat_id c = id ->
  refsOk cats ps -> refsOk (delete i cats) (clearInProducts id ps).
Proof.
  intros Hi Hc H. unfold clearInProducts. apply Forall_fmap.
  eapply Forall_impl; [exact H|]. intros p Hp. simpl.
  destruct (bool_decide_reflect (category p = Some id)) as [E|E];
    [intros j; discriminate|].
  intros j Hj. pose proof (Hp j Hj) as Hin.
  apply list_elem_of_fmap in Hin as (c' & -> & Hc').
  apply list_elem_of_lookup in Hc' as (k & Hk).
  destruct (decide (k = i)) as [->|Hne].
  - rewrite Hi in Hk. injection Hk as ->. congruence.
  - apply list_elem_of_fmap. exists c'. split; [reflexivity|].
    apply list_elem_of_lookup.
    destruct (decide (k < i)%nat).
    + exists k. rewrite list_lookup_delete_lt by assumption. exact Hk.
    + exists (pred k). rewrite list_lookup_delete_ge by lia.
      replace (S (pred k)) with k by lia. exact Hk.
Qed.

Lemma insert_cat_ids (cats : list Category) (i : nat) c id n :
  cats !! i = Some c -> cat_id c = id ->
  cat_id <$> <[i := {| cat_id := id; cat_name := n |}]> cats = cat_id <$> cats.
Proof.
  intros Hi Hc. rewrite list_fmap_insert. simpl. apply list_insert_id.
  rewrite list_lookup_fmap, Hi. simpl. congruence.
Qed.

(** X17. Referential integrity.  In a world where every product's category
    is a category of its own company, this stays so after any sequence of
    product requests, and the requests never change a company's categories.
    Renaming a category keeps it for the company, whatever the outcome, and
    so does deleting a category, including the case where the products were cleared but the category could not be
    deleted. *)
Theorem references_resolve cfg w rs :
  tenantwise refsOk w ->
  tenantwise refsOk (run cfg w rs)
  /\ (forall s, categories (tenant (run cfg w rs) s) = categories (tenant w s))
  /\ (forall cenv s id n,
        let db' := fst (updateCategory cenv (tenant w s) id n) in
        refsOk (categories db') (products db'))
  /\ (forall cenv s id,
        let db' := fst (deleteCategory cenv (tenant w s) id) in
        refsOk (categories db') (products db')).
Proof.
  intros Hw. split; [exact (run_refs cfg rs w Hw)|].
  split; [intros s; apply run_categories|]. split.
  - intros cenv s id n. specialize (Hw s). unfold updateCategory.
    destruct (findCategoryAt _ _) as [[i c]|] eqn:Ef; [|exact Hw].
    destruct n as [n|]; [|destruct (negb (categorySaveOk cenv)); exact Hw].
    destruct (existsb _ _); [exact Hw|].
    destruct (negb (updateManyOk cenv)); [exact Hw|].
    destruct (negb (categorySaveOk cenv) || _); simpl.
    + apply renameInProducts_refs, Hw.
    + apply list_find_Some in Ef as (Hi & Hc & _).
      unfold refsOk. eapply Forall_impl;
        [exact (renameInProducts_refs _ id (Js.trim n) _ Hw)|].
      intros p Hp. eapply refOk_mono; [|exact Hp].
      intros j Hj. rewrite (insert_cat_ids _ _ _ _ _ Hi Hc). exact Hj.
  - intros cenv s id. specialize (Hw s). unfold deleteCategory.
    destruct (findCategoryAt _ _) as [[i c]|] eqn:Ef; [|exact Hw].
    destruct (negb (updateManyOk cenv)); [exact Hw|].
    destruct (negb (categoryDeleteOk cenv)); simpl.
    + apply clearInProducts_refs, Hw.
    + apply list_find_Some in Ef as (Hi & Hc & _).
      exact (clearInProducts_refs_delete _ _ _ _ _ Hi Hc Hw).
Qed.

Lemma drinksWorld_refs : tenantwise refsOk drinksWorld.
Proof.
  intros s. unfold tenant, drinksWorld. simpl.
  destruct (decide (s = "acme")) as [->|Hne].
  - rewrite lookup_singleton_eq. simpl.
    apply Forall_cons. split; [intros id [= <-]; set_solver|].
    apply Forall_singleton. intros id [= <-]. set_solver.
  - rewrite lookup_singleton_ne by congruence. apply Forall_nil_2.
Qed.

Lemma references_resolve_witness :
  tenantwise refsOk (run cfg0 drinksWorld drinksDay)
  /\ length (products (tenant (run cfg0 drinksWorld drinksDay) "acme")) = 3%nat.
Proof.
  split; [|reflexivity].
  exact (proj1 (references_resolve cfg0 drinksWorld drinksDay drinksWorld_refs)).
Defined.

(** ** The category distribution *)

Lemma countDocuments_cons c p ps :
  countDocuments c (p :: ps)
  = ((if decide (category p = c) then 1%nat else 0%nat) + countDocuments c ps)%nat.
Proof.
  unfold countDocuments. rewrite filter_cons.
  destruct (decide (category p = c)); reflexivity.
Qed.

Lemma sum_list_append (l k : list nat) :
  sum_list (l ++ k) = (sum_list l + sum_list k)%nat.
Proof. induction l as [|x l IH]; simpl; [reflexivity|]. rewrite IH. lia. Qed.

Lemma distribution_loop_total ps cats : forall acc,
  sum_list (snd <$>
    foldl (fun distribution c =>
             let count := countDocuments (Some (cat_id c)) ps in
             if (0 <? count)%nat then distribution ++ [(cat_name c, count)]
             else distribution) acc cats)
  = (sum_list (snd <$> acc)
     + sum_list ((fun c => countDocuments (Some (cat_id c)) ps) <$> cats))%nat.
Proof.
  induction cats as [|c cats IH]; intros acc; simpl; [lia|].
  rewrite IH.
  destruct (Nat.ltb_spec 0 (countDocuments (Some (cat_id c)) ps)).
  - rewrite fmap_app, sum_list_append. simpl. unfold fmap. lia.
  - unfold fmap. lia.
Qed.

Lemma distribution_loop_positive ps cats : forall acc,
  Forall (fun e => (0 < snd e)%nat) acc ->
  Forall (fun e => (0 < snd e)%nat)
    (foldl (fun distribution c =>
              let count := countDocuments (Some (cat_id c)) ps in
              if (0 <? count)%nat then distribution ++ [(cat_name c, count)]
              else distribution) acc cats).
Proof.
  induction cats as [|c cats IH]; intros acc Hacc; simpl; [exact Hacc|].
  apply IH.
  destruct (Nat.ltb_spec 0 (countDocuments (Some (cat_id c)) ps));
    [|exact Hacc].
  apply Forall_app. split; [exact Hacc|]. apply Forall_singleton. exact H.
Qed.

Lemma distribution_loop_elem ps cats : forall acc e,
  e ∈ foldl (fun distribution c =>
               let count := countDocuments (Some (cat_id c)) ps in
               if (0 <? count)%nat then distribution ++ [(cat_name c, count)]
               else distribution) acc cats
  <-> e ∈ acc
      \/ exists c, c ∈ cats
           /\ (0 < countDocuments (Some (cat_id c)) ps)%nat
           /\ e = (cat_name c, countDocuments (Some (cat_id c)) ps).
Proof.
  induction cats as [|c cats IH]; intros acc e; simpl.
  - split; [auto|]. intros [H|(c & Hc & _)]; [exact H|].
    apply elem_of_nil in Hc. contradiction.
  - rewrite IH.
    destruct (Nat.ltb_spec 0 (countDocuments (Some (cat_id c)) ps)).
    + rewrite elem_of_app, list_elem_of_singleton. split.
      * intros [[He| ->]|(c' & Hc' & Hpos & ->)]; [auto| |].
        -- right. exists c. rewrite elem_of_cons. auto.
        -- right. exists c'. rewrite elem_of_cons. auto.
      * intros [He|(c' & Hc' & Hpos & ->)]; [auto|].
        apply elem_of_cons in Hc' as [->|Hc']; [auto|].
        right. exists c'. auto.
    + split.
      * intros [He|(c' & Hc' & Hpos & ->)]; [auto|].
        right. exists c'. rewrite elem_of_cons. auto.
      * intros [He|(c' & Hc' & Hpos & ->)]; [auto|].
        apply elem_of_cons in Hc' as [->|Hc']; [lia|].
        right. exists c'. auto.
Qed.

Lemma owners_absent (cats : list Category) (o : option string) :
  (forall id, o = Some id -> id ∉ cat_id <$> cats) ->
  sum_list ((fun c => if decide (o = Some (cat_id c)) then 1%nat else 0%nat) <$> cats)
  = 0%nat.
Proof.
  induction cats as [|c cats IH]; intros H; csimpl; [reflexivity|].
  destruct (decide (o = Some (cat_id c))) as [E|E].
  - exfalso. apply (H _ E). csimpl. apply elem_of_cons. auto.
  - rewrite IH; [reflexivity|]. intros id Hid Hin. apply (H id Hid).
    csimpl. apply elem_of_cons. auto.
Qed.

Lemma owners_unique (cats : list Category) (id : string) :
  NoDup (cat_id <$> cats) ->
  sum_list ((fun c => if decide (Some id = Some (cat_id c)) then 1%nat else 0%nat)
              <$> cats)
  = (if decide (id ∈ cat_id <$> cats) then 1%nat else 0%nat)%nat.
Proof.
  induction cats as [|c cats IH]; intros Hnd.
  - destruct (decide (id ∈ cat_id <$> [])) as [H|H]; [|reflexivity].
    apply elem_of_nil in H. contradiction.
  - rewrite !fmap_cons in *. apply NoDup_cons in Hnd as [Hc Hnd].
    cbn [sum_list sum_list_with].
    destruct (decide (Some id = Some (cat_id c))) as [E|E].
    + injection E as ->. rewrite owners_absent.
      * destruct (decide (cat_id c ∈ cat_id c :: (cat_id <$> cats)))
          as [H|H]; [reflexivity|].
        exfalso. apply H, elem_of_cons. auto.
      * intros i [= <-]. exact Hc.
    + rewrite (IH Hnd).
      destruct (decide (id ∈ cat_id <$> cats)) as [H|H];
        destruct (decide (id ∈ cat_id c :: (cat_id <$> cats))) as [H'|H'];
        try reflexivity.
      * exfalso. apply H', elem_of_cons. auto.
      * exfalso. apply elem_of_cons in H' as [->|H']; [congruence|auto].
Qed.

Lemma counts_cons (cats : list Category) p ps :
  sum_list ((fun c => countDocuments (Some (cat_id c)) (p :: ps)) <$> cats)
  = (sum_list ((fun c => if decide (category p = Some (cat_id c))
                         then 1%nat else 0%nat) <$> cats)
     + sum_list ((fun c => countDocuments (Some (cat_id c)) ps) <$> cats))%nat.
Proof.
  induction cats as [|c cats IH]; csimpl; [reflexivity|].
  rewrite IH, countDocuments_cons. lia.
Qed.

Lemma counts_total (cats : list Category) ps :
  NoDup (cat_id <$> cats) ->
  (sum_list ((fun c => countDocuments (Some (cat_id c)) ps) <$> cats)
   + countDocuments None ps <= length ps)%nat
  /\ (refsOk cats ps ->
      (sum_list ((fun c => countDocuments (Some (cat_id c)) ps) <$> cats)
       + countDocuments None ps)%nat = length ps).
Proof.
  intros Hnd. induction ps as [|p ps [IHle IHeq]].
  - split; [|intros _].
    + rewrite (sum_list_fmap_same 0); [unfold countDocuments; simpl; lia|].
      apply Forall_forall. reflexivity.
    + rewrite (sum_list_fmap_same 0); [unfold countDocuments; simpl; lia|].
      apply Forall_forall. reflexivity.
  - rewrite counts_cons, countDocuments_cons. simpl length.
    destruct (category p) as [id|] eqn:Ep.
    + rewrite (owners_unique cats id Hnd).
      destruct (decide (Some id = None)) as [E|_]; [discriminate|].
      split.
      * destruct (decide (id ∈ cat_id <$> cats)); lia.
      * intros H. apply Forall_cons in H as [Hp Hps].
        destruct (decide (id ∈ cat_id <$> cats)) as [_|Hn];
          [specialize (IHeq Hps); lia|].
        exfalso. apply Hn, Hp, Ep.
    + rewrite owners_absent by (intros id; discriminate).
      destruct (decide (None = None)) as [_|E]; [|congruence].
      split; [lia|].
      intros H. apply Forall_cons in H as [_ Hps]. specialize (IHeq Hps). lia.
Qed.

(** X18. The category distribution (GET /api/stats/category-distribution).
    Every entry has a positive count; a category is listed, with the number
    of products that refer to it, exactly when that number is positive.
    Category ids being distinct, the counts add up to at most the number
    of products, and to exactly the totalProducts of the dashboard when
    every product's category is a category of the company. *)
Theorem categoryDistribution_accounts db :
  NoDup (cat_id <$> categories db) ->
  Forall (fun e => (0 < snd e)%nat) (categoryDistribution db)
  /\ (forall c, c ∈ categories db ->
        (0 < countDocuments (Some (cat_id c)) (products db))%nat ->
        (cat_name c, countDocuments (Some (cat_id c)) (products db))
          ∈ categoryDistribution db)
  /\ (sum_list (snd <$> categoryDistribution db) <= length (products db))%nat
  /\ (refsOk (categories db) (products db) ->
      sum_list (snd <$> categoryDistribution db)
      = fst (dashboardTotals (products db))).
Proof.
  intros Hnd. unfold categoryDistribution.
  destruct (counts_total (categories db) (products db) Hnd) as [Hle Heq].
  destruct (Nat.ltb_spec 0 (countDocuments None (products db))) as [Hu|Hu].
  - split; [|split; [|split]].
    + apply Forall_app. split; [apply distribution_loop_positive; constructor|].
      apply Forall_singleton. exact Hu.
    + intros c Hc Hpos. apply elem_of_app. left.
      apply distribution_loop_elem. right. exists c. auto.
    + rewrite fmap_app, sum_list_append, distribution_loop_total. simpl. lia.
    + intros H. rewrite fmap_app, sum_list_append, distribution_loop_total.
      simpl. specialize (Heq H). lia.
  - split; [|split; [|split]].
    + apply distribution_loop_positive. constructor.
    + intros c Hc Hpos. apply distribution_loop_elem. right. exists c. auto.
    + rewrite distribution_loop_total. simpl. lia.
    + intros H. rewrite distribution_loop_total. simpl.
      specialize (Heq H). lia.
Qed.

Lemma drinksDb_ids : NoDup (cat_id <$> categories drinksDb).
Proof. apply (bool_decide_unpack _). vm_compute. exact I. Qed.

Lemma categoryDistribution_accounts_witness :
  categoryDistribution drinksDb = [("Drinks", 1%nat); ("Coffee", 1%nat)]
  /\ (sum_list (snd <$> categoryDistribution drinksDb) <= 2)%nat.
Proof.
  split; [reflexivity|].
  apply (proj1 (proj2 (proj2 (categoryDistribution_accounts drinksDb
                                drinksDb_ids)))).
Defined.

(** ** Creating a category *)

Lemma existsb_name (cats : list Category) n :
  existsb (fun c => bool_decide (cat_name c = n)) cats = true
  <-> n ∈ cat_name <$> cats.
Proof.
  rewrite existsb_exists, list_elem_of_fmap. split.
  - intros (c & Hin & Hc). apply bool_decide_eq_true in Hc.
    exists c. split; [congruence|apply list_elem_of_In, Hin].
  - intros (c & -> & Hin). exists c.
    split; [apply list_elem_of_In, Hin|apply bool_decide_eq_true; reflexivity].
Qed.

Lemma existsb_name_false (cats : list Category) n :
  existsb (fun c => bool_decide (cat_name c = n)) cats = false
  <-> n ∉ cat_name <$> cats.
Proof.
  rewrite <- existsb_name. symmetry. apply not_true_iff_false.
Qed.

Lemma findCategory_snoc_fresh (cats : list Category) c :
  cat_id c ∉ cat_id <$> cats -> findCategory (cats ++ [c]) (cat_id c) = Some c.
Proof.
  unfold findCategory. induction cats as [|x cats IH]; intros Hf; simpl.
  - rewrite bool_decide_eq_true_2 by reflexivity. reflexivity.
  - rewrite fmap_cons, not_elem_of_cons in Hf. destruct Hf as [Hne Hf].
    rewrite bool_decide_eq_false_2 by congruence. apply IH, Hf.
Qed.

Lemma catsOk_snoc cats c :
  catsOk cats -> categoryOk c ->
  cat_name c ∉ cat_name <$> cats -> cat_id c ∉ cat_id <$> cats ->
  catsOk (cats ++ [c]).
Proof.
  intros (Hall & Hn & Hi) Hc Hname Hid. split; [|split].
  - apply Forall_app. split; [exact Hall|]. apply Forall_singleton, Hc.
  - rewrite fmap_app. apply NoDup_app. split; [exact Hn|]. split.
    + intros x Hx Hx'. apply list_elem_of_singleton in Hx'. subst x.
      exact (Hname Hx).
    + apply NoDup_singleton.
  - rewrite fmap_app. apply NoDup_app. split; [exact Hi|]. split.
    + intros x Hx Hx'. apply list_elem_of_singleton in Hx'. subst x.
      exact (Hid Hx).
    + apply NoDup_singleton.
Qed.

Lemma refsOk_app cats new ps : refsOk cats ps -> refsOk (cats ++ new) ps.
Proof.
  intros H. eapply Forall_impl; [exact H|]. intros p Hp.
  eapply refOk_mono; [|exact Hp].
  intros j Hj. rewrite fmap_app. apply elem_of_app. auto.
Qed.

Lemma createCategory_cases cenv db newId name' :
  ((falsy name' = true \/ Js.trim (default "" name') = "")
   /\ createCategory cenv db newId name'
      = (db, reply 400 "Category name is required"))
  \/ exists n,
       name' = Some n /\ Js.trim n <> ""
       /\ ((Js.trim n ∈ cat_name <$> categories db
            /\ createCategory cenv db newId name'
               = (db, reply 400 "Category already exists"))
           \/ ((Js.trim n ∉ cat_name <$> categories db)
               /\ categorySaveOk cenv = false
               /\ createCategory cenv db newId name'
                  = (db, reply 500 "Failed to create category"))
           \/ ((Js.trim n ∉ cat_name <$> categories db)
               /\ categorySaveOk cenv = true
               /\ createCategory cenv db newId name'
                  = ({| products := products db;
                        categories :=
                          categories db
                          ++ [ {| cat_id := newId; cat_name := Js.trim n |} ] |},
                     reply 201 "Category created successfully"))).
Proof.
  unfold createCategory.
  destruct (falsy name') eqn:Efalsy; [left; auto|].
  destruct name' as [n|]; [|discriminate]. simpl default.
  destruct (bool_decide_reflect (Js.trim n = "")) as [Eblank|Eblank];
    [left; auto|].
  right. exists n. split; [reflexivity|]. split; [exact Eblank|].
  simpl orb. rewrite trim_idem.
  destruct (existsb _ (categories db)) eqn:Eex.
  - left. apply existsb_name in Eex. auto.
  - right. apply existsb_name_false in Eex.
    rewrite (bool_decide_eq_false_2 _ Eblank). simpl orb.
    destruct (categorySaveOk cenv); simpl; [right|left]; auto.
Qed.

(** X19. Creating a category (POST /api/categories).  The products are
    never touched.  A missing name and a name that is blank after trimming
    are refused with 400, and so is a name that, trimmed, an existing
    category carries; nothing changes then.  A request answered 201 has
    appended one category, with the given id and the trimmed name, which is
    not blank and was not in use; it is found under its id when that id is
    new.  The required-name validation of the save can never fire after
    the guard: a 500 only comes from the storage.  Well-formed categories
    stay well-formed, and product references stay resolved. *)
Theorem createCategory_contract cenv db newId name' :
  products (fst (createCategory cenv db newId name')) = products db
  /\ (falsy name' = true \/ Js.trim (default "" name') = "" ->
      createCategory cenv db newId name'
      = (db, reply 400 "Category name is required"))
  /\ (forall n, name' = Some n -> Js.trim n <> "" ->
        Js.trim n ∈ cat_name <$> categories db ->
        createCategory cenv db newId name'
        = (db, reply 400 "Category already exists"))
  /\ (status (snd (createCategory cenv db newId name')) = 201%nat ->
      exists n,
        name' = Some n /\ Js.trim n <> ""
        /\ (Js.trim n ∉ cat_name <$> categories db)
        /\ categories (fst (createCategory cenv db newId name'))
           = (categories db
              ++ [ {| cat_id := newId; cat_name := Js.trim n |} ])
        /\ (newId ∉ cat_id <$> categories db ->
            findCategory (categories (fst (createCategory cenv db newId name')))
              newId
            = Some {| cat_id := newId; cat_name := Js.trim n |}))
  /\ (status (snd (createCategory cenv db newId name')) <> 201%nat ->
      fst (createCategory cenv db newId name') = db)
  /\ (status (snd (createCategory cenv db newId name')) = 500%nat ->
      categorySaveOk cenv = false)
  /\ (catsOk (categories db) -> newId ∉ cat_id <$> categories db ->
      catsOk (categories (fst (createCategory cenv db newId name'))))
  /\ (refsOk (categories db) (products db) ->
      refsOk (categories (fst (createCategory cenv db newId name')))
        (products (fst (createCategory cenv db newId name')))).
Proof.
  destruct (createCategory_cases cenv db newId name')
    as [[Hbad ->]|(n & -> & Hn & [[Hin ->]|[(Hout & Hsave & ->)
                                           |(Hout & Hsave & ->)]])];
    simpl.
  - split; [reflexivity|]. split; [reflexivity|].
    split.
    { intros n -> Hn _. exfalso. destruct Hbad as [H|H]; [|exact (Hn H)].
      simpl in H. apply bool_decide_eq_true in H. subst n. apply Hn.
      reflexivity. }
    split; [discriminate|]. split; [reflexivity|].
    split; [discriminate|]. split; [tauto|tauto].
  - split; [reflexivity|].
    split; [intros [H|H]; [simpl in H; apply bool_decide_eq_true in H; subst;
                            exfalso; apply Hn; reflexivity
                           |contradiction]|].
    split; [reflexivity|]. split; [discriminate|]. split; [reflexivity|].
    split; [discriminate|]. split; [tauto|tauto].
  - split; [reflexivity|].
    split; [intros [H|H]; [simpl in H; apply bool_decide_eq_true in H; subst;
                            exfalso; apply Hn; reflexivity
                           |contradiction]|].
    split; [intros n0 [= <-] _ Hin; contradiction|].
    split; [discriminate|]. split; [reflexivity|].
    split; [intros _; exact Hsave|]. split; [tauto|tauto].
  - split; [reflexivity|].
    split; [intros [H|H]; [simpl in H; apply bool_decide_eq_true in H; subst;
                            exfalso; apply Hn; reflexivity
                           |contradiction]|].
    split; [intros n0 [= <-] _ Hin; contradiction|].
    split.
    { intros _. exists n. split; [reflexivity|]. split; [exact Hn|].
      split; [exact Hout|]. split; [reflexivity|]. intros Hfresh.
      exact (findCategory_snoc_fresh _
               {| cat_id := newId; cat_name := Js.trim n |} Hfresh). }
    split; [intros H; exfalso; apply H; reflexivity|].
    split; [discriminate|]. split.
    + intros Hok Hfresh. apply catsOk_snoc; try assumption.
      split; [apply trim_idem|exact Hn].
    + apply refsOk_app.
Qed.

Lemma createCategory_contract_witness :
  createCategory cenvOk drinksDb "aaaaaaaaaaaaaaaaaaaaaac3" (Some "  Coffee ")
  = (drinksDb, reply 400 "Category already exists")
  /\ findCategory (categories (fst (createCategory cenvOk drinksDb "aaaaaaaaaaaaaaaaaaaaaac3"
                                      (Some " Juice "))))
       "aaaaaaaaaaaaaaaaaaaaaac3"
     = Some {| cat_id := "aaaaaaaaaaaaaaaaaaaaaac3"; cat_name := "Juice" |}.
Proof.
  split.
  - apply (proj1 (proj2 (proj2 (createCategory_contract cenvOk drinksDb "aaaaaaaaaaaaaaaaaaaaaac3"
                                  (Some "  Coffee "))))
             "  Coffee " eq_refl).
    + vm_compute. discriminate.
    + apply (bool_decide_unpack _). vm_compute. exact I.
  - destruct (proj1 (proj2 (proj2 (proj2
                (createCategory_contract cenvOk drinksDb "aaaaaaaaaaaaaaaaaaaaaac3"
                   (Some " Juice ")))))
                eq_refl) as (n & Hn & _ & _ & _ & Hfind).
    injection Hn as <-. apply Hfind.
    apply (bool_decide_unpack _). vm_compute. exact I.
Defined.

(** ** Copying the categories of a company *)

Lemma tenant_setCategories_eq w s cats :
  tenant (setCategories w s cats) s
  = {| products := products (tenant w s); categories := cats |}.
Proof.
  unfold tenant at 1, setCategories. simpl. rewrite lookup_insert_eq.
  reflexivity.
Qed.

Lemma tenant_setCategories_ne w s s' cats :
  s <> s' -> tenant (setCategories w s cats) s' = tenant w s'.
Proof.
  intros Hne. unfold tenant, setCategories. simpl.
  rewrite lookup_insert_ne by exact Hne. reflexivity.
Qed.

Lemma products_setCategories w s cats s' :
  products (tenant (setCategories w s cats) s') = products (tenant w s').
Proof.
  destruct (decide (s = s')) as [->|Hne].
  - rewrite tenant_setCategories_eq. reflexivity.
  - rewrite tenant_setCategories_ne by exact Hne. reflexivity.
Qed.

Lemma copyLoop_spec cenv srcs : forall tgt c s tgt' r,
  copyLoop cenv srcs tgt c s = (tgt', r) ->
  exists new,
    tgt' = tgt ++ new
    /\ Forall categoryOk new
    /\ cat_id <$> new = newId cenv <$> seq c (length new)
    /\ (NoDup (cat_name <$> tgt) -> NoDup (cat_name <$> tgt'))
    /\ (forall x, x ∈ new ->
          exists y, y ∈ srcs /\ cat_name x = Js.trim (cat_name y))
    /\ forall c' s', r = Some (c', s') ->
         c' = (c + length new)%nat
         /\ (c' + s' = c + s + length srcs)%nat
         /\ forall y, y ∈ srcs -> Js.trim (cat_name y) ∈ cat_name <$> tgt'.
Proof.
  induction srcs as [|y rest IH]; intros tgt c s tgt' r; simpl.
  - intros [= <- <-]. exists []. rewrite app_nil_r.
    split; [reflexivity|]. split; [constructor|]. split; [reflexivity|].
    split; [auto|]. split; [intros x Hx; apply elem_of_nil in Hx; contradiction|].
    intros c' s' [= <- <-]. split; [simpl; lia|]. split; [lia|].
    intros y Hy. apply elem_of_nil in Hy. contradiction.
  - destruct (existsb _ tgt) eqn:Eex.
    + intros H. destruct (IH _ _ _ _ _ H)
        as (new & -> & Hok & Hids & Hnd & Hfrom & Hdone).
      exists new. split; [reflexivity|]. split; [exact Hok|].
      split; [exact Hids|]. split; [exact Hnd|]. split.
      * intros x Hx. destruct (Hfrom x Hx) as (y' & Hy' & Hn).
        exists y'. split; [apply elem_of_cons; auto|exact Hn].
      * intros c' s' Hr. destruct (Hdone c' s' Hr) as (Hc & Hs & Hall).
        split; [exact Hc|]. split; [lia|].
        intros y' Hy'. apply elem_of_cons in Hy' as [->|Hy']; [|auto].
        apply existsb_name in Eex. rewrite fmap_app. apply elem_of_app. auto.
    + apply existsb_name_false in Eex.
      destruct (bool_decide_reflect (Js.trim (cat_name y) = "")) as [Eb|Eb].
      { simpl. intros [= <- <-]. exists []. rewrite app_nil_r.
        split; [reflexivity|]. split; [constructor|]. split; [reflexivity|].
        split; [auto|].
        split; [intros x Hx; apply elem_of_nil in Hx; contradiction|].
        discriminate. }
      simpl orb. destruct (createOk cenv c); simpl.
      * intros H. destruct (IH _ _ _ _ _ H)
          as (new & -> & Hok & Hids & Hnd & Hfrom & Hdone).
        exists ({| cat_id := newId cenv c; cat_name := Js.trim (cat_name y) |}
                  :: new).
        split; [rewrite <- app_assoc; reflexivity|].
        split; [constructor; [split; [apply trim_idem|exact Eb]|exact Hok]|].
        split; [csimpl; rewrite Hids; reflexivity|].
        split.
        { intros Hn. apply Hnd. rewrite fmap_app. apply NoDup_app.
          split; [exact Hn|]. split; [|apply NoDup_singleton].
          intros x Hx Hx'. apply list_elem_of_singleton in Hx'. subst x.
          exact (Eex Hx). }
        split.
        { intros x Hx. apply elem_of_cons in Hx as [->|Hx].
          - exists y. split; [apply elem_of_cons; auto|reflexivity].
          - destruct (Hfrom x Hx) as (y' & Hy' & Hn).
            exists y'. split; [apply elem_of_cons; auto|exact Hn]. }
        intros c' s' Hr. destruct (Hdone c' s' Hr) as (Hc & Hs & Hall).
        split; [simpl; lia|]. split; [lia|].
        intros y' Hy'. apply elem_of_cons in Hy' as [->|Hy']; [|auto].
        rewrite !fmap_app. simpl. apply elem_of_app. left.
        apply elem_of_app. right. apply list_elem_of_singleton. reflexivity.
      * intros [= <- <-]. exists []. rewrite app_nil_r.
        split; [reflexivity|]. split; [constructor|]. split; [reflexivity|].
        split; [auto|].
        split; [intros x Hx; apply elem_of_nil in Hx; contradiction|].
        discriminate.
Qed.

Lemma copyLoop_present cenv srcs : forall tgt c s,
  (forall y, y ∈ srcs -> Js.trim (cat_name y) ∈ cat_name <$> tgt) ->
  copyLoop cenv srcs tgt c s = (tgt, Some (c, (s + length srcs)%nat)).
Proof.
  induction srcs as [|y rest IH]; intros tgt c s Hall; simpl.
  - rewrite Nat.add_0_r. reflexivity.
  - rewrite (proj2 (existsb_name tgt _))
      by (apply Hall, elem_of_cons; auto).
    rewrite IH by (intros y' Hy'; apply Hall, elem_of_cons; auto).
    do 3 f_equal. lia.
Qed.

Lemma catsOk_copied cenv tgt new :
  catsOk tgt -> freshIds cenv tgt ->
  Forall categoryOk new ->
  cat_id <$> new = newId cenv <$> seq 0 (length new) ->
  NoDup (cat_name <$> (tgt ++ new)) ->
  catsOk (tgt ++ new).
Proof.
  intros (Hall & _ & Hids) [Hinj Hfresh] Hnew Hnewids Hnames.
  split; [apply Forall_app; auto|]. split; [exact Hnames|].
  rewrite fmap_app. apply NoDup_app. split; [exact Hids|]. split.
  - intros x Hx Hx'. rewrite Hnewids in Hx'.
    apply list_elem_of_fmap in Hx' as (k & -> & _). exact (Hfresh k Hx).
  - rewrite Hnewids. apply NoDup_fmap_2_strong; [|apply NoDup_seq].
    intros j k _ _. apply Hinj.
Qed.

Lemma copyCategories_cases env cenv w src tgt :
  let s := default "" src in
  let t := default "" tgt in
  let out := copyCategories env cenv w src tgt in
  (dbs (fst out) = dbs w /\ status (snd out) <> 200%nat)
  \/ exists reg' tgt' r,
       s <> t
       /\ falsy src || falsy tgt = false
       /\ categories (tenant w s) <> []
       /\ copyLoop cenv (categories (tenant w s)) (categories (tenant w t)) 0 0
          = (tgt', r)
       /\ out = (setCategories (setRegistry w reg') t tgt',
                 match r with
                 | Some (copiedCount, skippedCount) =>
                     reply 200 ("Copied " +:+ pretty copiedCount
                                +:+ " categories, skipped "
                                +:+ pretty skippedCount
                                +:+ " (already exists)")
                 | None => reply 500 "Failed to copy categories"
                 end).
Proof.
  intros s t out. subst out. unfold copyCategories. fold s t.
  destruct (falsy src || falsy tgt) eqn:Efalsy;
    [left; split; [reflexivity|discriminate]|].
  destruct (bool_decide_reflect (s = t)) as [Est|Est];
    [left; split; [reflexivity|discriminate]|].
  destruct (getCompanyConnection (registry w) s) as [reg1 [c1|]] eqn:E1;
    [|left; split; [reflexivity|discriminate]].
  destruct (getCompanyConnection reg1 t) as [reg2 [c2|]] eqn:E2;
    [|left; split; [reflexivity|discriminate]].
  rewrite !tenant_setRegistry.
  destruct (categories (tenant w s)) as [|y ys] eqn:Esrc;
    [left; split; [reflexivity|discriminate]|].
  simpl Nat.eqb. cbv iota.
  destruct (copyLoop cenv (y :: ys) (categories (tenant w t)) 0 0)
    as [tgt' r] eqn:Eloop.
  right. eexists _, tgt', r.
  split; [exact Est|]. split; [reflexivity|].
  split; [discriminate|]. split; [reflexivity|].
  destruct r as [[copied skipped]|]; reflexivity.
Qed.

Lemma copyCategories_again env cenv w src tgt :
  let s := default "" src in
  let t := default "" tgt in
  falsy src || falsy tgt = false -> s <> t ->
  categories (tenant w s) <> [] ->
  (forall y, y ∈ categories (tenant w s) ->
     Js.trim (cat_name y) ∈ cat_name <$> categories (tenant w t)) ->
  snd (copyCategories env cenv w src tgt)
  = reply 200 ("Copied " +:+ pretty 0%nat +:+ " categories, skipped "
               +:+ pretty (length (categories (tenant w s)))
               +:+ " (already exists)")
  /\ forall c, tenant (fst (copyCategories env cenv w src tgt)) c = tenant w c.
Proof.
  intros s t Hfalsy Hst Hsrc Hall.
  unfold copyCategories. fold s t. rewrite Hfalsy.
  rewrite (bool_decide_eq_false_2 _ Hst).
  destruct (getCompanyConnection (registry w) s) as [reg1 [c1|]] eqn:E1;
    [|destruct (getCompanyConnection_total (registry w) s) as [c Hc];
      rewrite E1 in Hc; discriminate].
  destruct (getCompanyConnection reg1 t) as [reg2 [c2|]] eqn:E2;
    [|destruct (getCompanyConnection_total reg1 t) as [c Hc];
      rewrite E2 in Hc; discriminate].
  rewrite !tenant_setRegistry.
  destruct (categories (tenant w s)) as [|y ys] eqn:Esrc; [contradiction|].
  simpl Nat.eqb. cbv iota.
  rewrite (copyLoop_present cenv (y :: ys) _ 0 0 Hall). simpl snd.
  split; [reflexivity|]. intros c. simpl fst.
  destruct (decide (t = c)) as [<-|Hne].
  - rewrite tenant_setCategories_eq, !tenant_setRegistry.
    destruct (tenant w t). reflexivity.
  - rewrite tenant_setCategories_ne by exact Hne. reflexivity.
Qed.

(** X20. Copying categories to another company
    (POST /api/categories/copy-to-company).  No outcome changes a product,
    the categories of the source, or the categories of a third company, and
    the existing categories of the target are kept as they are: new ones
    are only appended, each named after a category of the source, trimmed.
    Well-formed target categories stay well-formed (the new ids being
    new), also when the request fails half way, and product references of
    the target stay resolved.  After an answer 200 the source was not
    empty, the number copied and the number skipped add up to the number
    of source categories, every source name is a category name of the
    target, and a second copy, whatever the storage does, copies nothing,
    skips all and leaves every company as it is. *)
Theorem copyCategories_contract env cenv w src tgt :
  let s := default "" src in
  let t := default "" tgt in
  let out := copyCategories env cenv w src tgt in
  (forall c, products (tenant (fst out) c) = products (tenant w c))
  /\ (forall c, c <> t ->
        categories (tenant (fst out) c) = categories (tenant w c))
  /\ categories (tenant (fst out) s) = categories (tenant w s)
  /\ exists new,
       categories (tenant (fst out) t) = categories (tenant w t) ++ new
       /\ (forall x, x ∈ new ->
             exists y, y ∈ categories (tenant w s)
                       /\ cat_name x = Js.trim (cat_name y))
       /\ (catsOk (categories (tenant w t)) ->
           freshIds cenv (categories (tenant w t)) ->
           catsOk (categories (tenant (fst out) t)))
       /\ (refsOk (categories (tenant w t)) (products (tenant w t)) ->
           refsOk (categories (tenant (fst out) t))
             (products (tenant (fst out) t)))
       /\ (status (snd out) = 200%nat ->
           categories (tenant w s) <> []
           /\ (exists skippedCount,
                 (length new + skippedCount)%nat
                 = length (categories (tenant w s))
                 /\ message (snd out)
                    = "Copied " +:+ pretty (length new)
                      +:+ " categories, skipped " +:+ pretty skippedCount
                      +:+ " (already exists)")
           /\ (forall y, y ∈ categories (tenant w s) ->
                 Js.trim (cat_name y)
                   ∈ cat_name <$> categories (tenant (fst out) t))
           /\ forall env' cenv',
                snd (copyCategories env' cenv' (fst out) src tgt)
                = reply 200 ("Copied " +:+ pretty 0%nat
                             +:+ " categories, skipped "
                             +:+ pretty (length (categories (tenant w s)))
                             +:+ " (already exists)")
                /\ forall c,
                     tenant (fst (copyCategories env' cenv' (fst out) src tgt)) c
                     = tenant (fst out) c).
Proof.
  intros s t out.
  pose proof (copyCategories_cases env cenv w src tgt) as Hcases.
  cbv zeta in Hcases. fold s t in Hcases. fold out in Hcases.
  destruct Hcases
    as [[Hdbs Hst]
       |(reg' & tgt' & r & Hne & Hfalsy & Hsrc & Eloop & Eout)].
  - pose proof (dbs_tenant _ _ Hdbs) as Hten.
    split; [intros c; rewrite Hten; reflexivity|].
    split; [intros c _; rewrite Hten; reflexivity|].
    split; [rewrite Hten; reflexivity|].
    exists []. rewrite app_nil_r, !Hten.
    split; [reflexivity|].
    split; [intros x Hx; apply elem_of_nil in Hx; contradiction|].
    split; [tauto|]. split; [tauto|]. intros H. contradiction.
  - destruct (copyLoop_spec _ _ _ _ _ _ _ Eloop)
      as (new & -> & Hok & Hids & Hnd & Hfrom & Hdone).
    assert (Hfst : fst out
                   = setCategories (setRegistry w reg') t
                       (categories (tenant w t) ++ new))
      by (rewrite Eout; reflexivity).
    assert (Ht : tenant (fst out) t
                 = {| products := products (tenant w t);
                      categories := categories (tenant w t) ++ new |})
      by (rewrite Hfst, tenant_setCategories_eq; reflexivity).
    assert (Hs : tenant (fst out) s = tenant w s).
    { rewrite Hfst, tenant_setCategories_ne by congruence. reflexivity. }
    split; [intros c; rewrite Hfst, products_setCategories; reflexivity|].
    split.
    { intros c Hc. rewrite Hfst, tenant_setCategories_ne by congruence.
      reflexivity. }
    split; [rewrite Hs; reflexivity|].
    exists new. rewrite Ht. simpl.
    split; [reflexivity|]. split; [exact Hfrom|].
    split.
    { intros Hcats Hfresh. apply (catsOk_copied cenv); try assumption.
      apply Hnd, Hcats. }
    split; [apply refsOk_app|].
    intros H200. split; [exact Hsrc|].
    destruct r as [[copied skipped]|];
      [|rewrite Eout in H200; simpl in H200; discriminate].
    destruct (Hdone copied skipped eq_refl) as (Hc & Hsum & Hall).
    simpl in Hc. subst copied. split.
    { exists skipped. split; [lia|]. rewrite Eout. reflexivity. }
    split; [exact Hall|].
    intros env' cenv'.
    rewrite <- Hs.
    apply (copyCategories_again env' cenv' (fst out) src tgt);
      fold s t; try assumption.
    + rewrite Hs. exact Hsrc.
    + rewrite Hs, Ht. exact Hall.
Qed.

Lemma coffeeWorld_ok :
  catsOk (categories (tenant coffeeWorld "globex"))
  /\ freshIds copyEnvOk (categories (tenant coffeeWorld "globex")).
Proof.
  split; [split; [|split]|split].
  - apply Forall_singleton. split; [reflexivity|discriminate].
  - apply (bool_decide_unpack _). vm_compute. exact I.
  - apply (bool_decide_unpack _). vm_compute. exact I.
  - intros j k H. simpl in H. injection H as H.
    exact (pretty_nat_inj _ _ H).
  - intros k H. simpl in H.
    change (cat_id <$> categories (tenant coffeeWorld "globex"))
      with ["aaaaaaaaaaaaaaaaaaaaaab1"] in H.
    apply list_elem_of_singleton in H. discriminate.
Qed.

Lemma copyCategories_contract_witness :
  cat_name
    <$> categories
          (tenant (fst (copyCategories envOk copyEnvOk coffeeWorld
                          (Some "acme") (Some "globex"))) "globex")
  = ["Coffee"; "Drinks"]
  /\ catsOk
       (categories
          (tenant (fst (copyCategories envOk copyEnvOk coffeeWorld
                          (Some "acme") (Some "globex"))) "globex")).
Proof.
  split; [reflexivity|].
  destruct (copyCategories_contract envOk copyEnvOk coffeeWorld
              (Some "acme") (Some "globex"))
    as (_ & _ & _ & new & _ & _ & Hok & _).
  exact (Hok (proj1 coffeeWorld_ok) (proj2 coffeeWorld_ok)).
Defined.

(** ** Connection strings *)

Lemma starLoop_run (P : ascii -> bool) body k run :
  (forall s caps k',
     body s caps k' = match s with
                      | [] => None
                      | c :: s' => if P c then k' s' caps else None
                      end) ->
  forall rest caps n m,
  Forall (fun c => P c = true) run ->
  (forall c rest', rest = c :: rest' -> P c = false) ->
  (length run <= n)%nat ->
  k rest caps = Some m ->
  starLoop body k n (run ++ rest) caps = Some m.
Proof.
  intros Hbody.
  induction run as [|c run IH]; intros rest caps n m Hrun Hrest Hn Hk.
  - destruct n as [|n]; [exact Hk|]. cbn [starLoop app]. rewrite Hbody.
    destruct rest as [|c rest']; [exact Hk|].
    rewrite (Hrest c rest' eq_refl). exact Hk.
  - apply Forall_cons in Hrun as [Hc Hrun].
    destruct n as [|n]; [simpl in Hn; lia|].
    change ((c :: run) ++ rest) with (c :: (run ++ rest)).
    cbn [starLoop]. rewrite Hbody, Hc. cbn [length].
    destruct (Nat.ltb_spec (length (run ++ rest)) (S (length (run ++ rest))));
      [|lia].
    rewrite (IH rest caps n m Hrun Hrest ltac:(simpl in Hn; lia) Hk).
    reflexivity.
Qed.

Lemma starLoop_all (P : ascii -> bool) body k run caps n m :
  (forall s caps k',
     body s caps k' = match s with
                      | [] => None
                      | c :: s' => if P c then k' s' caps else None
                      end) ->
  Forall (fun c => P c = true) run ->
  (length run <= n)%nat ->
  k [] caps = Some m ->
  starLoop body k n run caps = Some m.
Proof.
  intros Hbody Hrun Hn Hk.
  rewrite <- (app_nil_r run).
  apply (starLoop_run P body k run Hbody [] caps n m Hrun); try assumption.
  intros c rest' H. discriminate.
Qed.

Lemma take_prefix (a b : list ascii) :
  take (length (a ++ b) - length b) (a ++ b) = a.
Proof.
  rewrite length_app, Nat.add_sub. apply take_app_length.
Qed.

Lemma notChr_true c x : x <> c -> negb (Ascii.eqb x c) = true.
Proof. intros H. apply negb_true_iff, Ascii.eqb_neq, H. Qed.

Lemma without_Forall c s :
  c ∉ s -> Forall (fun x => negb (Ascii.eqb x c) = true) s.
Proof.
  intros H. apply Forall_forall. intros x Hx. apply notChr_true.
  intros ->. exact (H Hx).
Qed.

(** The options, at the end of the input. *)
Lemma uriOptions_match (query : option (list ascii)) caps :
  (forall q, query = Some q -> Forall (fun c => isLineTerminator c = false) q) ->
  exists m,
    matchRe uriOptions
      (match query with Some q => "?"%char :: q | None => [] end) caps atEnd
    = Some m
    /\ m 1%nat = caps 1%nat
    /\ m 3%nat = match query with
                 | Some q => Some ("?"%char :: q)
                 | None => caps 3%nat
                 end.
Proof.
  intros Hq. destruct query as [q|].
  - exists (capture 3 ("?"%char :: q) caps).
    split; [|split; reflexivity].
    unfold uriOptions, dot, chr. cbn [matchRe]. cbn [Ascii.eqb Bool.eqb].
    rewrite (starLoop_all (fun c => negb (isLineTerminator c)) _ _ q caps
               (length q) (capture 3 ("?"%char :: q) caps)).
    + reflexivity.
    + reflexivity.
    + eapply Forall_impl; [exact (Hq q eq_refl)|].
      intros c Hc. simpl. rewrite Hc. reflexivity.
    + lia.
    + simpl. rewrite firstn_all. reflexivity.
  - exists caps. split; [reflexivity|]. split; reflexivity.
Qed.

Lemma ltb_tail (a b : list ascii) :
  a <> [] -> (length b <? length (a ++ b))%nat = true.
Proof.
  intros Ha. apply Nat.ltb_lt. rewrite length_app.
  destruct a; [contradiction|]. simpl. lia.
Qed.

Lemma uriPath_match p (query : option (list ascii)) caps :
  "?"%char ∉ p ->
  (forall q, query = Some q -> Forall (fun c => isLineTerminator c = false) q) ->
  exists m,
    matchRe (Cat (Opt (Grp 2 (Star (notChr "?")))) uriOptions)
      (p ++ match query with Some q => "?"%char :: q | None => [] end)
      caps atEnd
    = Some m
    /\ m 1%nat = caps 1%nat
    /\ m 3%nat = match query with
                 | Some q => Some ("?"%char :: q)
                 | None => caps 3%nat
                 end.
Proof.
  intros Hp Hq.
  set (Q := match query with Some q => "?"%char :: q | None => [] end).
  assert (HQ : forall c rest', Q = c :: rest' ->
                 negb (Ascii.eqb c "?") = false).
  { intros c rest' H. subst Q. destruct query; [|discriminate].
    injection H as <- _. reflexivity. }
  destruct p as [|c p].
  - destruct (uriOptions_match query caps Hq) as (m & Hm & H1 & H3).
    exists m. split; [|split; assumption].
    fold Q in Hm. unfold notChr. cbn [matchRe app].
    replace (starLoop _ _ (length Q) Q caps) with (@None Captures);
      [exact Hm|].
    symmetry. destruct Q as [|c rest'] eqn:EQ; [reflexivity|].
    cbn [length starLoop]. rewrite (HQ c rest' eq_refl).
    rewrite Nat.ltb_irrefl. reflexivity.
  - destruct (uriOptions_match query (capture 2 (c :: p) caps) Hq)
      as (m & Hm & H1 & H3).
    exists m. split; [|split; assumption].
    fold Q in Hm. unfold notChr. cbn [matchRe].
    rewrite (starLoop_run (fun x => negb (Ascii.eqb x "?")) _ _ (c :: p)
               ltac:(reflexivity) Q caps _ m).
    + reflexivity.
    + apply without_Forall, Hp.
    + exact HQ.
    + rewrite length_app. lia.
    + cbv beta. rewrite ltb_tail by discriminate.
      rewrite take_prefix. exact Hm.
Qed.

Lemma uriRest_match p (query : option (list ascii)) caps :
  "?"%char ∉ p ->
  (forall q, query = Some q -> Forall (fun c => isLineTerminator c = false) q) ->
  exists m,
    matchRe (Cat (Opt (chr "/"))
               (Cat (Opt (Grp 2 (Star (notChr "?")))) uriOptions))
      ("/"%char
         :: p ++ match query with Some q => "?"%char :: q | None => [] end)
      caps atEnd
    = Some m
    /\ m 1%nat = caps 1%nat
    /\ m 3%nat = match query with
                 | Some q => Some ("?"%char :: q)
                 | None => caps 3%nat
                 end.
Proof.
  intros Hp Hq.
  destruct (uriPath_match p query caps Hp Hq) as (m & Hm & H1 & H3).
  exists m. split; [|split; assumption].
  change (matchRe (Cat (Opt (chr "/")) ?r) ?s caps atEnd)
    with (match (if (length (tl s) <? length s)%nat
                 then matchRe r (tl s) caps atEnd else None) with
          | Some m => Some m
          | None => matchRe r s caps atEnd
          end).
  cbn [tl length]. rewrite (proj2 (Nat.ltb_lt _ _)) by lia.
  rewrite Hm. reflexivity.
Qed.

Lemma uriRest_nil caps :
  matchRe (Cat (Opt (chr "/"))
             (Cat (Opt (Grp 2 (Star (notChr "?")))) uriOptions))
    [] caps atEnd
  = Some caps.
Proof. reflexivity. Qed.

Lemma uriBase_match (srv : bool) host rest caps k m :
  host <> [] -> "/"%char ∉ host ->
  (forall c rest', rest = c :: rest' -> c = "/"%char) ->
  k rest caps = Some m ->
  matchRe uriBase
    (list_ascii_of_string "mongodb"
     ++ (if srv then list_ascii_of_string "+srv" else [])
     ++ list_ascii_of_string "://" ++ host ++ rest)
    caps k
  = Some m.
Proof.
  intros Hne Hhost Hrest Hk.
  destruct host as [|c host]; [contradiction|].
  apply not_elem_of_cons in Hhost as [Hc Hhost].
  assert (Hloop : starLoop (matchRe (Cls (fun x => negb (Ascii.eqb x "/"))))
                    k (length (host ++ rest)) (host ++ rest) caps
                  = Some m).
  { apply (starLoop_run (fun x => negb (Ascii.eqb x "/")) _ _ host
             ltac:(reflexivity) rest caps _ m).
    - apply without_Forall, Hhost.
    - intros x rest' H. rewrite (Hrest x rest' H). reflexivity.
    - rewrite length_app. lia.
    - exact Hk. }
  cbn [matchRe] in Hloop.
  unfold uriBase, notChr. destruct srv; cbn [list_ascii_of_string app].
  - cbn [matchRe list_ascii_of_string startsWith Ascii.eqb Bool.eqb andb
         String.length drop].
    rewrite (proj2 (Nat.ltb_lt _ _)) by (cbn [length]; lia).
    cbn [startsWith Ascii.eqb Bool.eqb andb drop].
    rewrite (notChr_true "/" c) by congruence.
    rewrite Hloop. reflexivity.
  - cbn [matchRe list_ascii_of_string startsWith Ascii.eqb Bool.eqb andb
         String.length drop].
    rewrite (notChr_true "/" c) by congruence.
    exact Hloop.
Qed.

Lemma chars_inj s1 s2 :
  list_ascii_of_string s1 = list_ascii_of_string s2 -> s1 = s2.
Proof.
  intros H. apply (f_equal string_of_list_ascii) in H.
  rewrite !string_of_list_ascii_of_string in H. exact H.
Qed.

Lemma chars_mongoUri srv host path query :
  list_ascii_of_string (mongoUri srv host path query)
  = list_ascii_of_string "mongodb"
    ++ (if srv then list_ascii_of_string "+srv" else [])
    ++ list_ascii_of_string "://" ++ list_ascii_of_string host
    ++ match path with
       | Some p => "/"%char :: list_ascii_of_string p
       | None => []
       end
    ++ match query with
       | Some q => "?"%char :: list_ascii_of_string q
       | None => []
       end.
Proof.
  unfold mongoUri. rewrite !chars_app.
  destruct srv, path, query; rewrite ?chars_app; reflexivity.
Qed.

Lemma orStr_empty s : Js.orStr (Some s) "" = s.
Proof.
  unfold Js.orStr. destruct (decide (s = "")) as [->|]; reflexivity.
Qed.

Lemma take_scheme (a b c d rest : list ascii) :
  take (length (a ++ b ++ c ++ d ++ rest) - length rest)
    (a ++ b ++ c ++ d ++ rest)
  = a ++ b ++ c ++ d.
Proof.
  replace (a ++ b ++ c ++ d ++ rest) with ((a ++ b ++ c ++ d) ++ rest)
    by (rewrite <- !app_assoc; reflexivity).
  apply take_prefix.
Qed.

Lemma uriPattern_match (srv : bool) host path (query : option (list ascii)) :
  host <> [] -> "/"%char ∉ host ->
  (forall p, path = Some p -> "?"%char ∉ p) ->
  (forall q, query = Some q -> Forall (fun c => isLineTerminator c = false) q) ->
  (path = None -> query = None) ->
  exists m,
    matchAnchored uriPattern
      (list_ascii_of_string "mongodb"
       ++ (if srv then list_ascii_of_string "+srv" else [])
       ++ list_ascii_of_string "://" ++ host
       ++ match path with
          | Some p =>
              "/"%char
                :: p ++ match query with
                        | Some q => "?"%char :: q
                        | None => []
                        end
          | None => []
          end)
    = Some m
    /\ m 1%nat = Some (list_ascii_of_string "mongodb"
                       ++ (if srv then list_ascii_of_string "+srv" else [])
                       ++ list_ascii_of_string "://" ++ host)
    /\ m 3%nat = match query with
                 | Some q => Some ("?"%char :: q)
                 | None => None
                 end.
Proof.
  intros Hne Hhost Hp Hq Hnone.
  set (base := list_ascii_of_string "mongodb"
               ++ (if srv then list_ascii_of_string "+srv" else [])
               ++ list_ascii_of_string "://" ++ host).
  set (caps := capture 1 base (fun _ => None)).
  unfold matchAnchored, uriPattern.
  destruct path as [p|].
  - destruct (uriRest_match p query caps (Hp p eq_refl) Hq)
      as (m & Hm & H1 & H3).
    exists m. split; [|split; [exact H1|]].
    + cbn [matchRe]. apply uriBase_match; try assumption.
      * intros c rest' [= <- _]. reflexivity.
      * cbv beta. rewrite take_scheme. exact Hm.
    + rewrite H3. destruct query; reflexivity.
  - rewrite (Hnone eq_refl). exists caps. split; [|split; reflexivity].
    cbn [matchRe]. apply uriBase_match; try assumption.
    + intros c rest' H. discriminate.
    + cbv beta. rewrite take_scheme. reflexivity.
Qed.

Lemma getBaseUri_mongoUri srv host path query :
  host <> "" -> without "/" host ->
  (forall p, path = Some p -> without "?" p) ->
  (forall q, query = Some q -> oneLine q) ->
  (path = None -> query = None) ->
  getBaseUri (mongoUri srv host path query)
  = (mongoUri srv host None None,
     match query with Some q => "?" +:+ q | None => "" end).
Proof.
  intros Hne Hhost Hp Hq Hnone. unfold getBaseUri.
  destruct (uriPattern_match srv (list_ascii_of_string host)
              (list_ascii_of_string <$> path)
              (list_ascii_of_string <$> query))
    as (m & Hm & H1 & H3).
  - intros H. apply Hne, chars_inj. exact H.
  - exact Hhost.
  - intros p H. destruct path as [p0|]; [|discriminate].
    injection H as <-. exact (Hp p0 eq_refl).
  - intros q H. destruct query as [q0|]; [|discriminate].
    injection H as <-. exact (Hq q0 eq_refl).
  - intros H. destruct path; [discriminate|]. rewrite (Hnone eq_refl).
    reflexivity.
  - replace (list_ascii_of_string (mongoUri srv host path query))
      with (list_ascii_of_string "mongodb"
            ++ (if srv then list_ascii_of_string "+srv" else [])
            ++ list_ascii_of_string "://" ++ list_ascii_of_string host
            ++ match list_ascii_of_string <$> path with
               | Some p =>
                   "/"%char
                     :: p ++ match list_ascii_of_string <$> query with
                             | Some q => "?"%char :: q
                             | None => []
                             end
               | None => []
               end).
    + rewrite Hm, H1, H3. cbn [default]. f_equal.
      * apply chars_inj.
        rewrite list_ascii_of_string_of_list_ascii, chars_mongoUri, !app_nil_r.
        reflexivity.
      * destruct query as [q|]; [|reflexivity]. cbn [fmap option_fmap option_map].
        rewrite orStr_empty. cbn [string_of_list_ascii].
        rewrite string_of_list_ascii_of_string. reflexivity.
    + rewrite chars_mongoUri. destruct path as [p|]; [|rewrite (Hnone eq_refl)];
        destruct query; reflexivity.
Qed.

Lemma mongoUri_extend srv host slug query :
  mongoUri srv host None None +:+ "/" +:+ slug
  +:+ match query with Some q => "?" +:+ q | None => "" end
  = mongoUri srv host (Some slug) query.
Proof.
  apply chars_inj. rewrite !chars_app, !chars_mongoUri, !app_nil_r.
  rewrite <- !app_assoc. destruct query; reflexivity.
Qed.

Lemma mongoUri_query_as_host srv host q :
  mongoUri srv host None (Some q) = mongoUri srv (host +:+ "?" +:+ q) None None.
Proof.
  apply chars_inj. rewrite !chars_mongoUri, !chars_app, !app_nil_r.
  reflexivity.
Qed.

Lemma without_app c s1 s2 :
  without c (s1 +:+ s2) <-> without c s1 /\ without c s2.
Proof.
  unfold without. rewrite chars_app, not_elem_of_app. reflexivity.
Qed.

(** X21. The base URI (getBaseUri of db-manager.js) and the URI of a
    company database.  Take a connection string mongodb://host/path?query
    (or mongodb+srv), with or without path and query, whose host part is
    not empty and has no slash, whose path has no question mark and whose
    query has no line break.  The base is the scheme with the host, the
    options are the query with its question mark (empty without a query),
    so the URI of a company is the same string with the company slug as
    its path: the database the configuration names is dropped.  Parsing
    the URI of a company gives the same base and options again when the
    slug has no question mark.  When a query follows the host without a
    slash between them, the pattern takes it for a part of the host: the
    options are empty and the slug is appended after the query. *)
Theorem getBaseUri_shape srv host :
  host <> "" -> without "/" host ->
  (forall path query slug,
     (forall p, path = Some p -> without "?" p) ->
     (forall q, query = Some q -> oneLine q) ->
     (path = None -> query = None) ->
     getBaseUri (mongoUri srv host path query)
     = (mongoUri srv host None None,
        match query with Some q => "?" +:+ q | None => "" end)
     /\ dbUri (mongoUri srv host path query) slug
        = mongoUri srv host (Some slug) query
     /\ (without "?" slug ->
         getBaseUri (dbUri (mongoUri srv host path query) slug)
         = getBaseUri (mongoUri srv host path query)))
  /\ (forall q slug,
        without "/" q ->
        getBaseUri (mongoUri srv host None (Some q))
        = (mongoUri srv host None (Some q), "")
        /\ dbUri (mongoUri srv host None (Some q)) slug
           = mongoUri srv host None (Some q) +:+ "/" +:+ slug).
Proof.
  intros Hne Hhost. split.
  - intros path query slug Hp Hq Hnone.
    pose proof (getBaseUri_mongoUri srv host path query Hne Hhost Hp Hq Hnone)
      as E.
    assert (D : dbUri (mongoUri srv host path query) slug
                = mongoUri srv host (Some slug) query).
    { unfold dbUri. rewrite E. cbn [fst snd]. apply mongoUri_extend. }
    split; [exact E|]. split; [exact D|].
    intros Hslug. rewrite D, E.
    apply getBaseUri_mongoUri; try assumption.
    + intros p [= <-]. exact Hslug.
    + discriminate.
  - intros q slug Hq.
    assert (E : getBaseUri (mongoUri srv host None (Some q))
                = (mongoUri srv host None (Some q), "")).
    { rewrite mongoUri_query_as_host.
      apply (getBaseUri_mongoUri srv _ None None); try discriminate;
        try reflexivity.
      - destruct host; [contradiction|discriminate].
      - apply without_app. split; [exact Hhost|].
        apply without_app. split; [|exact Hq].
        unfold without. simpl. intros H.
        apply list_elem_of_singleton in H. discriminate. }
    split; [exact E|]. unfold dbUri. rewrite E. cbn [fst snd].
    apply chars_inj. rewrite !chars_app, app_nil_r. reflexivity.
Qed.

Lemma getBaseUri_shape_witness :
  dbUri "mongodb+srv://u:p@cluster.x.net/?retryWrites=true&w=majority" "acme"
  = "mongodb+srv://u:p@cluster.x.net/acme?retryWrites=true&w=majority".
Proof.
  refine (proj1 (proj2 (proj1 (getBaseUri_shape true "u:p@cluster.x.net" _ _)
                          (Some "") (Some "retryWrites=true&w=majority")
                          "acme" _ _ _))).
  - discriminate.
  - apply (bool_decide_unpack _). vm_compute. exact I.
  - intros p [= <-]. apply (bool_decide_unpack _). vm_compute. exact I.
  - intros q [= <-]. apply (bool_decide_unpack _). vm_compute. exact I.
  - discriminate.
Defined.

(** *** The URI of the master database *)

Lemma includes_char c s : includes [c] s = true <-> c ∈ s.
Proof.
  induction s as [|x s IH]; simpl.
  - split; [discriminate|]. intros H. apply elem_of_nil in H. contradiction.
  - rewrite orb_true_iff, IH, elem_of_cons.
    destruct (Ascii.eqb_spec c x) as [->|Hne]; simpl.
    + split; auto.
    + split; [intros [H|H]; [discriminate|auto]|].
      intros [H|H]; [contradiction|auto].
Qed.

Lemma includes_char_false c s : includes [c] s = false <-> c ∉ s.
Proof.
  rewrite <- includes_char. symmetry. apply not_true_iff_false.
Qed.

Lemma replaceFirst_absent p r s :
  includes p s = false -> replaceFirst p r s = s.
Proof.
  induction s as [|x s IH]; simpl; intros H;
    apply orb_false_iff in H as [H1 H2]; rewrite H1; [reflexivity|].
  rewrite (IH H2). reflexivity.
Qed.

Lemma replaceFirst_slash_query r a b :
  "?"%char ∉ a ->
  replaceFirst ["/"%char; "?"%char] r (a ++ "/"%char :: "?"%char :: b)
  = a ++ r ++ b.
Proof.
  induction a as [|x a IH]; intros Ha.
  - reflexivity.
  - apply not_elem_of_cons in Ha as [Hx Ha].
    change ((x :: a) ++ ?l) with (x :: (a ++ l)).
    cbn [replaceFirst startsWith].
    replace (Ascii.eqb "/" x && _) with false.
    + rewrite (IH Ha). reflexivity.
    + symmetry. destruct (Ascii.eqb "/" x); [|reflexivity]. cbn [andb].
      destruct a as [|y a]; [reflexivity|]. cbn [app startsWith].
      apply not_elem_of_cons in Ha as [Hy _].
      rewrite (proj2 (Ascii.eqb_neq _ _) Hy). reflexivity.
Qed.

Lemma getMasterDbUri_unchanged uri :
  ~ without "?" uri ->
  includes ["/"%char; "?"%char] (list_ascii_of_string uri) = false ->
  getMasterDbUri uri = uri.
Proof.
  intros H Hno. unfold getMasterDbUri.
  replace (includes ["?"%char] (list_ascii_of_string uri)) with true.
  - rewrite (replaceFirst_absent _ _ _ Hno).
    apply string_of_list_ascii_of_string.
  - symmetry. apply includes_char. unfold without in H.
    destruct (decide ("?"%char ∈ list_ascii_of_string uri)); tauto.
Qed.

Lemma getMasterDbUri_inserted a b :
  without "?" a ->
  getMasterDbUri (a +:+ "/?" +:+ b) = a +:+ "/" +:+ masterDb +:+ "?" +:+ b.
Proof.
  intros Ha. unfold getMasterDbUri.
  replace (includes ["?"%char] (list_ascii_of_string (a +:+ "/?" +:+ b)))
    with true.
  - apply chars_inj.
    rewrite list_ascii_of_string_of_list_ascii, !chars_app.
    cbn [list_ascii_of_string app].
    rewrite (replaceFirst_slash_query _ _ _ Ha).
    cbn [app]. rewrite <- app_assoc. reflexivity.
  - symmetry. apply includes_char. rewrite !chars_app.
    apply elem_of_app. right. apply elem_of_app. left.
    apply elem_of_cons. right. apply elem_of_cons. left. reflexivity.
Qed.

(** X22. The URI of the master database (getMasterDbUri of server.js).
    When the configured URI has no question mark, one slash at its end is
    dropped and /shalset-master is appended.  When it has one, the first
    slash that is directly followed by a question mark becomes
    /shalset-master before that question mark; and a URI that has a
    question mark but no slash directly before one is returned as it
    is. *)
Theorem getMasterDbUri_shape uri :
  (without "?" uri ->
   getMasterDbUri uri
   = string_of_list_ascii (dropTrailingSlash (list_ascii_of_string uri))
     +:+ "/" +:+ masterDb)
  /\ (~ without "?" uri ->
      includes ["/"%char; "?"%char] (list_ascii_of_string uri) = false ->
      getMasterDbUri uri = uri)
  /\ (forall a b,
        uri = a +:+ "/?" +:+ b -> without "?" a ->
        getMasterDbUri uri = a +:+ "/" +:+ masterDb +:+ "?" +:+ b).
Proof.
  split; [|split].
  - intros H. unfold getMasterDbUri.
    apply includes_char_false in H. rewrite H.
    apply chars_inj.
    rewrite list_ascii_of_string_of_list_ascii, !chars_app,
      list_ascii_of_string_of_list_ascii.
    reflexivity.
  - apply getMasterDbUri_unchanged.
  - intros a b -> Ha. apply getMasterDbUri_inserted, Ha.
Qed.

Lemma getMasterDbUri_shape_witness :
  getMasterDbUri "mongodb://host/mydb?w=1" = "mongodb://host/mydb?w=1"
  /\ getMasterDbUri "mongodb://host/?w=1" = "mongodb://host/shalset-master?w=1".
Proof.
  split.
  - apply (proj1 (proj2 (getMasterDbUri_shape "mongodb://host/mydb?w=1")));
      [|reflexivity].
    intros H. apply H. apply (bool_decide_unpack _). vm_compute. exact I.
  - apply (proj2 (proj2 (getMasterDbUri_shape "mongodb://host/?w=1"))
             "mongodb://host" "w=1"); [reflexivity|].
    apply (bool_decide_unpack _). vm_compute. exact I.
Defined.

Lemma dropTrailingSlash_slash s : dropTrailingSlash (s ++ ["/"%char]) = s.
Proof.
  unfold dropTrailingSlash. rewrite rev_app_distr. simpl.
  apply rev_involutive.
Qed.

Lemma dropTrailingSlash_keep s :
  s <> [] -> "/"%char ∉ s -> forall pre, dropTrailingSlash (pre ++ s) = pre ++ s.
Proof.
  intros Hne Hs pre. destruct (exists_last Hne) as (s' & c & ->).
  apply not_elem_of_app in Hs as [_ Hc].
  rewrite list_elem_of_singleton in Hc.
  unfold dropTrailingSlash. rewrite app_assoc, rev_app_distr.
  cbn [rev app].
  destruct c as [[] [] [] [] [] [] [] []]; try reflexivity.
  contradiction.
Qed.

Lemma scheme_without_query srv host :
  without "?" host -> without "?" (mongoUri srv host None None).
Proof.
  unfold without. rewrite chars_mongoUri, !app_nil_r. intros H.
  rewrite !not_elem_of_app. split; [|split; [|split; [|exact H]]].
  - apply (bool_decide_unpack _); vm_compute; exact I.
  - destruct srv; apply (bool_decide_unpack _); vm_compute; exact I.
  - apply (bool_decide_unpack _); vm_compute; exact I.
Qed.

Lemma mongoUri_path_inj srv host p p' q :
  mongoUri srv host (Some p) (Some q) = mongoUri srv host (Some p') (Some q) ->
  p = p'.
Proof.
  intros H. apply (f_equal list_ascii_of_string) in H.
  rewrite !chars_mongoUri in H.
  repeat apply app_inv_head in H.
  apply app_inv_tail in H. injection H as H. apply chars_inj, H.
Qed.

(** X23. server.js and db-manager.js on the master database.  For a host
    part that is not empty and has neither a slash nor a question mark,
    and the URIs mongodb://host, mongodb://host/ and mongodb://host/?query,
    getMasterDbUri and the URI that getMasterConnection asks
    getCompanyConnection for agree: both are the URI with the path
    shalset-master.  For a URI with a path and a query in which no slash
    is directly followed by a question mark, getMasterDbUri returns the
    URI as it is, so the server reads users and companies from the
    database the URI names, while db-manager.js connects to
    shalset-master: the two differ unless the path is shalset-master. *)
Theorem master_database_uri srv host :
  host <> "" -> without "/" host -> without "?" host ->
  (getMasterDbUri (mongoUri srv host None None)
   = mongoUri srv host (Some masterDb) None
   /\ dbUri (mongoUri srv host None None) masterDb
      = mongoUri srv host (Some masterDb) None)
  /\ (forall query,
        (forall q, query = Some q -> oneLine q) ->
        getMasterDbUri (mongoUri srv host (Some "") query)
        = mongoUri srv host (Some masterDb) query
        /\ dbUri (mongoUri srv host (Some "") query) masterDb
           = mongoUri srv host (Some masterDb) query)
  /\ (forall p q,
        without "?" p -> oneLine q ->
        includes ["/"%char; "?"%char]
          (list_ascii_of_string (mongoUri srv host (Some p) (Some q)))
        = false ->
        getMasterDbUri (mongoUri srv host (Some p) (Some q))
        = mongoUri srv host (Some p) (Some q)
        /\ dbUri (mongoUri srv host (Some p) (Some q)) masterDb
           = mongoUri srv host (Some masterDb) (Some q)
        /\ (p <> masterDb ->
            getMasterDbUri (mongoUri srv host (Some p) (Some q))
            <> dbUri (mongoUri srv host (Some p) (Some q)) masterDb)).
Proof.
  intros Hne Hslash Hquery.
  pose proof (scheme_without_query srv host Hquery) as Hbase.
  assert (Hdb : forall path query,
            (forall p, path = Some p -> without "?" p) ->
            (forall q, query = Some q -> oneLine q) ->
            (path = None -> query = None) ->
            dbUri (mongoUri srv host path query) masterDb
            = mongoUri srv host (Some masterDb) query).
  { intros path query Hp Hq Hnone. unfold dbUri.
    rewrite (getBaseUri_mongoUri srv host path query Hne Hslash Hp Hq Hnone).
    cbn [fst snd]. apply mongoUri_extend. }
  split; [|split].
  - split; [|apply Hdb; try discriminate; reflexivity].
    unfold getMasterDbUri.
    rewrite (proj2 (includes_char_false _ _) Hbase).
    apply chars_inj.
    rewrite list_ascii_of_string_of_list_ascii, !chars_mongoUri, !app_nil_r.
    rewrite !app_assoc.
    rewrite dropTrailingSlash_keep.
    + rewrite <- !app_assoc. reflexivity.
    + intros H. apply Hne, chars_inj, H.
    + exact Hslash.
  - intros query Hq.
    split; [|apply Hdb; [intros p [= <-] H; inversion H|exact Hq|discriminate]].
    destruct query as [q|].
    + transitivity (mongoUri srv host None None +:+ "/" +:+ masterDb
                    +:+ "?" +:+ q).
      * rewrite <- (getMasterDbUri_inserted _ q Hbase). f_equal.
        apply chars_inj. rewrite !chars_app, !chars_mongoUri, !app_nil_r.
        rewrite <- !app_assoc. reflexivity.
      * apply (mongoUri_extend srv host masterDb (Some q)).
    + assert (Hq' : without "?" (mongoUri srv host (Some "") None)).
      { unfold without in *. rewrite chars_mongoUri in *.
        rewrite !app_nil_r in *. rewrite !not_elem_of_app in *.
        destruct Hbase as (H1 & H2 & H3 & H4).
        repeat split; try assumption. apply (bool_decide_unpack _); vm_compute; exact I. }
      unfold getMasterDbUri.
      rewrite (proj2 (includes_char_false _ _) Hq').
      apply chars_inj.
      rewrite list_ascii_of_string_of_list_ascii, !chars_mongoUri, !app_nil_r.
      cbn [list_ascii_of_string].
      rewrite !app_assoc, dropTrailingSlash_slash.
      rewrite <- !app_assoc. reflexivity.
  - intros p q Hp Hq Hno.
    assert (E : getMasterDbUri (mongoUri srv host (Some p) (Some q))
                = mongoUri srv host (Some p) (Some q)).
    { apply getMasterDbUri_unchanged; [|exact Hno].
      unfold without. rewrite chars_mongoUri. intros H. apply H.
      rewrite !elem_of_app. do 5 right. apply elem_of_cons. left.
      reflexivity. }
    assert (D : dbUri (mongoUri srv host (Some p) (Some q)) masterDb
                = mongoUri srv host (Some masterDb) (Some q)).
    { apply Hdb; [intros p0 [= <-]; exact Hp
                 |intros q0 [= <-]; exact Hq|discriminate]. }
    split; [exact E|]. split; [exact D|].
    intros Hpm. rewrite E, D. intros H. apply Hpm.
    exact (mongoUri_path_inj _ _ _ _ _ H).
Qed.

Lemma master_database_uri_witness :
  getMasterDbUri "mongodb://host/mydb?w=1"
  <> dbUri "mongodb://host/mydb?w=1" "shalset-master".
Proof.
  refine (proj2 (proj2 (proj2 (proj2 (master_database_uri false "host" _ _ _))
                          "mydb" "w=1" _ _ _)) _).
  - discriminate.
  - apply (bool_decide_unpack _). vm_compute. exact I.
  - apply (bool_decide_unpack _). vm_compute. exact I.
  - apply (bool_decide_unpack _). vm_compute. exact I.
  - apply (bool_decide_unpack _). vm_compute. exact I.
  - reflexivity.
  - discriminate.
Defined.

(** ** Deactivating a company *)

Lemma find_all_false {A} (f : A -> bool) (l : list A) :
  (forall x, x ∈ l -> f x = false) -> List.find f l = None.
Proof.
  induction l as [|x l IH]; intros H; simpl; [reflexivity|].
  rewrite (H x) by (apply elem_of_cons; auto).
  apply IH. intros y Hy. apply H, elem_of_cons. auto.
Qed.

Lemma findCompany_deactivated (cs : list Company) id c t :
  NoDup (slug <$> cs) -> cs !! id = Some c ->
  Js.toLowerCase (Js.trim t) = slug c ->
  findCompany (<[id := {| slug := slug c; isActive := false |}]> cs) t
  = None.
Proof.
  intros Hnd Hid Ht. unfold findCompany. rewrite Ht. apply find_all_false.
  intros x Hx. apply list_elem_of_lookup in Hx as (j & Hj).
  apply list_lookup_insert_Some in Hj as [(-> & <- & _)|(Hne & Hj)].
  - simpl. apply andb_false_r.
  - destruct (bool_decide_reflect (slug x = slug c)) as [E|E]; [|reflexivity].
    exfalso. apply Hne. symmetry.
    apply (NoDup_lookup _ _ _ (slug c) Hnd);
      rewrite list_lookup_fmap; [rewrite Hj|rewrite Hid]; simpl; congruence.
Qed.

Lemma handle_ignores_directory cfg w cs r :
  (forall param target keep, req_route r <> PostTransfer param target keep) ->
  handle cfg {| registry := registry w; companies := cs; dbs := dbs w |} r
  = ({| registry := registry (fst (handle cfg w r)); companies := cs;
        dbs := dbs (fst (handle cfg w r)) |},
     snd (handle cfg w r)).
Proof.
  intros Hroute. unfold handle. simpl registry.
  destruct (companyMiddleware _ _ _ _ _) as [reg1 [resp|s]]; [reflexivity|].
  destruct (req_route r) as [b|param|param target keep|param q n s'
                            |param q n l|param b|param];
    try reflexivity.
  exfalso. exact (Hroute param target keep eq_refl).
Qed.

(** X24. Deactivating a company (DELETE /api/companies/:id).  Only a super
    admin gets past the middleware.  No outcome touches a company
    database or the connection cache: the data is kept.  After an answer
    200 the company is marked inactive under the same slug and the other
    companies are as they were; slugs being distinct, every transfer into
    the company, however the target spells the slug (in capitals, with
    blanks around it), is then refused and changes nothing.  Requests of
    every other route do not read the directory: for the slug of the
    deactivated company they are answered as before and write what they
    wrote before. *)
Theorem deleteCompany_contract env u w id :
  (isSuperAdmin u = false ->
   deleteCompany env u w id = (w, reply 403 "Super admin access required"))
  /\ dbs (fst (deleteCompany env u w id)) = dbs w
  /\ registry (fst (deleteCompany env u w id)) = registry w
  /\ (status (snd (deleteCompany env u w id)) = 200%nat ->
      exists c,
        companies w !! id = Some c
        /\ companies (fst (deleteCompany env u w id))
           = <[id := {| slug := slug c; isActive := false |}]> (companies w)
        /\ (NoDup (slug <$> companies w) ->
            forall env' u' s param keep t,
              Js.isAscii t = true ->
              Js.toLowerCase (Js.trim t) = slug c ->
              fst (transferProduct env' u' (fst (deleteCompany env u w id)) s
                     param (Some t) keep)
              = fst (deleteCompany env u w id)
              /\ (400 <= status
                           (snd (transferProduct env' u'
                                   (fst (deleteCompany env u w id)) s param
                                   (Some t) keep)))%nat)
        /\ forall cfg r,
             (forall param target keep,
                req_route r <> PostTransfer param target keep) ->
             snd (handle cfg (fst (deleteCompany env u w id)) r)
             = snd (handle cfg w r)
             /\ dbs (fst (handle cfg (fst (deleteCompany env u w id)) r))
                = dbs (fst (handle cfg w r))).
Proof.
  unfold deleteCompany.
  destruct (isSuperAdmin u); simpl negb; cbv iota.
  2:{ split; [reflexivity|]. split; [reflexivity|]. split; [reflexivity|].
      simpl. discriminate. }
  split; [discriminate|].
  destruct (companies w !! id) as [c|] eqn:Ec.
  2:{ split; [reflexivity|]. split; [reflexivity|]. simpl. discriminate. }
  destruct (saveOk env); simpl negb; cbv iota.
  2:{ split; [reflexivity|]. split; [reflexivity|]. simpl. discriminate. }
  split; [reflexivity|]. split; [reflexivity|].
  intros _. exists c. split; [reflexivity|]. split; [reflexivity|].
  cbn [fst]. split.
  - intros Hnd env' u' s param keep t _ Ht. unfold transferProduct.
    cbn [falsy companies].
    change (default "" (Some t)) with t.
    destruct (bool_decide (t = "")); [split; [reflexivity|simpl; lia]|].
    destruct (bool_decide (t = s)); [split; [reflexivity|simpl; lia]|].
    destruct (negb (isSuperAdmin u') && negb (hasAccessTo u' t));
      [split; [reflexivity|simpl; lia]|].
    rewrite (findCompany_deactivated _ _ _ t Hnd Ec Ht).
    split; [reflexivity|simpl; lia].
  - intros cfg r Hroute.
    rewrite (handle_ignores_directory cfg w _ r Hroute). split; reflexivity.
Qed.

Lemma deleteCompany_contract_witness :
  status (snd (transferProduct envOk elchin
                 (fst (deleteCompany envOk root acmeWithB123 1))
                 "acme" "B123" (Some "globex") false))
  = 404%nat
  /\ snd (handle cfg0 (fst (deleteCompany envOk root acmeWithB123 1))
            (request elchin "globex" envOk
               (PostProduct (createBody "G1" (Some 1)))))
     = snd (handle cfg0 acmeWithB123
              (request elchin "globex" envOk
                 (PostProduct (createBody "G1" (Some 1))))).
Proof.
  split; [reflexivity|].
  destruct (proj2 (proj2 (proj2
              (deleteCompany_contract envOk root acmeWithB123 1))) eq_refl)
    as (c & _ & _ & _ & Hserve).
  apply Hserve. intros param target keep H. discriminate.
Defined.
